(** * streamx: scoring, deduplication and selection of torrent records

    A shallow embedding of the parts of [internal/addon], [internal/pipe]
    and [internal/titleparser] that rank, filter and collect stream
    records, and of what they call in [internal/cinemeta],
    [internal/realdebrid] and [internal/prowlarr], followed by the
    properties they satisfy. *)

From Stdlib Require Import ZArith Bool Lia Ascii String DecimalString.
From Stdlib Require Import SpecFloat.
From stdpp Require Import gmap strings list sorting.

Local Open Scope string_scope.
Local Open Scope Z_scope.
Local Open Scope list_scope.

(** * Part I: the embedding *)

(** ** IEEE 754 binary64, the [float64] of Go

    Values are [spec_float]s of precision 53 and maximal exponent 1024.
    Every operation rounds to nearest, ties to even, one operation at a
    time (no fused multiply-add). *)
Module Float64.

Definition prec : Z := 53.
Definition emax : Z := 1024.

Definition float64 : Type := spec_float.

(** [float64(n)] for an integer [n]. *)
Definition of_Z (n : Z) : float64 := binary_normalize prec emax n 0 false.

Definition add : float64 -> float64 -> float64 := SFadd prec emax.
Definition mul : float64 -> float64 -> float64 := SFmul prec emax.
Definition div : float64 -> float64 -> float64 := SFdiv prec emax.

(** [x < y] and [x <= y]; false as soon as one side is a NaN. *)
Definition ltb : float64 -> float64 -> bool := SFltb.
Definition leb : float64 -> float64 -> bool := SFleb.

(** The decimal literal [n / 10^k], converted as the compiler converts
    constants: the double nearest to the exact value.  [n] and [10^k] are
    below [2^53] wherever it is used, so both are exact and the division
    rounds once. *)
Definition dec (n : Z) (k : Z) : float64 := div (of_Z n) (of_Z (10 ^ k)).

Definition is_nan (x : float64) : bool :=
  match x with S754_nan => true | _ => false end.

(** Neither a NaN nor negative: [+0], [+inf] or a positive number. *)
Definition nonneg (x : float64) : bool :=
  match x with
  | S754_zero s | S754_infinity s | S754_finite s _ _ => negb s
  | S754_nan => false
  end.

(** [x] is a zero, a finite number or an infinity of sign [s]. *)
Definition signed (s : bool) (x : float64) : Prop :=
  match x with
  | S754_zero s' | S754_infinity s' | S754_finite s' _ _ => s' = s
  | S754_nan => False
  end.

End Float64.

(** ** [strconv.Atoi]

    Modelled from Go's standard library: an optional sign followed by one
    or more decimal digits.  The result is the value and whether the
    conversion succeeded.  A syntax error yields [0]; a value outside
    [int] (64 bits) yields the nearest bound, and the scan stops at the
    digit that takes the magnitude beyond [uint64], before it reads the
    rest of the string. *)
Module strconv.

Definition digit (c : ascii) : option Z :=
  let n := Z.of_N (N_of_ascii c) in
  if (48 <=? n) && (n <=? 57) then Some (n - 48) else None.

Inductive scan :=
| SyntaxError
| OutOfRange
| Magnitude (n : Z).

(** The loop of [ParseUint] in base 10. *)
Fixpoint digits (acc : Z) (s : string) : scan :=
  match s with
  | EmptyString => Magnitude acc
  | String c s' =>
      match digit c with
      | Some d =>
          if 2 ^ 64 <=? acc * 10 + d then OutOfRange
          else digits (acc * 10 + d) s'
      | None => SyntaxError
      end
  end.

Definition maxInt : Z := 2 ^ 63 - 1.
Definition minInt : Z := - 2 ^ 63.

Definition unsigned (s : string) : scan :=
  match s with
  | EmptyString => SyntaxError
  | _ => digits 0 s
  end.

(** The end of [ParseInt]: the sign and the bounds of [int64]. *)
Definition signed (neg : bool) (r : scan) : Z * bool :=
  match r with
  | SyntaxError => (0, false)
  | OutOfRange => (if neg then minInt else maxInt, false)
  | Magnitude n =>
      if negb neg && (2 ^ 63 <=? n) then (maxInt, false)
      else if neg && (2 ^ 63 <? n) then (minInt, false)
      else (if neg then - n else n, true)
  end.

Definition Atoi (s : string) : Z * bool :=
  match s with
  | String "-" s' => signed true (unsigned s')
  | String "+" s' => signed false (unsigned s')
  | _ => signed false (unsigned s)
  end.

End strconv.

(** ** Library functions the repository calls

    Go's [regexp], [strings], [strconv.ParseFloat], [slices.SortFunc], the
    iteration order of a map, the conversion of a [float64] to [uint64] and
    the edit distance of [adrg/strutil] are not part of the repository.
    They are parameters of the embedding; what the repository relies on is
    stated where it is used. *)
Class GoLib := {
  (** [regexp.MustCompile(pattern).FindAllStringIndex(s, -1)]: the
      [start, end] byte offsets of the successive matches. *)
  FindAllStringIndex : string -> string -> list (Z * Z);
  (** [FindAllStringSubmatchIndex(s, -1)]: per match, the offsets of the
      match followed by those of each capture group. *)
  FindAllStringSubmatchIndex : string -> string -> list (list Z);
  MatchString : string -> string -> bool;
  ReplaceAllString : string -> string -> string -> string;
  ToLower : string -> string;
  TrimSpace : string -> string;
  Split : string -> string -> list string;
  (** [strconv.ParseFloat(s, 64)], the value alone ([0] on a syntax error). *)
  ParseFloat : string -> Float64.float64;
  (** [uint64(f)] for a [float64]. *)
  float64_to_uint64 : Float64.float64 -> Z;
  (** [metrics.Levenshtein{CaseSensitive, InsertCost, DeleteCost,
      ReplaceCost}.Distance(a, b)]. *)
  Distance : bool -> Z -> Z -> Z -> string -> string -> Z;
  (** [slices.SortFunc(x, cmp)], as the sorted slice. *)
  SortFunc : forall A : Type, (A -> A -> Z) -> list A -> list A;
  (** The keys of a map in the order a [range] loop visits them. *)
  rangeKeys : forall V : Type, gmap Z V -> list Z;
}.

Arguments SortFunc {_ A} cmp x.
Arguments rangeKeys {_ V} m.

(** [cmp] is a strict weak ordering on the elements of [x], with [a]
    before [b] when [cmp a b < 0]: what [slices.SortFunc] requires. *)
Definition strictWeakOn {A : Type} (cmp : A -> A -> Z) (x : list A) : Prop :=
  (forall a b, a ∈ x -> b ∈ x -> cmp a b < 0 -> ~ cmp b a < 0)
  /\ (forall a b c, a ∈ x -> b ∈ x -> c ∈ x ->
        cmp a c < 0 -> cmp a b < 0 \/ cmp b c < 0).

(** What Go documents of [slices.SortFunc] and of [range] over a map: the
    sorted slice holds the elements of the slice, no element comes after a
    one it is ordered before when [cmp] is a strict weak ordering, and a
    [range] loop visits every key once, in some order. *)
Record GoLibSpec (lib : GoLib) : Prop := {
  SortFunc_perm : forall (A : Type) (cmp : A -> A -> Z) (x : list A),
    SortFunc cmp x ≡ₚ x;
  SortFunc_sorted : forall (A : Type) (cmp : A -> A -> Z) (x : list A),
    strictWeakOn cmp x ->
    StronglySorted (fun a b => ~ cmp b a < 0) (SortFunc cmp x);
  rangeKeys_perm : forall (V : Type) (m : gmap Z V),
    rangeKeys m ≡ₚ (map_to_list m).*1;
}.

(** [s[a:b]] on a string.  The offsets come from the regular-expression
    engine, which returns them inside the string. *)
Definition slice (s : string) (a b : Z) : string :=
  substring (Z.to_nat a) (Z.to_nat (b - a)) s.

(** [len(s)], in bytes. *)
Definition len (s : string) : Z := Z.of_nat (String.length s).

(** [strings.ReplaceAll(s, c, empty)] for a one-byte [c]. *)
Fixpoint removeByte (c : ascii) (s : string) : string :=
  match s with
  | EmptyString => EmptyString
  | String x s' =>
      if Ascii.eqb x c then removeByte c s' else String x (removeByte c s')
  end.

(** [strings.HasSuffix(s, suffix)]. *)
Definition HasSuffix (s suffix : string) : bool :=
  let n := String.length s in
  let k := String.length suffix in
  (k <=? n)%nat && String.eqb (substring (n - k) k s) suffix.

(** ** Package [titleparser] *)
Module titleparser.

Record MetaInfo := {
  Resolution : Z;
  Year : Z;
  Quality : string;
  Codec : string;
  Audio : string;
  Container : string;
  ThreeD : bool;
  FromSeason : Z;
  ToSeason : Z;
  Episode : Z;
  Title : string;
  Language : string;
}.

(** [&MetaInfo{}]. *)
Definition zero : MetaInfo :=
  {| Resolution := 0; Year := 0; Quality := ""; Codec := ""; Audio := "";
     Container := ""; ThreeD := false; FromSeason := 0; ToSeason := 0;
     Episode := 0; Title := ""; Language := "" |}.

(** Assignments [mi.Field = v], one per field the package assigns. *)
Definition setResolution (v : Z) (m : MetaInfo) : MetaInfo :=
  {| Resolution := v; Year := Year m; Quality := Quality m; Codec := Codec m;
     Audio := Audio m; Container := Container m; ThreeD := ThreeD m;
     FromSeason := FromSeason m; ToSeason := ToSeason m; Episode := Episode m;
     Title := Title m; Language := Language m |}.

Definition setYear (v : Z) (m : MetaInfo) : MetaInfo :=
  {| Resolution := Resolution m; Year := v; Quality := Quality m;
     Codec := Codec m; Audio := Audio m; Container := Container m;
     ThreeD := ThreeD m; FromSeason := FromSeason m; ToSeason := ToSeason m;
     Episode := Episode m; Title := Title m; Language := Language m |}.

Definition setQuality (v : string) (m : MetaInfo) : MetaInfo :=
  {| Resolution := Resolution m; Year := Year m; Quality := v;
     Codec := Codec m; Audio := Audio m; Container := Container m;
     ThreeD := ThreeD m; FromSeason := FromSeason m; ToSeason := ToSeason m;
     Episode := Episode m; Title := Title m; Language := Language m |}.

Definition setCodec (v : string) (m : MetaInfo) : MetaInfo :=
  {| Resolution := Resolution m; Year := Year m; Quality := Quality m;
     Codec := v; Audio := Audio m; Container := Container m;
     ThreeD := ThreeD m; FromSeason := FromSeason m; ToSeason := ToSeason m;
     Episode := Episode m; Title := Title m; Language := Language m |}.

Definition setAudio (v : string) (m : MetaInfo) : MetaInfo :=
  {| Resolution := Resolution m; Year := Year m; Quality := Quality m;
     Codec := Codec m; Audio := v; Container := Container m;
     ThreeD := ThreeD m; FromSeason := FromSeason m; ToSeason := ToSeason m;
     Episode := Episode m; Title := Title m; Language := Language m |}.

Definition setContainer (v : string) (m : MetaInfo) : MetaInfo :=
  {| Resolution := Resolution m; Year := Year m; Quality := Quality m;
     Codec := Codec m; Audio := Audio m; Container := v;
     ThreeD := ThreeD m; FromSeason := FromSeason m; ToSeason := ToSeason m;
     Episode := Episode m; Title := Title m; Language := Language m |}.

Definition setThreeD (v : bool) (m : MetaInfo) : MetaInfo :=
  {| Resolution := Resolution m; Year := Year m; Quality := Quality m;
     Codec := Codec m; Audio := Audio m; Container := Container m;
     ThreeD := v; FromSeason := FromSeason m; ToSeason := ToSeason m;
     Episode := Episode m; Title := Title m; Language := Language m |}.

Definition setFromSeason (v : Z) (m : MetaInfo) : MetaInfo :=
  {| Resolution := Resolution m; Year := Year m; Quality := Quality m;
     Codec := Codec m; Audio := Audio m; Container := Container m;
     ThreeD := ThreeD m; FromSeason := v; ToSeason := ToSeason m;
     Episode := Episode m; Title := Title m; Language := Language m |}.

Definition setToSeason (v : Z) (m : MetaInfo) : MetaInfo :=
  {| Resolution := Resolution m; Year := Year m; Quality := Quality m;
     Codec := Codec m; Audio := Audio m; Container := Container m;
     ThreeD := ThreeD m; FromSeason := FromSeason m; ToSeason := v;
     Episode := Episode m; Title := Title m; Language := Language m |}.

Definition setEpisode (v : Z) (m : MetaInfo) : MetaInfo :=
  {| Resolution := Resolution m; Year := Year m; Quality := Quality m;
     Codec := Codec m; Audio := Audio m; Container := Container m;
     ThreeD := ThreeD m; FromSeason := FromSeason m; ToSeason := ToSeason m;
     Episode := v; Title := Title m; Language := Language m |}.

Definition setTitle (v : string) (m : MetaInfo) : MetaInfo :=
  {| Resolution := Resolution m; Year := Year m; Quality := Quality m;
     Codec := Codec m; Audio := Audio m; Container := Container m;
     ThreeD := ThreeD m; FromSeason := FromSeason m; ToSeason := ToSeason m;
     Episode := Episode m; Title := v; Language := Language m |}.

Section Parsers.
Context `{GoLib}.

(** [findValue(value, title, regex)]: the returned index and the string
    [*value] holds afterwards. *)
Definition findValue (value title pattern : string) : Z * string :=
  if negb (String.eqb value "") then (-1, value)
  else
    match last (FindAllStringIndex pattern title) with
    | Some (a, b) => (a, ToLower (slice title a b))
    | None => (-1, value)
    end.

Definition findSubValue (value title pattern : string) : Z * string :=
  if negb (String.eqb value "") then (-1, value)
  else
    match last (FindAllStringSubmatchIndex pattern title) with
    | Some loc =>
        if (3 <? Z.of_nat (length loc))
        then (loc !!! 0%nat, ToLower (slice title (loc !!! 2%nat) (loc !!! 3%nat)))
        else (-1, value)
    | None => (-1, value)
    end.

Definition findAndSet (value title pattern target : string) : Z * string :=
  if negb (String.eqb value "") then (-1, value)
  else
    match last (FindAllStringIndex pattern title) with
    | Some (a, _) => (a, target)
    | None => (-1, value)
    end.

(** A parser of the list: the title and the [MetaInfo] so far give the
    index of the match ([-1] without one) and the updated [MetaInfo]. *)
Definition parser : Type := string -> MetaInfo -> Z * MetaInfo.

Definition parseYear (pattern : string) : parser := fun title mi =>
  if 0 <? Year mi then (-1, mi)
  else
    let '(index, year) := findValue "" title pattern in
    if negb (index =? -1)
    then (index, setYear (fst (strconv.Atoi year)) mi)
    else (index, mi).

Definition parseResolution (pattern : string) : parser := fun title mi =>
  if 0 <? Resolution mi then (-1, mi)
  else
    let '(index, resolution) := findSubValue "" title pattern in
    if negb (index =? -1)
    then (index, setResolution (fst (strconv.Atoi resolution)) mi)
    else (index, mi).

Definition matchAndSetResolution (pattern : string) (value : Z) : parser :=
  fun title mi =>
  if 0 <? Resolution mi then (-1, mi)
  else
    let '(index, _) := findValue "" title pattern in
    if negb (index =? -1) then (index, setResolution value mi) else (index, mi).

Definition parseQuality (pattern : string) : parser := fun title mi =>
  let '(index, v) := findValue (Quality mi) title pattern in
  (index, setQuality v mi).

Definition matchAndSetQuality (pattern value : string) : parser :=
  fun title mi =>
  let '(index, v) := findAndSet (Quality mi) title pattern value in
  (index, setQuality v mi).

Definition parseCodec (pattern : string) : parser := fun title mi =>
  let '(index, v) := findValue (Codec mi) title pattern in
  if negb (index =? -1)
  then (index, setCodec (removeByte " " (removeByte "-" (removeByte "." v))) mi)
  else (index, setCodec v mi).

Definition parseAudio (pattern : string) : parser := fun title mi =>
  let '(index, v) := findValue (Audio mi) title pattern in
  (index, setAudio v mi).

Definition matchAndSetAudio (pattern value : string) : parser :=
  fun title mi =>
  let '(index, v) := findAndSet (Audio mi) title pattern value in
  (index, setAudio v mi).

Definition parseContainer (pattern : string) : parser := fun title mi =>
  let '(index, v) := findValue (Container mi) title pattern in
  (index, setContainer v mi).

Definition parse3D (pattern : string) : parser := fun title mi =>
  if ThreeD mi then (-1, mi)
  else
    let '(index, _) := findValue "" title pattern in
    (index, setThreeD (negb (index =? -1)) mi).

(** The three season parsers read the last match when it has enough
    offsets: [minLen] is the length the slice must exceed. *)
Definition lastSubmatch (pattern title : string) (minLen : Z) : option (list Z) :=
  match last (FindAllStringSubmatchIndex pattern title) with
  | Some loc => if minLen <? Z.of_nat (length loc) then Some loc else None
  | None => None
  end.

Definition group (title : string) (loc : list Z) (i : nat) : Z :=
  fst (strconv.Atoi (slice title (loc !!! (2 * i)%nat) (loc !!! (2 * i + 1)%nat))).

Definition parseSeasonAndEpisode (pattern : string) : parser := fun title mi =>
  if 0 <? FromSeason mi then (-1, mi)
  else
    match lastSubmatch pattern title 5 with
    | Some loc =>
        let season := group title loc 1 in
        (loc !!! 0%nat,
         setEpisode (group title loc 2) (setToSeason season (setFromSeason season mi)))
    | None => (-1, mi)
    end.

Definition parseMultiSeason (pattern : string) : parser := fun title mi =>
  if 0 <? FromSeason mi then (-1, mi)
  else
    match lastSubmatch pattern title 5 with
    | Some loc =>
        (loc !!! 0%nat,
         setToSeason (group title loc 2) (setFromSeason (group title loc 1) mi))
    | None => (-1, mi)
    end.

Definition parseSingleSeason (pattern : string) : parser := fun title mi =>
  if 0 <? FromSeason mi then (-1, mi)
  else
    match lastSubmatch pattern title 3 with
    | Some loc =>
        let season := group title loc 1 in
        (loc !!! 0%nat, setToSeason season (setFromSeason season mi))
    | None => (-1, mi)
    end.

Definition languagePattern : string := "\bFR(?:ENCH)?\b".

(** The match goes to [mi.Quality], as in the source. *)
Definition parseLanguage (pattern : string) : parser := fun title mi =>
  let '(index, v) := findValue (Quality mi) title pattern in
  (index, setQuality v mi).

Definition parseFillerWords (pattern : string) : parser := fun title mi =>
  let '(index, _) := findValue "" title pattern in
  (index, mi).

Definition parsers : list parser := [
  parseYear "(?:\b((?:19[0-9]|20[0-9])[0-9])\b)|(?:\(((?:19[0-9]|20[0-9])[0-9])\))";
  parseResolution "(?i)([0-9]{3,4})[pi]";
  matchAndSetResolution "(?i)(4k)" 2160;
  matchAndSetQuality "(?i)\b(?:HD-?)?CAM(?:rip)?\b" "cam";
  matchAndSetQuality "(?i)\b(?:HD-?)?T(?:ELE)?S(?:YNC)?\b" "telesync";
  matchAndSetQuality "(?i)\bTS-?Rip\b" "telesync";
  parseQuality "(?i)\bHD-?Rip\b";
  parseQuality "(?i)\bBRRip\b";
  parseQuality "(?i)\bBDRip\b";
  parseQuality "(?i)\bDVDRip\b";
  matchAndSetQuality "(?i)\bDVD(?:R[0-9])?\b" "dvd";
  parseQuality "(?i)\bDVDscr\b";
  parseQuality "(?i)\b(?:HD-?)?TVRip\b";
  parseQuality "\bTC\b";
  parseQuality "(?i)\bPPVRip\b";
  parseQuality "(?i)\bR5\b";
  parseQuality "(?i)\bVHSSCR\b";
  matchAndSetQuality "(?i)\bBlu-?ray(?:[\s\.]|.+\b)Remux\b" "brremux";
  matchAndSetQuality "(?i)\bBlu-?ray\b" "bluray";
  parseQuality "(?i)\bWEB-?DL\b";
  parseQuality "(?i)\bWEB-?Rip\b";
  parseQuality "(?i)\b(?:DL|WEB|BD|BR)REMUX\b";
  parseQuality "(?i)\b(DivX|XviD)\b";
  parseQuality "(?i)HDTV";
  parseCodec "(?i)dvix|mpeg2|divx|xvid|[xh][-. ]?26[45]|avc|hevc";
  parseAudio "MD|MP3|mp3|FLAC|Atmos|DTS(?:-HD)?|TrueHD";
  parseAudio "(?i)Dual[- ]Audio";
  matchAndSetAudio "(?i)AC-?3(?:\.5\.1)?" "ac3";
  matchAndSetAudio "(?i)DD5[. ]?1" "dd5.1";
  matchAndSetAudio "(?i)AAC(?:[. ]?2[. ]0)?" "aac";
  parseContainer "(?i)\b(MKV|AVI|MP4)\b";
  parse3D "(?i)\b((3D))\b";
  parseSeasonAndEpisode "(?i)S(\d{2})-?E(\d{2})";
  parseMultiSeason "(?i)S(\d{2})\s*(?:to|-)?\s*S(\d{2})";
  parseMultiSeason "(?i)\bseason\s+(\d{1,2})[\s-]+(\d{1,2})\b";
  parseSingleSeason "(?i)\bs(\d{2})\b";
  parseSingleSeason "(?i)\bseason[- ]?(\d{1,2})\b";
  parseLanguage languagePattern;
  parseFillerWords "(?i)[-\s\.\(]+\b(?:TV|Complete|Full) series\b"
].

(** One turn of the loop of [Parse]: the state is the cut index and the
    [MetaInfo]. *)
Definition step (title : string) (st : Z * MetaInfo) (p : parser) : Z * MetaInfo :=
  let '(index, m) := st in
  let '(nextIndex, m') := p title m in
  if (0 <=? nextIndex) && (nextIndex <? index) then (nextIndex, m') else (index, m').

Definition Parse (title : string) : MetaInfo :=
  let '(index, m) := fold_left (step title) parsers (len title, zero) in
  setTitle (slice title 0 index) m.

(** A parser that leaves [Language] as it found it. *)
Definition keepsLanguage (p : parser) : Prop :=
  forall title mi, Language (snd (p title mi)) = Language mi.

End Parsers.
End titleparser.

(** ** Packages [realdebrid], [prowlarr] and [model]: the data *)
Module realdebrid.

(** The client: the token it authenticates with and the caller's address. *)
Record RealDebrid := { apiToken : string; ipAddress : string }.

Record File := {
  ID : string;
  FileName : string;
  FileSize : Z;  (* uint64 *)
}.

End realdebrid.

Module prowlarr.

Record Indexer := {
  Name : string;
  Enable : bool;
  LimitDefaults : Z;
}.

(** The fields of [Torrent] the pipeline reads after the search. *)
Record Torrent := {
  Title : string;
  FileName : string;
  Guid : string;
  Seeders : Z;   (* uint *)
  Size : Z;      (* uint *)
  Imdb : Z;      (* uint *)
  InfoHash : string;
}.

End prowlarr.

Module model.

Record MetaInfo := {
  Name : string;
  IMDBID : Z;    (* uint *)
  FromYear : Z;
  ToYear : Z;
}.

End model.

(** ** Package [addon] *)
Module addon.
Import Float64.

Definition error : Type := string.

Definition ContentTypeMovie : string := "movie".
Definition ContentTypeSeries : string := "series".

Record UserData := {
  RDAPIKey : string;
  ProwlarrURL : string;
  ProwlarrAPIKey : string;
  MinResolution : string;
  MaxResolution : string;
  MinSize : string;
  MaxSize : string;
  MinSeeders : string;
  ExcludedQualities : string;
  SearchTimeout : string;
  SortMethod : string;
}.

(** A record of the pipeline.  The pointers every stage below finds set
    ([MetaInfo], [TitleInfo], [Indexer], [Torrent], [UserData]) are plain
    values; [MediaFile] and [RDClient] can be [nil] and are options.  The
    search client [Prowlarr] plays no part below and is left out. *)
Record streamRecord := {
  ContentType : string;
  ID : string;
  Season : Z;
  Episode : Z;
  BaseURL : string;
  RemoteAddress : string;
  MetaInfo : model.MetaInfo;
  TitleInfo : titleparser.MetaInfo;
  Indexer : prowlarr.Indexer;
  Torrent : prowlarr.Torrent;
  Files : list realdebrid.File;
  MediaFile : option realdebrid.File;
  SearchBySeason : bool;
  RDClient : option realdebrid.RealDebrid;
  userData : UserData;
}.

(** [newR := *r; newR.Files = files]. *)
Definition setFiles (files : list realdebrid.File) (r : streamRecord) : streamRecord :=
  {| ContentType := ContentType r; ID := ID r; Season := Season r;
     Episode := Episode r; BaseURL := BaseURL r;
     RemoteAddress := RemoteAddress r; MetaInfo := MetaInfo r;
     TitleInfo := TitleInfo r; Indexer := Indexer r; Torrent := Torrent r;
     Files := files; MediaFile := MediaFile r;
     SearchBySeason := SearchBySeason r; RDClient := RDClient r;
     userData := userData r |}.

(** [r.MediaFile = f]. *)
Definition setMediaFile (f : option realdebrid.File) (r : streamRecord) : streamRecord :=
  {| ContentType := ContentType r; ID := ID r; Season := Season r;
     Episode := Episode r; BaseURL := BaseURL r;
     RemoteAddress := RemoteAddress r; MetaInfo := MetaInfo r;
     TitleInfo := TitleInfo r; Indexer := Indexer r; Torrent := Torrent r;
     Files := Files r; MediaFile := f;
     SearchBySeason := SearchBySeason r; RDClient := RDClient r;
     userData := userData r |}.

Definition maxTitleDistance : Z := 5.
Definition maxStreamsResult : Z := 5.
Definition maxSizeInBytes : Z := Z.shiftl (30 * 1) 30.
Definition minSizeInBytes : Z := Z.shiftl (100 * 1) 20.

Definition mediaContainerExtensions : list string :=
  ["mkv"; "mk3d"; "mp4"; "m4v"; "mov"; "avi"].

Definition avoidQualities : list string :=
  ["cam"; "camrip"; "telesync"; "tsrip"; "hdcam"; "tc"; "ppvrip"; "r5"; "vhsscr"].

(** *** Quality score *)

Definition getQualityScore (quality : string) : Z :=
  if String.eqb quality "bdremux" || String.eqb quality "brremux" then 10
  else if String.eqb quality "web-dl" || String.eqb quality "webrip" then 9
  else if String.eqb quality "bluray" then 8
  else if String.eqb quality "hdrip" then 7
  else if String.eqb quality "dvdrip" then 6
  else if String.eqb quality "dvd" then 5
  else if String.eqb quality "tvrip" then 4
  else if String.eqb quality "cam" || String.eqb quality "camrip"
          || String.eqb quality "telesync" || String.eqb quality "tsrip" then 1
  else 3.

(** [x >= lo && x <= hi] on [float64]. *)
Definition within (x lo hi : float64) : bool := leb lo x && leb x hi.

(** The size score of [calculateQualityScore]: the nested conditionals on
    the resolution and on [sizeGB]. *)
Definition sizeScoreOf (resolution : Z) (sizeGB : float64) : float64 :=
  if 2160 <=? resolution then
    if within sizeGB (of_Z 15) (of_Z 30) then of_Z 100
    else if within sizeGB (of_Z 10) (of_Z 40) then of_Z 80
    else if within sizeGB (of_Z 5) (of_Z 50) then of_Z 60
    else of_Z 20
  else if 1080 <=? resolution then
    if within sizeGB (of_Z 4) (of_Z 15) then of_Z 100
    else if within sizeGB (of_Z 2) (of_Z 20) then of_Z 80
    else if within sizeGB (of_Z 1) (of_Z 25) then of_Z 60
    else of_Z 20
  else if 720 <=? resolution then
    if within sizeGB (of_Z 1) (of_Z 8) then of_Z 100
    else if within sizeGB (dec 5 1) (of_Z 12) then of_Z 80
    else if within sizeGB (dec 3 1) (of_Z 15) then of_Z 60
    else of_Z 20
  else
    if within sizeGB (dec 5 1) (of_Z 4) then of_Z 100
    else if within sizeGB (dec 2 1) (of_Z 6) then of_Z 80
    else if within sizeGB (dec 1 1) (of_Z 8) then of_Z 60
    else of_Z 20.

(** [r.RDClient != nil && len(r.Files) > 0]. *)
Definition usingDebrid (r : streamRecord) : bool :=
  match RDClient r, Files r with
  | Some _, _ :: _ => true
  | _, _ => false
  end.

(** [calculateQualityScore]; [None] stands for the nil dereference of a
    record that has no [MediaFile]. *)
Definition calculateQualityScore (r : streamRecord) : option float64 :=
  match MediaFile r with
  | None => None
  | Some mediaFile =>
      let resolution := titleparser.Resolution (TitleInfo r) in
      let resolutionScore := div (of_Z resolution) (dec 216 1) in
      let resolutionScore :=
        if ltb (of_Z 100) resolutionScore then of_Z 100 else resolutionScore in
      let sourceScore :=
        mul (of_Z (getQualityScore (titleparser.Quality (TitleInfo r)))) (of_Z 10) in
      let sizeGB :=
        div (of_Z (realdebrid.FileSize mediaFile)) (of_Z (1024 * 1024 * 1024)) in
      let sizeScore := sizeScoreOf resolution sizeGB in
      if usingDebrid r then
        Some (add (add (mul resolutionScore (dec 5 1)) (mul sourceScore (dec 35 2)))
                  (mul sizeScore (dec 15 2)))
      else
        let seederScore := of_Z (prowlarr.Seeders (Torrent r)) in
        let seederScore :=
          if ltb (of_Z 100) seederScore then of_Z 100 else seederScore in
        Some (add (add (add (mul seederScore (dec 4 1)) (mul resolutionScore (dec 3 1)))
                       (mul sourceScore (dec 2 1)))
                  (mul sizeScore (dec 1 1)))
  end.

(** The comparison function [sortByQualityScore] and [groupByResolution]
    give to [slices.SortFunc]: descending score.  It dereferences the
    [MediaFile] of both records; the callers below account for that. *)
Definition byScoreDesc (r1 r2 : streamRecord) : Z :=
  match calculateQualityScore r1, calculateQualityScore r2 with
  | Some score1, Some score2 =>
      if ltb score2 score1 then -1
      else if ltb score1 score2 then 1
      else 0
  | _, _ => 0
  end.

Definition hasMediaFile (r : streamRecord) : bool :=
  match MediaFile r with Some _ => true | None => false end.

(** A record as it enters scoring: it has a media file, and its unsigned
    fields and its parsed resolution are not negative. *)
Definition scorable (r : streamRecord) : Prop :=
  (exists f, MediaFile r = Some f /\ 0 <= realdebrid.FileSize f)
  /\ 0 <= titleparser.Resolution (TitleInfo r)
  /\ 0 <= prowlarr.Seeders (Torrent r).

(** Both records have a score, and the score of [b] is at most the score
    of [a]. *)
Definition notBelow (a b : streamRecord) : Prop :=
  exists sa sb,
    calculateQualityScore a = Some sa /\ calculateQualityScore b = Some sb
    /\ leb sb sa = true.

(** The records of a resolution, in the order of the input. *)
Definition ofResolution (resolution : Z) (records : list streamRecord) : list streamRecord :=
  filter (fun r => titleparser.Resolution (TitleInfo r) = resolution) records.

(** *** Selection by resolution groups *)
Section Selection.
Context `{GoLib}.

(** [sortByQualityScore]: the comparison function runs on a slice of two
    or more records, on each of them. *)
Definition sortByQualityScore (records : list streamRecord) : option (list streamRecord) :=
  if (1 <? Z.of_nat (length records)) && negb (forallb hasMediaFile records)
  then None
  else Some (SortFunc byScoreDesc records).

(** The first loop of [groupByResolution]:
    [groups[resolution] = append(groups[resolution], record)]. *)
Definition groupRecords (records : list streamRecord) : gmap Z (list streamRecord) :=
  fold_left
    (fun groups record =>
       let resolution := titleparser.Resolution (TitleInfo record) in
       <[resolution := default [] (groups !! resolution) ++ [record]]> groups)
    records ∅.

(** The body of the second loop on one group: sort, then
    [group[:maxPerGroup]] when the group is longer.  [None] is a panic: the
    comparison function on a record without [MediaFile], or a negative
    slice bound. *)
Definition sortAndCap (maxPerGroup : Z) (group : list streamRecord) : option (list streamRecord) :=
  match sortByQualityScore group with
  | None => None
  | Some group =>
      if maxPerGroup <? Z.of_nat (length group) then
        if maxPerGroup <? 0 then None
        else Some (take (Z.to_nat maxPerGroup) group)
      else Some group
  end.

(** The second loop: [for resolution, group := range groups], storing the
    sorted and capped group back under its key. *)
Definition sortGroups (maxPerGroup : Z) (groups : gmap Z (list streamRecord))
  : option (gmap Z (list streamRecord)) :=
  fold_left
    (fun acc resolution =>
       match acc with
       | None => None
       | Some groups =>
           match groups !! resolution with
           | Some group =>
               match sortAndCap maxPerGroup group with
               | Some group => Some (<[resolution := group]> groups)
               | None => None
               end
           | None => Some groups
           end
       end)
    (rangeKeys groups) (Some groups).

Definition resolutionOrder : list Z := [720; 1080; 2160; 480; 360].

(** The third loop: the groups of [resolutionOrder] that exist, in that
    order. *)
Definition orderedGroups (groups : gmap Z (list streamRecord)) : list streamRecord :=
  fold_left
    (fun result resolution =>
       match groups !! resolution with
       | Some group => result ++ group
       | None => result
       end)
    resolutionOrder [].

(** The fourth loop: every other group, in the order the map yields them. *)
Definition remainingGroups (groups : gmap Z (list streamRecord))
    (result : list streamRecord) : list streamRecord :=
  fold_left
    (fun result resolution =>
       match groups !! resolution with
       | Some group =>
           if existsb (Z.eqb resolution) resolutionOrder then result
           else result ++ group
       | None => result
       end)
    (rangeKeys groups) result.

Definition groupByResolution (records : list streamRecord) (maxPerGroup : Z)
  : option (list streamRecord) :=
  match sortGroups maxPerGroup (groupRecords records) with
  | None => None
  | Some groups => Some (remainingGroups groups (orderedGroups groups))
  end.

(** The choice of [HandleGetStreams] between the two sortings: an empty
    sort method is [quality], every other value but [quality] groups by
    resolution, three records a group. *)
Definition selectRecords (userData : UserData) (records : list streamRecord)
  : option (list streamRecord) :=
  let sortMethod :=
    if String.eqb (SortMethod userData) "" then "quality" else SortMethod userData in
  if String.eqb sortMethod "quality" then sortByQualityScore records
  else groupByResolution records 3.

End Selection.

(** *** Deduplication *)

(** The closure [deduplicateTorrent] returns, with the [sync.Map] it holds
    as the set of hashes stored so far: the verdict and the set afterwards.
    [LoadOrStore] is atomic, so concurrent calls take effect in some
    order; that order is the order of the calls here. *)
Definition deduplicateTorrent (found : gset string) (r : streamRecord) : bool * gset string :=
  let infoHash := prowlarr.InfoHash (Torrent r) in
  if String.eqb infoHash "" then (false, found)
  else if bool_decide (infoHash ∈ found) then (false, found)
  else (true, {[infoHash]} ∪ found).

(** [Pipe.Filter] with [deduplicateTorrent()] over the records in the
    order their calls take effect: the records that pass. *)
Fixpoint dedupFilter (found : gset string) (records : list streamRecord) : list streamRecord :=
  match records with
  | [] => []
  | r :: rest =>
      let '(ok, found') := deduplicateTorrent found r in
      if ok then r :: dedupFilter found' rest else dedupFilter found' rest
  end.

(** *** Enrichment with cached files *)
Section Enrich.

(** [RDClient.GetFiles(infoHashs)]: the answer of the debrid service, a
    map from hash to files or an error. *)
Variable GetFiles : realdebrid.RealDebrid -> list string -> gmap string (list realdebrid.File) + error.

(** The hashes sent: those of the records that have one. *)
Definition infoHashs (records : list streamRecord) : list string :=
  filter (fun h => h <> "") (map (fun r => prowlarr.InfoHash (Torrent r)) records).

(** [enrichWithCachedFiles]: the records returned and the error ([None]
    for [nil]). *)
Definition enrichWithCachedFiles (records : list streamRecord)
  : list streamRecord * option error :=
  match records with
  | [] => (records, None)
  | first :: _ =>
      match RDClient first with
      | None => (records, None)
      | Some client =>
          match GetFiles client (infoHashs records) with
          | inr _ => (records, None)
          | inl filesByHash =>
              (omap (fun r =>
                       match filesByHash !! prowlarr.InfoHash (Torrent r) with
                       | Some files => Some (setFiles files r)
                       | None => None
                       end) records,
               None)
          end
      end
  end.

End Enrich.

(** *** The media file of a record *)

(** [fmt.Sprintf] with the verbs [%d] and [%02d]. *)
Definition fmt_d (n : Z) : string := NilZero.string_of_int (Z.to_int n).

Definition fmt_02d (n : Z) : string :=
  let s := fmt_d n in
  if (String.length s <? 2)%nat then "0" +:+ s else s.

Section Locate.
Context `{GoLib}.

Definition hasMediaExtension (fileName : string) : bool :=
  let fileName := ToLower fileName in
  existsb (fun extension => HasSuffix fileName extension) mediaContainerExtensions.

(** The update of the loops of [findEpisodeMediaFile] and
    [findMovieMediaFile]: the largest file so far, the first of equals. *)
Definition larger (mediaFile : option realdebrid.File) (f : realdebrid.File)
  : option realdebrid.File :=
  match mediaFile with
  | None => Some f
  | Some m =>
      if realdebrid.FileSize m <? realdebrid.FileSize f then Some f else Some m
  end.

Definition findEpisodeMediaFile (files : list realdebrid.File) (pattern : string)
  : option realdebrid.File :=
  fold_left
    (fun mediaFile f =>
       if negb (hasMediaExtension (realdebrid.FileName f))
          || negb (MatchString pattern (realdebrid.FileName f))
       then mediaFile
       else larger mediaFile f)
    files None.

Definition findMovieMediaFile (files : list realdebrid.File) : option realdebrid.File :=
  fold_left
    (fun mediaFile f =>
       if negb (hasMediaExtension (realdebrid.FileName f)) then mediaFile
       else larger mediaFile f)
    files None.

(** The three patterns of a series, from the most to the least specific. *)
Definition seasonEpisodePattern (season episode : Z) : string :=
  "(?i)(\b|_)S?(" +:+ fmt_d season +:+ "|" +:+ fmt_02d season
    +:+ ")[x\.\-]?E?" +:+ fmt_02d episode +:+ "(\b|_)".

Definition separatePattern (season episode : Z) : string :=
  "(?i)\bS?" +:+ fmt_02d season +:+ "\b.+\bE?" +:+ fmt_02d episode +:+ "\b".

Definition episodePattern (episode : Z) : string :=
  "(?i)\bE?(" +:+ fmt_d episode +:+ "|" +:+ fmt_02d episode +:+ ")\b".

(** The file [locateMediaFile] picks from a non-empty file list: [inr]
    for a content type that is neither a movie nor a series. *)
Definition selectMediaFile (r : streamRecord) : option realdebrid.File + error :=
  if String.eqb (ContentType r) ContentTypeMovie then
    inl (findMovieMediaFile (Files r))
  else if String.eqb (ContentType r) ContentTypeSeries then
    match findEpisodeMediaFile (Files r) (seasonEpisodePattern (Season r) (Episode r)) with
    | Some f => inl (Some f)
    | None =>
        match findEpisodeMediaFile (Files r) (separatePattern (Season r) (Episode r)) with
        | Some f => inl (Some f)
        | None => inl (findEpisodeMediaFile (Files r) (episodePattern (Episode r)))
        end
    end
  else inr "invalid content type".

(** [locateMediaFile]: the records emitted and the error. *)
Definition locateMediaFile (r : streamRecord) : list streamRecord * option error :=
  match RDClient r, Files r with
  | None, _ | _, [] =>
      let mediaFile :=
        {| realdebrid.ID := prowlarr.InfoHash (Torrent r);
           realdebrid.FileName := prowlarr.FileName (Torrent r);
           realdebrid.FileSize := prowlarr.Size (Torrent r) |} in
      ([setMediaFile (Some mediaFile) r], None)
  | Some _, _ :: _ =>
      match selectMediaFile r with
      | inr err => ([], Some err)
      | inl None => ([], None)
      | inl (Some mediaFile) =>
          if (maxSizeInBytes <=? realdebrid.FileSize mediaFile)
             || (realdebrid.FileSize mediaFile <? minSizeInBytes)
          then ([], None)
          else ([setMediaFile (Some mediaFile) r], None)
      end
  end.

End Locate.

(** *** Configuration *)

Definition NewUserDataWithDefaults : UserData :=
  {| RDAPIKey := ""; ProwlarrURL := ""; ProwlarrAPIKey := "";
     MinResolution := "720";
     MaxResolution := "2160";
     MinSize := "0.5";
     MaxSize := "25";
     MinSeeders := "10";
     ExcludedQualities := "cam,camrip,telesync,tsrip,hdcam,tc,ppvrip,r5,vhsscr";
     SearchTimeout := "60";
     SortMethod := "quality" |}.

(** [if u.Field == empty { u.Field = defaults.Field }]. *)
Definition orDefault (value fallback : string) : string :=
  if String.eqb value "" then fallback else value.

Definition ApplyDefaults (u : UserData) : UserData :=
  let defaults := NewUserDataWithDefaults in
  {| RDAPIKey := RDAPIKey u;
     ProwlarrURL := ProwlarrURL u;
     ProwlarrAPIKey := ProwlarrAPIKey u;
     MinResolution := orDefault (MinResolution u) (MinResolution defaults);
     MaxResolution := orDefault (MaxResolution u) (MaxResolution defaults);
     MinSize := orDefault (MinSize u) (MinSize defaults);
     MaxSize := orDefault (MaxSize u) (MaxSize defaults);
     MinSeeders := orDefault (MinSeeders u) (MinSeeders defaults);
     ExcludedQualities := orDefault (ExcludedQualities u) (ExcludedQualities defaults);
     SearchTimeout := orDefault (SearchTimeout u) (SearchTimeout defaults);
     SortMethod := orDefault (SortMethod u) (SortMethod defaults) |}.

(** What [Addon] holds of the environment. *)
Record Addon := {
  prowlarrURL : string;
  prowlarrAPIKey : string;
  realDebridAPIKey : string;
  prowlarrClient : bool;     (* add.prowlarrClient != nil *)
  realDebridClient : bool;   (* add.realDebridClient != nil *)
}.

(** The [userData] segment of the route: absent, not decodable (URL
    escape or JSON), or decoded into a [UserData] whose omitted fields are
    empty. *)
Inductive userDataParam :=
| NoUserData
| BadUserData
| Decoded (u : UserData).

Definition nonEmpty (s : string) : bool := negb (String.eqb s "").

Definition parseUserData (add : Addon) (param : userDataParam) : UserData + error :=
  match param with
  | NoUserData => inr "configuration is required"
  | BadUserData => inr "invalid userData"
  | Decoded u =>
      let userData := ApplyDefaults u in
      let finalProwlarrURL :=
        if String.eqb (ProwlarrURL userData) "" && nonEmpty (prowlarrURL add)
        then prowlarrURL add else ProwlarrURL userData in
      let finalProwlarrAPIKey :=
        if String.eqb (ProwlarrAPIKey userData) "" && nonEmpty (prowlarrAPIKey add)
        then prowlarrAPIKey add else ProwlarrAPIKey userData in
      let finalRealDebridAPIKey :=
        if String.eqb (RDAPIKey userData) "" && nonEmpty (realDebridAPIKey add)
        then realDebridAPIKey add else RDAPIKey userData in
      if ((nonEmpty (ProwlarrURL userData) && String.eqb (ProwlarrAPIKey userData) "")
          || (String.eqb (ProwlarrURL userData) "" && nonEmpty (ProwlarrAPIKey userData)))
         && negb (nonEmpty (ProwlarrURL userData) && nonEmpty (prowlarrAPIKey add))
         && negb (nonEmpty (ProwlarrAPIKey userData) && nonEmpty (prowlarrURL add))
      then inr "prowlarr URL and API key must be provided together"
      else
        let prowlarrConfigured :=
          nonEmpty finalProwlarrURL && nonEmpty finalProwlarrAPIKey in
        let realDebridConfigured := nonEmpty finalRealDebridAPIKey in
        if negb prowlarrConfigured && negb realDebridConfigured
        then inr "prowlarr or real debrid configuration is required"
        else inl userData
  end.

(** The configuration [HandleGetStreams] runs with; [inr] when it answers
    with status 400. *)
Definition streamsUserData (add : Addon) (param : userDataParam) : UserData + error :=
  match param with
  | NoUserData =>
      if prowlarrClient add || realDebridClient add
      then inl NewUserDataWithDefaults
      else inr "Configuration required. Please configure the addon."
  | _ =>
      match parseUserData add param with
      | inl userData => inl userData
      | inr _ => inr "Invalid configuration data."
      end
  end.

(** [timeoutSeconds] of [HandleGetStreams]. *)
Definition timeoutSeconds (userData : UserData) : Z :=
  let '(timeoutSeconds, ok) := strconv.Atoi (SearchTimeout userData) in
  if negb ok || (timeoutSeconds <? 10) || (120 <? timeoutSeconds) then 45
  else timeoutSeconds.

(** The deadline of the request, in seconds, when it runs the pipeline. *)
Definition streamsTimeout (add : Addon) (param : userDataParam) : option Z :=
  match streamsUserData add param with
  | inl userData => Some (timeoutSeconds userData)
  | inr _ => None
  end.

(** *** The exclusion filter *)
Section Exclude.
Context `{GoLib}.

Definition nonWordCharacter : string := "[^a-zA-Z0-9]+".

Definition checkTitleSimilarity (left right : string) : Z :=
  let left := ReplaceAllString nonWordCharacter left "" in
  let right := ReplaceAllString nonWordCharacter right "" in
  Distance false 2 3 3 left right.

(** [uint(n)] for an [int]. *)
Definition to_uint (n : Z) : Z := n mod 2 ^ 64.

(** [minSeeders] as [excludeTorrents] reads and defaults it. *)
Definition minSeedersOf (userData : UserData) : Z :=
  let minSeeders := fst (strconv.Atoi (MinSeeders userData)) in
  if minSeeders =? 0 then 1 else minSeeders.

Definition seedersOK (r : streamRecord) : bool :=
  to_uint (minSeedersOf (userData r)) <=? prowlarr.Seeders (Torrent r).

Definition excludedQualitiesOf (userData : UserData) : list string :=
  if nonEmpty (ExcludedQualities userData)
  then map TrimSpace (Split (ToLower (ExcludedQualities userData)) ",")
  else avoidQualities.

Definition qualityOK (r : streamRecord) : bool :=
  negb (existsb (String.eqb (titleparser.Quality (TitleInfo r)))
          (excludedQualitiesOf (userData r)))
  && negb (titleparser.ThreeD (TitleInfo r)).

(** [sizeGB * 1024 * 1024 * 1024] converted to [uint64]. *)
Definition gbToBytes (sizeGB : float64) : Z :=
  float64_to_uint64 (mul (mul (mul sizeGB (of_Z 1024)) (of_Z 1024)) (of_Z 1024)).

Definition sizeOK (r : streamRecord) : bool :=
  let minSizeGB := ParseFloat (MinSize (userData r)) in
  let maxSizeGB := ParseFloat (MaxSize (userData r)) in
  let minSizeGB := if SFeqb minSizeGB (of_Z 0) then dec 1 1 else minSizeGB in
  let maxSizeGB := if SFeqb maxSizeGB (of_Z 0) then of_Z 30 else maxSizeGB in
  (gbToBytes minSizeGB <=? prowlarr.Size (Torrent r))
  && (prowlarr.Size (Torrent r) <=? gbToBytes maxSizeGB).

Definition resolutionOK (r : streamRecord) : bool :=
  let minRes := fst (strconv.Atoi (MinResolution (userData r))) in
  let maxRes := fst (strconv.Atoi (MaxResolution (userData r))) in
  let resolution := titleparser.Resolution (TitleInfo r) in
  negb ((0 <? minRes) && (0 <? resolution) && (resolution <? minRes))
  && negb ((0 <? maxRes) && (0 <? resolution) && (maxRes <? resolution)).

Definition imdbOK (r : streamRecord) : bool :=
  (prowlarr.Imdb (Torrent r) =? 0)
  || (prowlarr.Imdb (Torrent r) =? model.IMDBID (MetaInfo r)).

Definition yearOK (r : streamRecord) : bool :=
  let year := titleparser.Year (TitleInfo r) in
  (year =? 0)
  || ((model.FromYear (MetaInfo r) <=? year) && (year <=? model.ToYear (MetaInfo r))).

Definition seasonOK (r : streamRecord) : bool :=
  negb (String.eqb (ContentType r) ContentTypeSeries)
  || (titleparser.FromSeason (TitleInfo r) =? 0)
  || ((titleparser.FromSeason (TitleInfo r) <=? Season r)
      && (Season r <=? titleparser.ToSeason (TitleInfo r))).

Definition episodeOK (r : streamRecord) : bool :=
  negb (String.eqb (ContentType r) ContentTypeSeries)
  || (titleparser.Episode (TitleInfo r) =? 0)
  || (titleparser.Episode (TitleInfo r) =? Episode r).

Definition excludeTorrents (r : streamRecord) : bool :=
  let torrentOK :=
    qualityOK r && sizeOK r && resolutionOK r && imdbOK r && yearOK r
    && seasonOK r && episodeOK r && seedersOK r in
  if torrentOK && (prowlarr.Imdb (Torrent r) =? 0) then
    let diff :=
      checkTitleSimilarity (model.Name (MetaInfo r)) (titleparser.Title (TitleInfo r)) in
    torrentOK && (diff <? maxTitleDistance)
  else torrentOK.

End Exclude.

End addon.

(** ** Package [pipe]: the end of a run

    [SinkWithTimeout] starts the source, the stages and the sink as
    goroutines and then waits.  What those goroutines do to the state the
    waiting goroutine reads afterwards is a sequence of events, in the
    order they take effect. *)
Module pipe.
Section Run.
Variable R : Type.

Definition error : Type := string.

(** [stopped] is closed or not; [errCh] has room for one error. *)
Record Pipe := { stopped : bool; errCh : option error }.

(** [New]. *)
Definition New : Pipe := {| stopped := false; errCh := None |}.

Definition Stop (p : Pipe) : Pipe := {| stopped := true; errCh := errCh p |}.

(** [reportError]: a [select] over [<-p.stopped], [p.errCh <- err] and
    [default].  When [stopped] is closed and [errCh] is empty both cases
    are ready and the runtime picks one: [sendWins] is its pick. *)
Definition reportError (sendWins : bool) (err : error) (p : Pipe) : Pipe :=
  match stopped p, errCh p with
  | true, None =>
      if sendWins then Stop {| stopped := stopped p; errCh := Some err |} else p
  | true, Some _ => p
  | false, None => Stop {| stopped := stopped p; errCh := Some err |}
  | false, Some _ => p
  end.

(** [sendWins] is the pick of the [select] of [reportError], should the
    event lead to one. *)
Inductive event :=
| Delivered (sendWins : bool) (r : R)         (* the sink goroutine receives [r] *)
| Reported (sendWins : bool) (err : error)    (* a stage or the source calls [reportError] *)
| Drained.                                    (* the sink's input is closed: [p.Stop()] *)

(** The pipe and what the sink function has seen. *)
Record state := { pipeOf : Pipe; seen : list R }.

Section Sink.
(** The sink function: what it keeps of a record and the error it returns. *)
Variable sink : list R -> R -> list R * option error.

Definition step (st : state) (ev : event) : state :=
  match ev with
  | Delivered sendWins r =>
      let '(seen', err) := sink (seen st) r in
      match err with
      | Some e => {| pipeOf := reportError sendWins e (pipeOf st); seen := seen' |}
      | None => {| pipeOf := pipeOf st; seen := seen' |}
      end
  | Reported sendWins err =>
      {| pipeOf := reportError sendWins err (pipeOf st); seen := seen st |}
  | Drained => {| pipeOf := Stop (pipeOf st); seen := seen st |}
  end.

(** How the waiting [select] of [SinkWithTimeout] ends. *)
Inductive wake := TimerFired | StoppedSeen.

(** [SinkWithTimeout] after the events [evs] and the wake-up [w]: the
    error returned and the state left.  [None] when [w] is impossible
    ([stopped] is not closed). *)
Definition SinkWithTimeout (evs : list event) (w : wake) : option (option error * state) :=
  let st := fold_left step evs {| pipeOf := New; seen := [] |} in
  match w with
  | TimerFired =>
      let st := {| pipeOf := Stop (pipeOf st); seen := seen st |} in
      Some (errCh (pipeOf st), st)
  | StoppedSeen =>
      if stopped (pipeOf st) then Some (errCh (pipeOf st), st) else None
  end.

End Sink.

(** The sink function of [sinkResultsWithTimeout]:
    [records = append(records, r); return nil]. *)
Definition appendSink (records : list R) (r : R) : list R * option error :=
  (records ++ [r], None).

(** [sinkResultsWithTimeout]: the records returned, with the error that
    [SinkWithTimeout] returned and that is only logged. *)
Definition sinkResultsWithTimeout (evs : list event) (w : wake)
  : option (list R * option error) :=
  match SinkWithTimeout appendSink evs w with
  | Some (err, st) => Some (seen st, err)
  | None => None
  end.

(** The records the events deliver, in order. *)
Definition delivered (evs : list event) : list R :=
  omap (fun ev => match ev with Delivered _ r => Some r | _ => None end) evs.

Definition isReport (ev : event) : bool :=
  match ev with Reported _ _ => true | _ => false end.

End Run.
End pipe.

(** ** The score as the specification writes it

    [resolutionScore = min(100, resolution / 21.6)],
    [sourceScore = qualityTierRank(tier) * 10],
    [sizeScore = bandedScore(resolution, sizeGB)], and the two weighted
    sums, evaluated in [float64] from left to right. *)
Module Spec.
Import Float64.

(** [min(a, b)]. *)
Definition fmin (a b : float64) : float64 := if ltb b a then b else a.

Definition resolutionScore (resolution : Z) : float64 :=
  fmin (of_Z 100) (div (of_Z resolution) (dec 216 1)).

Definition sourceScore (rank : Z) : float64 := mul (of_Z rank) (of_Z 10).

Inductive resolutionClass := UHD | HD | SD | Low.

(** 4K from 2160, HD from 1080, SD from 720, else low. *)
Definition classOf (resolution : Z) : resolutionClass :=
  if 2160 <=? resolution then UHD
  else if 1080 <=? resolution then HD
  else if 720 <=? resolution then SD
  else Low.

(** The optimal, acceptable and tolerable ranges of a class, in GB, each
    with its score. *)
Definition bands (c : resolutionClass) : list (float64 * float64 * float64) :=
  match c with
  | UHD => [(of_Z 15, of_Z 30, of_Z 100); (of_Z 10, of_Z 40, of_Z 80); (of_Z 5, of_Z 50, of_Z 60)]
  | HD => [(of_Z 4, of_Z 15, of_Z 100); (of_Z 2, of_Z 20, of_Z 80); (of_Z 1, of_Z 25, of_Z 60)]
  | SD => [(of_Z 1, of_Z 8, of_Z 100); (dec 5 1, of_Z 12, of_Z 80); (dec 3 1, of_Z 15, of_Z 60)]
  | Low => [(dec 5 1, of_Z 4, of_Z 100); (dec 2 1, of_Z 6, of_Z 80); (dec 1 1, of_Z 8, of_Z 60)]
  end.

(** The score of the first range that holds [sizeGB]; 20 outside all. *)
Fixpoint firstBand (bs : list (float64 * float64 * float64)) (sizeGB : float64) : float64 :=
  match bs with
  | [] => of_Z 20
  | (lo, hi, score) :: rest =>
      if leb lo sizeGB && leb sizeGB hi then score else firstBand rest sizeGB
  end.

Definition bandedScore (resolution : Z) (sizeGB : float64) : float64 :=
  firstBand (bands (classOf resolution)) sizeGB.

Definition sizeGBOf (fileSize : Z) : float64 :=
  div (of_Z fileSize) (of_Z (2 ^ 30)).

Definition score (cachedFilesAvailable : bool) (seederCount resolution rank fileSize : Z)
  : float64 :=
  let resolutionScore := resolutionScore resolution in
  let sourceScore := sourceScore rank in
  let sizeScore := bandedScore resolution (sizeGBOf fileSize) in
  if cachedFilesAvailable then
    add (add (mul (dec 50 2) resolutionScore) (mul (dec 35 2) sourceScore))
        (mul (dec 15 2) sizeScore)
  else
    let seederScore := fmin (of_Z 100) (of_Z seederCount) in
    add (add (add (mul (dec 40 2) seederScore) (mul (dec 30 2) resolutionScore))
             (mul (dec 20 2) sourceScore))
        (mul (dec 10 2) sizeScore).

(** The tiers of the rank table. *)
Inductive qualityTier :=
| Remux | WebDL | BluRay | HDRip | DVDRip | DVD | TVRip | Unknown | CamFamily.

(** Top-tier remux = 10, web-dl/webrip = 9, bluray = 8, hd-rip = 7,
    dvd-rip = 6, dvd = 5, tv-rip = 4, unknown = 3, cam-family = 1. *)
Definition qualityTierRank (tier : qualityTier) : Z :=
  match tier with
  | Remux => 10
  | WebDL => 9
  | BluRay => 8
  | HDRip => 7
  | DVDRip => 6
  | DVD => 5
  | TVRip => 4
  | Unknown => 3
  | CamFamily => 1
  end.

Definition oneOf (quality : string) (spellings : list string) : bool :=
  existsb (String.eqb quality) spellings.

(** The tier of a quality string of the title parser.  A tier has the
    spellings the patterns of the parser accept for it, lower-cased as
    [parseQuality] stores them: [HD-?Rip] gives [hdrip] and [hd-rip],
    [WEB-?DL] gives [webdl] and [web-dl], [WEB-?Rip] gives [webrip] and
    [web-rip], [(?:DL|WEB|BD|BR)REMUX] the four remuxes,
    [(?:HD-?)?TVRip] gives [tvrip], [hdtvrip] and [hd-tvrip]. *)
Definition tierOf (quality : string) : qualityTier :=
  if oneOf quality ["bdremux"; "brremux"; "dlremux"; "webremux"] then Remux
  else if oneOf quality ["web-dl"; "webdl"; "webrip"; "web-rip"] then WebDL
  else if oneOf quality ["bluray"] then BluRay
  else if oneOf quality ["hdrip"; "hd-rip"] then HDRip
  else if oneOf quality ["dvdrip"] then DVDRip
  else if oneOf quality ["dvd"] then DVD
  else if oneOf quality ["tvrip"; "hdtvrip"; "hd-tvrip"] then TVRip
  else if oneOf quality ["cam"; "camrip"; "telesync"; "tsrip"] then CamFamily
  else Unknown.

(** Cached files are present: the record carries a file list. *)
Definition cachedFilesAvailable (files : list realdebrid.File) : bool :=
  match files with
  | [] => false
  | _ :: _ => true
  end.

End Spec.

(** ** Records that differ in one field

    What a stage leaves of a record when it sets its file list or its
    media file: every other field. *)
Module Frame.
Import addon.

Definition sameRequest (r out : streamRecord) : Prop :=
  ContentType out = ContentType r /\ ID out = ID r
  /\ Season out = Season r /\ Episode out = Episode r
  /\ BaseURL out = BaseURL r /\ RemoteAddress out = RemoteAddress r
  /\ MetaInfo out = MetaInfo r /\ SearchBySeason out = SearchBySeason r
  /\ RDClient out = RDClient r /\ userData out = userData r.

Definition sameTorrent (r out : streamRecord) : Prop :=
  TitleInfo out = TitleInfo r /\ Indexer out = Indexer r /\ Torrent out = Torrent r.

(** [out] is [r] but for its file list. *)
Definition sameButFiles (r out : streamRecord) : Prop :=
  sameRequest r out /\ sameTorrent r out /\ MediaFile out = MediaFile r.

(** [out] is [r] but for its media file. *)
Definition sameButMediaFile (r out : streamRecord) : Prop :=
  sameRequest r out /\ sameTorrent r out /\ Files out = Files r.

End Frame.

(** ** A small library instance

    An instance of the library parameters to run the embedding on
    examples: the insertion sort [slices.SortFunc] uses on short slices,
    the keys of a map in ascending order, [strings.ToLower] on ASCII
    letters, and the answers of [regexp] on the two titles
    [Movie HD-Rip] and [Film FRENCH].  The functions the examples do not
    reach are the simplest of their type. *)
Module Example.
Import Float64.

Section InsertionSort.
Context {A : Type}.
Variable cmp : A -> A -> Z.

(** The inner loop of the insertion sort: [x] moves left while
    [cmp(x, previous) < 0].  The sorted prefix is held from right to left. *)
Fixpoint insertLeft (x : A) (prefix : list A) : list A :=
  match prefix with
  | [] => [x]
  | previous :: rest =>
      if cmp x previous <? 0 then previous :: insertLeft x rest
      else x :: prefix
  end.

Definition insertionSort (data : list A) : list A :=
  rev (fold_left (fun prefix x => insertLeft x prefix) data []).

(** The order of the prefix, held from right to left: no element is
    before one that stands to its left. *)
Definition rightToLeft (l : list A) : Prop :=
  StronglySorted (fun a b => ~ cmp a b < 0) l.

End InsertionSort.

Definition lowerByte (c : ascii) : ascii :=
  let n := N_of_ascii c in
  if (65 <=? n)%N && (n <=? 90)%N then ascii_of_N (n + 32) else c.

Fixpoint asciiLower (s : string) : string :=
  match s with
  | EmptyString => EmptyString
  | String c s' => String (lowerByte c) (asciiLower s')
  end.

Definition hdRipTitle : string := "Movie HD-Rip".
Definition frenchTitle : string := "Film FRENCH".

(** On [hdRipTitle] only the pattern of HD-Rip finds a match among the
    patterns the parser reaches, at bytes 6 to 12; on [frenchTitle] only
    the language pattern, at bytes 5 to 11. *)
Definition recordedIndex (pattern s : string) : list (Z * Z) :=
  if String.eqb s hdRipTitle && String.eqb pattern "(?i)\bHD-?Rip\b"
  then [(6, 12)]
  else if String.eqb s frenchTitle && String.eqb pattern "\bFR(?:ENCH)?\b"
  then [(5, 11)]
  else [].

(** [uint64(f)] for a non-negative number in range: the integer part. *)
Definition truncate (f : float64) : Z :=
  match f with
  | S754_finite false m e => Z.shiftl (Z.pos m) e
  | _ => 0
  end.

(** [strconv.ParseFloat] on the sizes of the default configuration. *)
Definition recordedFloat (s : string) : float64 :=
  if String.eqb s "0.5" then dec 5 1
  else if String.eqb s "25" then of_Z 25
  else of_Z 0.

#[local] Instance lib : GoLib := {|
  FindAllStringIndex := recordedIndex;
  FindAllStringSubmatchIndex := fun _ _ => [];
  MatchString := fun _ _ => false;
  ReplaceAllString := fun _ s _ => s;
  ToLower := asciiLower;
  TrimSpace := fun s => s;
  Split := fun s _ => [s];
  ParseFloat := recordedFloat;
  float64_to_uint64 := truncate;
  Distance := fun _ _ _ _ _ _ => 0;
  SortFunc := fun A cmp x => insertionSort cmp x;
  rangeKeys := fun V m => (map_to_list m).*1;
|}.


(** Records for examples: a torrent of the given resolution, quality,
    seeders, size and hash, with its media file when it has one. *)
Definition titleInfo (resolution : Z) (quality : string) : titleparser.MetaInfo :=
  titleparser.setQuality quality (titleparser.setResolution resolution titleparser.zero).

Definition torrent (seeders size : Z) (infoHash : string) : prowlarr.Torrent :=
  {| prowlarr.Title := ""; prowlarr.FileName := ""; prowlarr.Guid := "";
     prowlarr.Seeders := seeders; prowlarr.Size := size; prowlarr.Imdb := 0;
     prowlarr.InfoHash := infoHash |}.

Definition record (resolution : Z) (quality : string) (seeders size : Z)
    (infoHash : string) (client : option realdebrid.RealDebrid)
    (files : list realdebrid.File) (mediaFile : option realdebrid.File)
    (config : addon.UserData) : addon.streamRecord :=
  {| addon.ContentType := addon.ContentTypeMovie; addon.ID := "";
     addon.Season := 0; addon.Episode := 0; addon.BaseURL := "";
     addon.RemoteAddress := "";
     addon.MetaInfo := {| model.Name := ""; model.IMDBID := 0;
                          model.FromYear := 0; model.ToYear := 0 |};
     addon.TitleInfo := titleInfo resolution quality;
     addon.Indexer := {| prowlarr.Name := ""; prowlarr.Enable := true;
                         prowlarr.LimitDefaults := 0 |};
     addon.Torrent := torrent seeders size infoHash;
     addon.Files := files; addon.MediaFile := mediaFile;
     addon.SearchBySeason := false; addon.RDClient := client;
     addon.userData := config |}.

Definition file (size : Z) : realdebrid.File :=
  {| realdebrid.ID := "1"; realdebrid.FileName := "video.mkv";
     realdebrid.FileSize := size |}.

Definition client : realdebrid.RealDebrid :=
  {| realdebrid.apiToken := "token"; realdebrid.ipAddress := "" |}.

Definition GB : Z := 2 ^ 30.

(** 1080p web-dl, 150 seeders, 8 GB, no debrid. *)
Definition webdl1080 : addon.streamRecord :=
  record 1080 "web-dl" 150 (8 * GB) "aa" None [] (Some (file (8 * GB)))
    addon.NewUserDataWithDefaults.

(** 2160p bluray, 25 GB, cached on the debrid service. *)
Definition bluray2160 : addon.streamRecord :=
  record 2160 "bluray" 0 (25 * GB) "bb" (Some client) [file (25 * GB)]
    (Some (file (25 * GB))) addon.NewUserDataWithDefaults.

(** An addon with both services set in the environment. *)
Definition envAddon : addon.Addon :=
  {| addon.prowlarrURL := "http://prowlarr:9696";
     addon.prowlarrAPIKey := "key";
     addon.realDebridAPIKey := "token";
     addon.prowlarrClient := true;
     addon.realDebridClient := true |}.

(** The configuration of a caller who sets nothing: every field omitted. *)
Definition unsetConfig : addon.UserData :=
  {| addon.RDAPIKey := ""; addon.ProwlarrURL := ""; addon.ProwlarrAPIKey := "";
     addon.MinResolution := ""; addon.MaxResolution := ""; addon.MinSize := "";
     addon.MaxSize := ""; addon.MinSeeders := ""; addon.ExcludedQualities := "";
     addon.SearchTimeout := ""; addon.SortMethod := "" |}.

(** A caller who sets only the timeout. *)
Definition timeoutConfig (searchTimeout : string) : addon.UserData :=
  {| addon.RDAPIKey := ""; addon.ProwlarrURL := ""; addon.ProwlarrAPIKey := "";
     addon.MinResolution := ""; addon.MaxResolution := ""; addon.MinSize := "";
     addon.MaxSize := ""; addon.MinSeeders := ""; addon.ExcludedQualities := "";
     addon.SearchTimeout := searchTimeout; addon.SortMethod := "" |}.

(** A caller who sets only the minimum of seeders. *)
Definition seedersConfig (minSeeders : string) : addon.UserData :=
  {| addon.RDAPIKey := ""; addon.ProwlarrURL := ""; addon.ProwlarrAPIKey := "";
     addon.MinResolution := ""; addon.MaxResolution := ""; addon.MinSize := "";
     addon.MaxSize := ""; addon.MinSeeders := minSeeders;
     addon.ExcludedQualities := ""; addon.SearchTimeout := "";
     addon.SortMethod := "" |}.

(** A 1080p web-dl of 2 GB with the given seeders, under the configuration
    of a caller who sets nothing. *)
Definition seeded (seeders : Z) : addon.streamRecord :=
  record 1080 "web-dl" seeders (2 * GB) "cc" None [] None
    (addon.ApplyDefaults unsetConfig).

(** A torrent of 50 GB without a file list. *)
Definition oversized : addon.streamRecord :=
  record 2160 "bluray" 20 (50 * GB) "dd" None [] None
    addon.NewUserDataWithDefaults.

(** A cached movie whose only file has the given size. *)
Definition cachedMovie (size : Z) : addon.streamRecord :=
  record 1080 "bluray" 20 size "ee" (Some client) [file size] None
    addon.NewUserDataWithDefaults.

(** Six records for diversity selection: four at 720, one at 1080, one
    at 2160, none cached. *)
Definition plain (resolution : Z) (quality : string) (seeders sizeGB : Z)
    (infoHash : string) : addon.streamRecord :=
  record resolution quality seeders (sizeGB * GB) infoHash None []
    (Some (file (sizeGB * GB))) addon.NewUserDataWithDefaults.

Definition r720a : addon.streamRecord := plain 720 "web-dl" 50 2 "a1".
Definition r720b : addon.streamRecord := plain 720 "bluray" 80 3 "b2".
Definition r720c : addon.streamRecord := plain 720 "hdrip" 10 1 "c3".
Definition r720d : addon.streamRecord := plain 720 "dvd" 200 4 "d4".
Definition r1080 : addon.streamRecord := plain 1080 "web-dl" 30 8 "e5".
Definition r2160 : addon.streamRecord := plain 2160 "bluray" 30 25 "f6".

Definition sixRecords : list addon.streamRecord :=
  [r720a; r1080; r720b; r720c; r2160; r720d].

(** A second record with the hash of [r720a], and one without hash. *)
Definition sameHash : addon.streamRecord := plain 1080 "bluray" 5 9 "a1".
Definition noHash : addon.streamRecord := plain 720 "dvd" 1 1 "".

Definition withDuplicates : list addon.streamRecord :=
  [r720a; noHash; sameHash; r1080].

(** A batch with a debrid client, and two answers of the service: it has
    the files of the hash [bb] only, or it cannot be reached. *)
Definition cachedBatch : list addon.streamRecord :=
  [cachedMovie GB; bluray2160].

Definition answers (c : realdebrid.RealDebrid) (infoHashs : list string)
  : gmap string (list realdebrid.File) + addon.error :=
  inl {[ "bb" := [file (25 * GB)] ]}.

Definition unreachable (c : realdebrid.RealDebrid) (infoHashs : list string)
  : gmap string (list realdebrid.File) + addon.error :=
  inr "connection refused".

(** A 1080p record of 8 GB with 150 seeders, not cached, whose quality is
    the one the parser reads in [hdRipTitle]. *)
Definition hdrip1080 : addon.streamRecord :=
  record 1080 (titleparser.Quality (titleparser.Parse hdRipTitle)) 150 (8 * GB)
    "ab" None [] (Some (file (8 * GB))) addon.NewUserDataWithDefaults.

(** One record for each resolution of the fixed order and one at 576, not
    in that order. *)
Definition r480 : addon.streamRecord := plain 480 "dvdrip" 40 1 "g7".
Definition r360 : addon.streamRecord := plain 360 "dvd" 60 1 "h8".
Definition r576 : addon.streamRecord := plain 576 "dvdrip" 90 1 "i9".

Definition everyResolution : list addon.streamRecord :=
  [r576; r360; r2160; r480; r1080; r720a].

(** Records as they reach the lookup: a debrid client and no file list. *)
Definition pending (infoHash : string) : addon.streamRecord :=
  record 2160 "bluray" 20 (25 * GB) infoHash (Some client) [] None
    addon.NewUserDataWithDefaults.

Definition pendingBatch : list addon.streamRecord :=
  [pending "ee"; pending "bb"].

(** An addon with the search service alone set in the environment, and a
    caller who sets only the largest size, in GB. *)
Definition searchOnlyAddon : addon.Addon :=
  {| addon.prowlarrURL := "http://prowlarr:9696";
     addon.prowlarrAPIKey := "key";
     addon.realDebridAPIKey := "";
     addon.prowlarrClient := true;
     addon.realDebridClient := false |}.

Definition maxSizeConfig (maxSize : string) : addon.UserData :=
  {| addon.RDAPIKey := ""; addon.ProwlarrURL := ""; addon.ProwlarrAPIKey := "";
     addon.MinResolution := ""; addon.MaxResolution := ""; addon.MinSize := "";
     addon.MaxSize := maxSize; addon.MinSeeders := "";
     addon.ExcludedQualities := ""; addon.SearchTimeout := "";
     addon.SortMethod := "" |}.

(** [strconv.ParseFloat] on the sizes of that caller. *)
Definition callerFloat (s : string) : float64 :=
  if String.eqb s "100" then of_Z 100 else recordedFloat s.

(** [strings.Split] with a separator of one byte: the pieces between its
    occurrences. *)
Fixpoint splitByte (sep : ascii) (piece s : string) : list string :=
  match s with
  | EmptyString => [piece]
  | String c s' =>
      if Ascii.eqb c sep then piece :: splitByte sep "" s'
      else splitByte sep (piece +:+ String c "") s'
  end.

(** The library of the first instance, with these two functions. *)
Definition callerLib : GoLib := {|
  FindAllStringIndex := recordedIndex;
  FindAllStringSubmatchIndex := fun _ _ => [];
  MatchString := fun _ _ => false;
  ReplaceAllString := fun _ s _ => s;
  ToLower := asciiLower;
  TrimSpace := fun s => s;
  Split := fun s sep =>
    match sep with
    | String c EmptyString => splitByte c "" s
    | _ => [s]
    end;
  ParseFloat := callerFloat;
  float64_to_uint64 := truncate;
  Distance := fun _ _ _ _ _ _ => 0;
  SortFunc := fun A cmp x => insertionSort cmp x;
  rangeKeys := fun V m => (map_to_list m).*1;
|}.

(** A torrent of 50 GB found for that caller: no debrid client, no file
    list. *)
Definition large : addon.streamRecord :=
  record 2160 "bluray" 20 (50 * GB) "dd" None [] None
    (addon.ApplyDefaults (maxSizeConfig "100")).

End Example.

(** ** Functions of Go's [strings], on the bytes of a string *)
Module gostrings.

(** [strings.HasPrefix(s, prefix)]. *)
Definition HasPrefix (s prefix : string) : bool := String.prefix prefix s.

(** [strings.TrimPrefix(s, prefix)]. *)
Definition TrimPrefix (s prefix : string) : string :=
  if HasPrefix s prefix
  then substring (String.length prefix) (String.length s - String.length prefix) s
  else s.

(** [strings.TrimSuffix(s, suffix)]. *)
Definition TrimSuffix (s suffix : string) : string :=
  if HasSuffix s suffix
  then substring 0 (String.length s - String.length suffix) s
  else s.

(** The scan of [strings.Split(s, sep)] for a separator that is not
    empty: [cur] is the piece read so far, [skip] the bytes of a separator
    still to pass.  Separators are found from the left and do not overlap. *)
Fixpoint splitFrom (sep : string) (skip : nat) (cur : string) (s : string) : list string :=
  match s with
  | EmptyString => [cur]
  | String c s' =>
      match skip with
      | S k => splitFrom sep k cur s'
      | O =>
          if String.prefix sep s
          then cur :: splitFrom sep (String.length sep - 1) "" s'
          else splitFrom sep 0 (cur +:+ String c "") s'
      end
  end.

Definition Split (s sep : string) : list string := splitFrom sep 0 "" s.

End gostrings.

(** ** Package [cinemeta] *)
Module cinemeta.

Definition error : Type := string.

(** The [meta] object of an answer of Cinemeta. *)
Record MetaInfo := {
  Name : string;
  Year : string;
  IMDBID : string;
}.

(** The separator of the years of a series: an en dash, three bytes in
    UTF-8. *)
Definition enDash : string :=
  String (ascii_of_nat 226) (String (ascii_of_nat 128) (String (ascii_of_nat 147) "")).

Section Client.

(** The request [c.client.R().SetResult(&MovieInfoResponse{}).Get(path)]:
    the [meta] decoded from the answer (its fields are empty when the
    answer holds none), or the error of the transport. *)
Variable Get : string -> MetaInfo + error.

Definition GetMovieById (id : string) : model.MetaInfo + error :=
  match Get ("/meta/movie/" +:+ id +:+ ".json") with
  | inr err => inr err
  | inl meta =>
      let year := fst (strconv.Atoi (Year meta)) in
      let imdbID := fst (strconv.Atoi (gostrings.TrimPrefix (IMDBID meta) "tt")) in
      inl {| model.Name := Name meta;
             model.IMDBID := addon.to_uint imdbID;
             model.FromYear := year;
             model.ToYear := year |}
  end.

(** The years of a series: [fromYear] and [toYear] after the split. *)
Definition seriesYears (tokens : list string) : Z * Z :=
  match tokens with
  | first :: second :: _ => (fst (strconv.Atoi first), fst (strconv.Atoi second))
  | [first] => (fst (strconv.Atoi first), fst (strconv.Atoi first))
  | [] => (0, 0)
  end.

Definition GetSeriesById (id : string) : model.MetaInfo + error :=
  match Get ("/meta/series/" +:+ id +:+ ".json") with
  | inr err => inr err
  | inl meta =>
      let tokens := gostrings.Split (Year meta) enDash in
      let '(fromYear, toYear) := seriesYears tokens in
      let imdbID := fst (strconv.Atoi (gostrings.TrimPrefix (IMDBID meta) "tt")) in
      inl {| model.Name := Name meta;
             model.IMDBID := addon.to_uint imdbID;
             model.FromYear := fromYear;
             model.ToYear := toYear |}
  end.

End Client.
End cinemeta.

(** ** Package [realdebrid]: the client *)
Module debrid.

(** The errors of the package: its three sentinels, the error
    [getDownload] makes for a link that is missing, and the errors of the
    transport and of the service, which are never one of the sentinels. *)
Inductive error :=
| ErrNoTorrentFound
| ErrNoFileFound
| ErrTorrentNotReady
| ErrNotSupported
| Remote (message : string).

Module TorrentFile.
Record TorrentFile := {
  ID : Z;         (* int *)
  Path : string;
  Selected : Z;   (* int *)
  Bytes : Z;      (* int *)
}.
End TorrentFile.

Record Torrent := {
  ID : string;
  Hash : string;
  Status : string;
  Progress : Float64.float64;
  FileName : string;
  OrgFileName : string;
  Files : list TorrentFile.TorrentFile;
  Links : list string;
}.

(** *** The files of the cached torrents *)
Section Files.

(** The pairs of a map in the order a [range] loop visits them. *)
Variable rangeMap : forall V : Type, gmap string V -> list (string * V).

(** The answer of the service, decoded: for each hash and each hoster the
    variants, each a map from file id to file; a file is [None] where the
    answer holds [null]. *)
Definition availability : Type :=
  gmap string (gmap string (list (gmap string (option realdebrid.File)))).

(** The state of the loops: [files] and, for the hash at hand, [found]. *)
Definition collected : Type := gmap string (list realdebrid.File) * gset string.

(** The body of the innermost loop; [None] is the dereference of a nil
    file. *)
Definition addFile (infoHash : string) (acc : option collected)
    (entry : string * option realdebrid.File) : option collected :=
  match acc with
  | None => None
  | Some (files, found) =>
      let '(id, f) := entry in
      if bool_decide (id ∈ found) then Some (files, found)
      else
        match f with
        | None => None
        | Some f =>
            let newFile :=
              {| realdebrid.ID := id;
                 realdebrid.FileName := realdebrid.FileName f;
                 realdebrid.FileSize := realdebrid.FileSize f |} in
            Some (<[infoHash := default [] (files !! infoHash) ++ [newFile]]> files,
                  {[id]} ∪ found)
        end
  end.

Definition addVariant (infoHash : string) (acc : option collected)
    (variant : gmap string (option realdebrid.File)) : option collected :=
  fold_left (addFile infoHash) (rangeMap _ variant) acc.

Definition addHoster (infoHash : string) (acc : option collected)
    (hoster : string * list (gmap string (option realdebrid.File))) : option collected :=
  fold_left (addVariant infoHash) (snd hoster) acc.

(** The body of the outer loop: [found] starts empty for each hash. *)
Definition addHash (acc : option (gmap string (list realdebrid.File)))
    (entry : string * gmap string (list (gmap string (option realdebrid.File))))
  : option (gmap string (list realdebrid.File)) :=
  match acc with
  | None => None
  | Some files =>
      option_map fst
        (fold_left (addHoster (fst entry)) (rangeMap _ (snd entry)) (Some (files, ∅)))
  end.

Definition collect (result : availability) : option (gmap string (list realdebrid.File)) :=
  fold_left addHash (rangeMap _ result) (Some ∅).

(** The request of [GetFiles], with the path it asks for: the decoded
    answer, or the error of the transport or of the service. *)
Variable Get : string -> availability + string.

(** [strings.Join(elems, sep)]. *)
Fixpoint Join (elems : list string) (sep : string) : string :=
  match elems with
  | [] => ""
  | [e] => e
  | e :: rest => e +:+ sep +:+ Join rest sep
  end.

(** [GetFiles]; [None] is a panic. *)
Definition GetFiles (infoHashs : list string)
  : option (gmap string (list realdebrid.File) + addon.error) :=
  match Get ("/torrents/instantAvailability/" +:+ Join infoHashs "/") with
  | inr err => Some (inr err)
  | inl result =>
      match collect result with
      | Some files => Some (inl files)
      | None => None
      end
  end.

End Files.

(** *** The link of a file *)

(** The loop of [getIndexOfLinkForFile], with [index] so far. *)
Fixpoint indexFrom (files : list TorrentFile.TorrentFile) (fileID : string) (index : Z) : Z :=
  match files with
  | [] => -1
  | f :: rest =>
      if String.eqb (addon.fmt_d (TorrentFile.ID f)) fileID then
        if 0 <? TorrentFile.Selected f then index else -1
      else indexFrom rest fileID (if 0 <? TorrentFile.Selected f then index + 1 else index)
  end.

Definition getIndexOfLinkForFile (torrent : Torrent) (fileID : string) : Z :=
  indexFrom (Files torrent) fileID 0.

(** *** Calls to the service

    A call changes the state of the service and returns a value, an
    error, or panics. *)
Inductive result (A : Type) :=
| Ok (a : A)
| Err (e : error)
| Panic.

Arguments Ok {A} a.
Arguments Err {A} e.
Arguments Panic {A}.

Section Service.
Variable S : Type.

Definition M (A : Type) : Type := S -> result A * S.

Definition ret {A} (a : A) : M A := fun s => (Ok a, s).
Definition fail {A} (e : error) : M A := fun s => (Err e, s).
Definition panic {A} : M A := fun s => (Panic, s).

Definition bind {A B} (m : M A) (f : A -> M B) : M B :=
  fun s =>
    match m s with
    | (Ok a, s') => f a s'
    | (Err e, s') => (Err e, s')
    | (Panic, s') => (Panic, s')
    end.

Notation "'let*' x ':=' m 'in' f" := (bind m (fun x => f))
  (at level 10, x name, m at level 100, f at level 200).

(** The five requests of the client: each returns what the service
    answers or the message of the error of the transport or of the
    service. *)
Variable selectFileToDownload : string -> S -> option string * S.
Variable getTorrent : string -> S -> (Torrent + string) * S.
Variable getTorrents : S -> (list Torrent + string) * S.
Variable addMagnet : string -> S -> (string + string) * S.
Variable generateDownload : string -> S -> (string + string) * S.

(** A request as a call: its error is a [Remote] one. *)
Definition call {A} (request : S -> (A + string) * S) : M A :=
  fun s =>
    match request s with
    | (inl a, s') => (Ok a, s')
    | (inr message, s') => (Err (Remote message), s')
    end.

Definition callSelect (torrentID : string) : M unit :=
  fun s =>
    match selectFileToDownload torrentID s with
    | (None, s') => (Ok tt, s')
    | (Some message, s') => (Err (Remote message), s')
    end.

Definition getDownload (torrent : Torrent) (fileID : string) : M string :=
  let linkIndex := getIndexOfLinkForFile torrent fileID in
  let* torrent :=
    (if String.eqb (Status torrent) "waiting_files_selection" || (linkIndex =? -1)
     then let* selected := callSelect (ID torrent) in call (getTorrent (ID torrent))
     else ret torrent) in
  if negb (String.eqb (Status torrent) "downloaded") then fail ErrTorrentNotReady
  else
    let linkIndex := getIndexOfLinkForFile torrent fileID in
    if linkIndex =? -1 then fail ErrNoFileFound
    else if (Z.of_nat (length (Links torrent)) =? 0)
            || (Z.of_nat (length (Links torrent)) <=? linkIndex)
    then fail ErrNotSupported
    else
      match (if linkIndex <? 0 then None else Links torrent !! Z.to_nat linkIndex) with
      | Some link => call (generateDownload link)
      | None => panic
      end.

(** The loop of [getDownloadByInfoHash] over the torrents of the account. *)
Fixpoint firstDownload (torrents : list Torrent) (infoHash fileID : string) : M string :=
  match torrents with
  | [] => fail ErrNoTorrentFound
  | torrent :: rest =>
      if String.eqb (Hash torrent) infoHash then
        fun s =>
          match getDownload torrent fileID s with
          | (Ok download, s') => (Ok download, s')
          | (Err ErrNoFileFound, s') => firstDownload rest infoHash fileID s'
          | (Err e, s') => (Err e, s')
          | (Panic, s') => (Panic, s')
          end
      else firstDownload rest infoHash fileID
  end.

Definition getDownloadByInfoHash (infoHash fileID : string) : M string :=
  let* torrents := call getTorrents in
  firstDownload torrents infoHash fileID.

Definition GetDownloadByMagnetURI (infoHash magnetURI fileID : string) : M string :=
  fun s =>
    match getDownloadByInfoHash infoHash fileID s with
    | (Ok download, s') => (Ok download, s')
    | (Err ErrNoTorrentFound, s') =>
        (let* torrentID := call (addMagnet magnetURI) in
         let* torrent := call (getTorrent torrentID) in
         getDownload torrent fileID) s'
    | (Err e, s') => (Err e, s')
    | (Panic, s') => (Panic, s')
    end.

Definition GetDownloadByInfoHash (infoHash fileID : string) : M string :=
  GetDownloadByMagnetURI infoHash ("magnet:?xt=urn:btih:" +:+ infoHash) fileID.

End Service.
End debrid.

(** ** [bytes_convert.go]: a size as text

    [float32] is IEEE 754 binary32: [spec_float]s of precision 24 and
    maximal exponent 128, each operation rounded to nearest, ties to
    even. *)
Module bytes_convert.

Definition float32 : Type := spec_float.

(** [float32(n)] for an integer [n]. *)
Definition of_Z (n : Z) : float32 := binary_normalize 24 128 n 0 false.

Definition div : float32 -> float32 -> float32 := SFdiv 24 128.

Definition BYTE : Z := Z.shiftl 1 (10 * 0).
Definition KIBIBYTE : Z := Z.shiftl 1 (10 * 1).
Definition MEBIBYTE : Z := Z.shiftl 1 (10 * 2).
Definition GIBIBYTE : Z := Z.shiftl 1 (10 * 3).

(** The hundredths of a number [m * 2^e] that is not negative, rounded to
    the nearest integer, ties to even: the digits [%.2f] prints. *)
Definition hundredths (m : Z) (e : Z) : Z :=
  if 0 <=? e then m * 2 ^ e * 100
  else
    let num := m * 100 in
    let den := 2 ^ (- e) in
    let q := num / den in
    let r := num mod den in
    if den <? 2 * r then q + 1
    else if (den =? 2 * r) && Z.odd q then q + 1
    else q.

(** [fmt.Sprintf("%.2f", value)] for a [float32] that is a number and not
    negative; the other values do not occur below. *)
Definition fmt_2f (value : float32) : string :=
  let h :=
    match value with
    | S754_finite false m e => hundredths (Z.pos m) e
    | _ => 0
    end in
  addon.fmt_d (h / 100) +:+ "." +:+ addon.fmt_02d (h mod 100).

Definition bytesConvert (bytes : Z) : string :=
  let value := of_Z bytes in
  let '(unit, value, unknown) :=
    if GIBIBYTE <=? bytes then ("GB", div value (of_Z GIBIBYTE), false)
    else if MEBIBYTE <=? bytes then ("MB", div value (of_Z MEBIBYTE), false)
    else if KIBIBYTE <=? bytes then ("KB", div value (of_Z KIBIBYTE), false)
    else if BYTE <=? bytes then ("B", value, false)
    else if bytes =? 0 then ("", value, true)
    else ("", value, false) in
  if unknown then "?"
  else
    let stringValue := gostrings.TrimSuffix (fmt_2f value) ".00" in
    stringValue +:+ " " +:+ unit.

(** The whole numbers from [lo], [n] of them. *)
Fixpoint wholes (lo : Z) (n : nat) : list Z :=
  match n with
  | O => []
  | S n' => lo :: wholes (lo + 1) n'
  end.

End bytes_convert.

(** ** [metainfo.go]: the info dictionary of a torrent file

    Byte slices are strings. *)
Module metainfo.

(** A file of the info dictionary, as decoded. *)
Module file.
Record file := {
  Length : Z;              (* int64 *)
  Path : list string;
  PathUTF8 : list string;
  Attr : string;
}.
End file.

Record infoType := {
  PieceLength : Z;         (* uint32 *)
  Pieces : string;
  Name : string;
  NameUTF8 : string;
  Private : string;        (* bencode.RawMessage *)
  Length : Z;              (* int64 *)
  Files : list file.file;
}.

(** A file of a torrent. *)
Module File.
Record File := {
  Length : Z;              (* int64 *)
  Path : string;
  Padding : bool;
}.
End File.

Module Info.
Record Info := {
  PieceLength : Z;         (* uint32 *)
  Name : string;
  Hash : string;           (* [20]byte *)
  Length : Z;              (* int64 *)
  NumPieces : Z;           (* uint32 *)
  Bytes : string;
  Private : bool;
  Files : list File.File;
  pieces : string;
}.
End Info.

Inductive error :=
| Decoding (message : string)          (* an error of the bencode decoder *)
| errInvalidPieceData
| errZeroPieceLength
| errZeroPieces
| InvalidFileName (name : string)      (* "invalid file name: %q" *)
| DuplicateFileName (name : string)    (* "duplicate file name: %q" *)
| NoInfoDict.                          (* "no info dict in torrent file" *)

(** [int64(x)] and [uint32(x)] for an integer [x]: the wrap-around. *)
Definition to_int64 (x : Z) : Z := (x + 2 ^ 63) mod 2 ^ 64 - 2 ^ 63.
Definition to_uint32 (x : Z) : Z := x mod 2 ^ 32.

Definition sha1_Size : Z := 20.

(** [ib.overrideUTF8Keys()]. *)
Definition overrideFile (f : file.file) : file.file :=
  match file.PathUTF8 f with
  | [] => f
  | _ :: _ =>
      {| file.Length := file.Length f; file.Path := file.PathUTF8 f;
         file.PathUTF8 := file.PathUTF8 f; file.Attr := file.Attr f |}
  end.

Definition overrideUTF8Keys (ib : infoType) : infoType :=
  {| PieceLength := PieceLength ib; Pieces := Pieces ib;
     Name := if (0 <? len (NameUTF8 ib)) then NameUTF8 ib else Name ib;
     NameUTF8 := NameUTF8 ib; Private := Private ib; Length := Length ib;
     Files := map overrideFile (Files ib) |}.

(** [strings.ContainsRune(s, c)] for a rune [c] of one byte. *)
Fixpoint ContainsByte (s : string) (c : ascii) : bool :=
  match s with
  | EmptyString => false
  | String x s' => Ascii.eqb x c || ContainsByte s' c
  end.

(** [f.isPadding()]. *)
Definition isPadding (f : file.file) : bool :=
  if ContainsByte (file.Attr f) "p" then true
  else
    match last (file.Path f) with
    | Some name => gostrings.HasPrefix name "_____padding_file"
    | None => false
    end.

Definition isTrackerSupported (s : string) : bool :=
  gostrings.HasPrefix s "http://" || gostrings.HasPrefix s "https://"
  || gostrings.HasPrefix s "udp://".

Definition isWebseedSupported (s : string) : bool :=
  gostrings.HasPrefix s "http://" || gostrings.HasPrefix s "https://".

(** The scan of [path.Ext] from the right, up to the first dot or slash:
    the suffix from a dot, the empty string for a slash, [None] when the
    string holds neither. *)
Fixpoint lastDot (s : string) : option string :=
  match s with
  | EmptyString => None
  | String c s' =>
      match lastDot s' with
      | Some found => Some found
      | None =>
          if Ascii.eqb c "." then Some s
          else if Ascii.eqb c "/" then Some ""
          else None
      end
  end.

(** [path.Ext(s)]. *)
Definition Ext (s : string) : string := default "" (lastDot s).

(** [trimName(s, max)]; [None] is the panic of a slice with a negative
    bound. *)
Definition trimName (s : string) (max : Z) : option string :=
  if len s <=? max then Some s
  else
    let ext := Ext s in
    if max <? len ext then
      if max <? 0 then None else Some (slice s 0 max)
    else Some (slice s 0 (max - len ext) +:+ ext).

(** [replaceSeparator(s)], on a string that is valid UTF-8, as the one
    [cleanNameN] hands to it: every slash becomes an underscore. *)
Fixpoint replaceSeparator (s : string) : string :=
  match s with
  | EmptyString => EmptyString
  | String c s' =>
      String (if Ascii.eqb c "/" then "_"%char else c) (replaceSeparator s')
  end.

(** [hex.EncodeToString]. *)
Definition hexDigit (n : N) : ascii :=
  if (n <? 10)%N then ascii_of_N (48 + n) else ascii_of_N (87 + n).

Fixpoint EncodeToString (s : string) : string :=
  match s with
  | EmptyString => EmptyString
  | String c s' =>
      let n := N_of_ascii c in
      String (hexDigit (n / 16)) (String (hexDigit (n mod 16)) (EncodeToString s'))
  end.

(** What a run of the function ends with: a value, an error, or a panic. *)
Inductive outcome (A : Type) :=
| Value (a : A)
| Error (e : error)
| Panics.

Arguments Value {A} a.
Arguments Error {A} e.
Arguments Panics {A}.

Section Decoding.
Context `{GoLib}.

(** The library functions of this file: the bencode decoder on the info
    dictionary, on an integer and on a string; [sha1] as the 20 bytes of
    the sum; [strings.ToValidUTF8], which returns valid UTF-8;
    [filepath.Join]. *)
Variable decodeInfo : string -> infoType + string.
Variable decodeInt : string -> option Z.
Variable decodeString : string -> option string.
Variable sha1 : string -> string.
Variable ToValidUTF8 : string -> string -> string.
Variable Join : list string -> string.

(** [string(unicode.ReplacementChar)]. *)
Definition replacementChar : string :=
  String (ascii_of_nat 239) (String (ascii_of_nat 191) (String (ascii_of_nat 189) "")).

Definition cleanNameN (s : string) (max : Z) : option string :=
  let s := ToValidUTF8 s replacementChar in
  match trimName s max with
  | None => None
  | Some s => Some (replaceSeparator (ToValidUTF8 s ""))
  end.

Definition cleanName (s : string) : option string := cleanNameN s 255.

Definition parsePrivateField (s : string) : bool :=
  if len s =? 0 then false
  else
    match decodeInt s with
    | Some intVal => negb (intVal =? 0)
    | None =>
        match decodeString s with
        | None => true
        | Some stringVal => negb (String.eqb stringVal "" || String.eqb stringVal "0")
        end
    end.

(** The first file with a path element that is [..] once trimmed. *)
Definition dotDot (files : list file.file) : option file.file :=
  List.find (fun f => existsb (fun path => String.eqb (TrimSpace path) "..") (file.Path f))
    files.

(** [i.Length += f.Length] over the files. *)
Definition totalLength (files : list file.file) : Z :=
  fold_left (fun length f => to_int64 (length + file.Length f)) files 0.

(** The loop that builds the files of a torrent of several files, with
    the files built and the paths met so far. *)
Fixpoint buildFiles (name : string) (pad : bool) (files : list file.file)
    (built : list File.File) (uniquePaths : gset string) : outcome (list File.File) :=
  match files with
  | [] => Value built
  | f :: rest =>
      match cleanName name, mapM cleanName (file.Path f) with
      | Some first, Some others =>
          let joinedPath := Join (first :: others) in
          if bool_decide (joinedPath ∈ uniquePaths) then Error (DuplicateFileName joinedPath)
          else
            buildFiles name pad rest
              (built ++ [ {| File.Length := file.Length f; File.Path := joinedPath;
                             File.Padding := if pad then isPadding f else false |} ])
              ({[joinedPath]} ∪ uniquePaths)
      | _, _ => Panics
      end
  end.

Definition NewInfo (b : string) (utf8 pad : bool) : outcome Info.Info :=
  match decodeInfo b with
  | inr message => Error (Decoding message)
  | inl ib =>
      if PieceLength ib =? 0 then Error errZeroPieceLength
      else if negb (len (Pieces ib) mod sha1_Size =? 0) then Error errInvalidPieceData
      else
        let numPieces := len (Pieces ib) / sha1_Size in
        if numPieces =? 0 then Error errZeroPieces
        else
          let ib := if utf8 then overrideUTF8Keys ib else ib in
          match dotDot (Files ib) with
          | Some f => Error (InvalidFileName (Join (file.Path f)))
          | None =>
              let multiFile := 0 <? Z.of_nat (length (Files ib)) in
              let length := if multiFile then totalLength (Files ib) else Length ib in
              let NumPieces := to_uint32 numPieces in
              let totalPieceDataLength := to_int64 (PieceLength ib * NumPieces) in
              let delta := to_int64 (totalPieceDataLength - length) in
              if (PieceLength ib <=? delta) || (delta <? 0) then Error errInvalidPieceData
              else
                let hash := sha1 b in
                let name :=
                  if negb (String.eqb (Name ib) "") then Name ib
                  else EncodeToString hash in
                let files :=
                  if multiFile then buildFiles name pad (Files ib) [] ∅
                  else
                    match cleanName name with
                    | Some path =>
                        Value [ {| File.Length := length; File.Path := path;
                                   File.Padding := false |} ]
                    | None => Panics
                    end in
                match files with
                | Value files =>
                    Value {| Info.PieceLength := PieceLength ib;
                             Info.Name := name;
                             Info.Hash := hash;
                             Info.Length := length;
                             Info.NumPieces := NumPieces;
                             Info.Bytes := b;
                             Info.Private := parsePrivateField (Private ib);
                             Info.Files := files;
                             Info.pieces := Pieces ib |}
                | Error e => Error e
                | Panics => Panics
                end
          end
  end.

(** The dictionary of a torrent file, as decoded: four raw values. *)
Record torrentType := {
  rawInfo : string;
  rawAnnounce : string;
  rawAnnounceList : string;
  rawURLList : string;
}.

Record MetaInfo := {
  info : Info.Info;
  AnnounceList : list (list string);
  URLList : list string;
}.

(** The decoder on the dictionary of the file, on a list of lists of
    strings and on a list of strings. *)
Variable decodeTorrent : string -> torrentType + string.
Variable decodeTiers : string -> option (list (list string)).
Variable decodeList : string -> option (list string).

(** The loop over the tiers: the supported trackers of each tier, the
    tiers left empty dropped. *)
Definition supportedTiers (ll : list (list string)) : list (list string) :=
  List.filter (fun ti => 0 <? Z.of_nat (length ti))
    (map (List.filter isTrackerSupported) ll).

Definition parseTorrentFile (r : string) : outcome MetaInfo :=
  match decodeTorrent r with
  | inr message => Error (Decoding message)
  | inl t =>
      if len (rawInfo t) =? 0 then Error NoInfoDict
      else
        match NewInfo (rawInfo t) true true with
        | Error e => Error e
        | Panics => Panics
        | Value info =>
            let announceList :=
              if 0 <? len (rawAnnounceList t) then
                match decodeTiers (rawAnnounceList t) with
                | Some ll => supportedTiers ll
                | None => []
                end
              else
                match decodeString (rawAnnounce t) with
                | Some s => if isTrackerSupported s then [[s]] else []
                | None => []
                end in
            let urlList :=
              if 0 <? len (rawURLList t) then
                match rawURLList t with
                | String "l" _ =>
                    match decodeList (rawURLList t) with
                    | Some l => List.filter isWebseedSupported l
                    | None => []
                    end
                | _ =>
                    match decodeString (rawURLList t) with
                    | Some s => if isWebseedSupported s then [s] else []
                    | None => []
                    end
                end
              else [] in
            Value {| info := info; AnnounceList := announceList;
                     URLList := urlList |}
        end
  end.

End Decoding.
End metainfo.

(** ** Further examples

    A second instance of the library parameters, with the answers of
    [regexp] on one more title and on the file names of a season pack, and
    sample answers of the services. *)
Module Samples.

Definition MB : Z := 2 ^ 20.

Definition camTitle : string := "Movie CAM BluRay".

(** On [camTitle] the pattern of CAM matches at bytes 6 to 9 and the
    pattern of Blu-ray at bytes 10 to 16; no other pattern of the parser
    matches. *)
Definition recordedIndex (pattern s : string) : list (Z * Z) :=
  if String.eqb s camTitle && String.eqb pattern "(?i)\b(?:HD-?)?CAM(?:rip)?\b"
  then [(6, 9)]
  else if String.eqb s camTitle && String.eqb pattern "(?i)\bBlu-?ray\b"
  then [(10, 16)]
  else Example.recordedIndex pattern s.

Definition episodeFiles : list realdebrid.File :=
  [ {| realdebrid.ID := "1"; realdebrid.FileName := "Show.S01E02.sample.mkv";
       realdebrid.FileSize := 50 * MB |};
    {| realdebrid.ID := "2"; realdebrid.FileName := "Show.S01E02.mkv";
       realdebrid.FileSize := 700 * MB |};
    {| realdebrid.ID := "3"; realdebrid.FileName := "Show.S01E03.mkv";
       realdebrid.FileSize := 900 * MB |};
    {| realdebrid.ID := "4"; realdebrid.FileName := "Show.S01E02.nfo";
       realdebrid.FileSize := MB |} ].

(** The pattern of season 1, episode 2 matches the three names that hold
    [S01E02]; the name of episode 3 matches none of the three patterns. *)
Definition recordedMatch (pattern s : string) : bool :=
  String.eqb pattern (addon.seasonEpisodePattern 1 2)
  && (String.eqb s "Show.S01E02.sample.mkv" || String.eqb s "Show.S01E02.mkv"
      || String.eqb s "Show.S01E02.nfo").

#[local] Instance lib : GoLib := {|
  FindAllStringIndex := recordedIndex;
  FindAllStringSubmatchIndex := fun _ _ => [];
  MatchString := recordedMatch;
  ReplaceAllString := fun _ s _ => s;
  ToLower := Example.asciiLower;
  TrimSpace := fun s => s;
  Split := fun s _ => [s];
  ParseFloat := Example.recordedFloat;
  float64_to_uint64 := Example.truncate;
  Distance := fun _ _ _ _ _ _ => 0;
  SortFunc := fun A cmp x => Example.insertionSort cmp x;
  rangeKeys := fun V m => (map_to_list m).*1;
|}.

(** Episode 2 of season 1 of a series, with the files of the pack. *)
Definition episode : addon.streamRecord :=
  {| addon.ContentType := addon.ContentTypeSeries; addon.ID := "tt0000001";
     addon.Season := 1; addon.Episode := 2; addon.BaseURL := "";
     addon.RemoteAddress := "";
     addon.MetaInfo := {| model.Name := "Show"; model.IMDBID := 1;
                          model.FromYear := 2019; model.ToYear := 2021 |};
     addon.TitleInfo := Example.titleInfo 1080 "web-dl";
     addon.Indexer := {| prowlarr.Name := ""; prowlarr.Enable := true;
                         prowlarr.LimitDefaults := 0 |};
     addon.Torrent := Example.torrent 20 (2 * Example.GB) "ab";
     addon.Files := episodeFiles; addon.MediaFile := None;
     addon.SearchBySeason := false; addon.RDClient := Some Example.client;
     addon.userData := addon.NewUserDataWithDefaults |}.

(** Cinemeta on a series that still runs, and on a movie. *)
Definition runningShow : cinemeta.MetaInfo :=
  {| cinemeta.Name := "Show"; cinemeta.Year := "2019" +:+ cinemeta.enDash;
     cinemeta.IMDBID := "tt0000001" |}.

Definition cinemetaGet (path : string) : cinemeta.MetaInfo + cinemeta.error :=
  if String.eqb path "/meta/series/tt0000001.json" then inl runningShow
  else if String.eqb path "/meta/movie/tt0111161.json" then
    inl {| cinemeta.Name := "Movie"; cinemeta.Year := "1994";
           cinemeta.IMDBID := "tt0111161" |}
  else inr "connection refused".

Definition file1 : realdebrid.File :=
  {| realdebrid.ID := ""; realdebrid.FileName := "Movie.2019.1080p.mkv";
     realdebrid.FileSize := 4 * 2 ^ 30 |}.
Definition file2 : realdebrid.File :=
  {| realdebrid.ID := ""; realdebrid.FileName := "Sample.mkv";
     realdebrid.FileSize := 20 * 2 ^ 20 |}.

(** An answer of the debrid service: the hash [bb] is cached at one
    hoster in two variants that share the file 1; the hash [cc] is not
    cached. *)
Definition available : debrid.availability :=
  {[ "bb" := {[ "rd" := [ {[ "1" := Some file1; "2" := Some file2 ]};
                          {[ "1" := Some file1 ]} ] ]};
     "cc" := ∅ ]}.

(** The pairs of a map in the order of [map_to_list]. *)
Definition ascending (V : Type) (m : gmap string V) : list (string * V) :=
  map_to_list m.

Definition request (path : string) : debrid.availability + string := inl available.

(** What [GetFiles] makes of [available]. *)
Definition cachedFiles : gmap string (list realdebrid.File) :=
  {[ "bb" := [ {| realdebrid.ID := "1"; realdebrid.FileName := "Movie.2019.1080p.mkv";
                  realdebrid.FileSize := 4 * 2 ^ 30 |};
               {| realdebrid.ID := "2"; realdebrid.FileName := "Sample.mkv";
                  realdebrid.FileSize := 20 * 2 ^ 20 |} ] ]}.
End Samples.

(** ** A torrent file for examples *)
Module TorrentSamples.
Import metainfo.

(** A torrent of two files, with pieces of 16 KiB: the dictionary as the
    decoder reads it, a sum in place of SHA-1, and the two library
    functions on names that need no repair. *)
Definition twoFiles : infoType :=
  {| PieceLength := 16384;
     Pieces := "0123456789abcdefghij0123456789ABCDEFGHIJ";
     Name := "pack"; NameUTF8 := ""; Private := "";
     Length := 0;
     Files := [ {| file.Length := 20000; file.Path := ["a"; "one.mkv"];
                   file.PathUTF8 := []; file.Attr := "" |};
                {| file.Length := 10000; file.Path := ["a"; "two.mkv"];
                   file.PathUTF8 := []; file.Attr := "" |} ] |}.

Definition decodeTwoFiles (b : string) : infoType + string := inl twoFiles.

Definition sum20 (b : string) : string := "01234567890123456789".

Definition keep (s replacement : string) : string := s.

Definition joinSlash (elems : list string) : string := debrid.Join elems "/".

End TorrentSamples.

(** * Part II: properties *)

(** ** Facts on [float64] *)
Module Float64Facts.
Import Float64.

Lemma shr_1_nonneg mrs : 0 <= shr_m mrs -> 0 <= shr_m (shr_1 mrs).
Proof.
  destruct mrs as [m r s]; simpl.
  destruct m as [|[p|p|]|[p|p|]]; simpl; lia.
Qed.

Lemma iter_shr_1_nonneg p :
  forall mrs, 0 <= shr_m mrs -> 0 <= shr_m (SpecFloat.iter_pos shr_1 p mrs).
Proof.
  induction p as [p IH|p IH|]; intros mrs Hm; simpl.
  - apply IH, IH, shr_1_nonneg, Hm.
  - apply IH, IH, Hm.
  - apply shr_1_nonneg, Hm.
Qed.

Lemma shr_fexp_nonneg m e l :
  0 <= m -> 0 <= shr_m (fst (shr_fexp prec emax m e l)).
Proof.
  intros Hm. unfold shr_fexp, shr.
  assert (H0 : 0 <= shr_m (shr_record_of_loc m l)) by (destruct l as [|[]]; exact Hm).
  destruct (fexp prec emax (Zdigits2 m + e) - e); simpl; auto.
  apply iter_shr_1_nonneg, H0.
Qed.

Lemma round_nearest_even_nonneg m l : 0 <= m -> 0 <= round_nearest_even m l.
Proof.
  intros Hm. destruct l as [|[]]; simpl; try lia.
  destruct (Z.even m); lia.
Qed.

(** Rounding a non-negative mantissa gives a number of the sign asked
    for, never a NaN. *)
Lemma binary_round_aux_signed s m e l :
  0 <= m -> signed s (binary_round_aux prec emax s m e l).
Proof.
  intros Hm. unfold binary_round_aux.
  pose proof (shr_fexp_nonneg m e l Hm) as H1.
  destruct (shr_fexp prec emax m e l) as [mrs' e'] eqn:E1. simpl in H1.
  pose proof (shr_fexp_nonneg _ e' loc_Exact
                (round_nearest_even_nonneg _ (loc_of_shr_record mrs') H1)) as H2.
  destruct (shr_fexp prec emax (round_nearest_even _ _) e' loc_Exact) as [mrs'' e''].
  simpl in H2.
  destruct (shr_m mrs'') as [|q|q]; simpl; try reflexivity; try lia.
  destruct (e'' <=? emax - prec); reflexivity.
Qed.

Lemma binary_round_signed s m e : signed s (binary_round prec emax s m e).
Proof.
  unfold binary_round.
  destruct (shl_align m e _) as [mz ez].
  apply binary_round_aux_signed. lia.
Qed.

Lemma binary_normalize_signed m e :
  signed (m <? 0) (binary_normalize prec emax m e false).
Proof.
  destruct m as [|p|p]; simpl.
  - reflexivity.
  - apply binary_round_signed.
  - apply binary_round_signed.
Qed.

Lemma of_Z_signed n : signed (n <? 0) (of_Z n).
Proof. apply binary_normalize_signed. Qed.

Lemma signed_nonneg x : signed false x <-> nonneg x = true.
Proof. destruct x as [[]|[]| |[] m e]; simpl; intuition congruence. Qed.

Lemma signed_not_nan s x : signed s x -> is_nan x = false.
Proof. destruct x; simpl; intuition. Qed.

Lemma nonneg_not_nan x : nonneg x = true -> is_nan x = false.
Proof. destruct x; simpl; congruence. Qed.

Lemma of_Z_nonneg n : 0 <= n -> nonneg (of_Z n) = true.
Proof.
  intros Hn. apply signed_nonneg.
  replace false with (n <? 0) by lia. apply of_Z_signed.
Qed.

Lemma of_Z_not_nan n : is_nan (of_Z n) = false.
Proof. eapply signed_not_nan, of_Z_signed. Qed.

(** Division by a positive finite constant keeps the sign. *)
Lemma div_signed s x m e :
  signed s x -> signed s (div x (S754_finite false m e)).
Proof.
  destruct x as [sx|sx| |sx mx ex]; simpl; intros Hs; try contradiction.
  - subst. now destruct s.
  - subst. now destruct s.
  - subst sx. unfold SFdiv_core_binary.
    destruct (Z.div_eucl _ _) as [q r] eqn:E.
    rewrite xorb_false_r.
    apply binary_round_aux_signed.
    assert (Hq : q = (fst (q, r))) by reflexivity. rewrite Hq, <- E.
    match goal with |- 0 <= fst (Z.div_eucl ?a ?b) => change (0 <= a / b) end.
    apply Z.div_pos; [|lia].
    destruct (ex - e - _) as [|p|p]; simpl; try lia.
    apply Z.shiftl_nonneg. lia.
Qed.

(** Multiplication by a positive finite constant keeps the sign. *)
Lemma mul_signed s x m e :
  signed s x -> signed s (mul x (S754_finite false m e)).
Proof.
  destruct x as [sx|sx| |sx mx ex]; simpl; intros Hs; try contradiction.
  - subst. now destruct s.
  - subst. now destruct s.
  - subst sx. rewrite xorb_false_r. apply binary_round_aux_signed. lia.
Qed.

Lemma add_nonneg x y :
  nonneg x = true -> nonneg y = true -> nonneg (add x y) = true.
Proof.
  destruct x as [[]|[]| |[] mx ex]; destruct y as [[]|[]| |[] my ey];
    simpl; try discriminate; try reflexivity.
  intros _ _. apply signed_nonneg, binary_round_signed.
Qed.

Lemma mul_comm x y : mul x y = mul y x.
Proof.
  destruct x as [sx|sx| |sx mx ex]; destruct y as [sy|sy| |sy my ey];
    simpl; try reflexivity; try (now rewrite xorb_comm).
  now rewrite xorb_comm, Pos.mul_comm, Z.add_comm.
Qed.

(** *** The order *)

Lemma compare_antisym x y : SFcompare y x = option_map CompOpp (SFcompare x y).
Proof.
  destruct x as [sx|sx| |sx mx ex]; destruct y as [sy|sy| |sy my ey];
    simpl; try reflexivity;
    try (destruct sx; destruct sy; reflexivity);
    try (destruct sx; reflexivity); try (destruct sy; reflexivity).
  change (Pos.compare_cont Eq my mx) with (Pos.compare my mx).
  change (Pos.compare_cont Eq mx my) with (Pos.compare mx my).
  rewrite (Z.compare_antisym ex ey), (Pos.compare_antisym mx my).
  destruct sx, sy; simpl; try reflexivity;
    destruct (ex ?= ey); simpl; try reflexivity;
    destruct (mx ?= my)%positive; reflexivity.
Qed.

Lemma compare_Eq_finite x s m e :
  SFcompare x (S754_finite s m e) = Some Eq -> x = S754_finite s m e.
Proof.
  destruct x as [sx|sx| |sx mx ex]; simpl; try discriminate.
  - destruct s; discriminate.
  - destruct sx; discriminate.
  - change (Pos.compare_cont Eq mx m) with (Pos.compare mx m).
    destruct sx, s; try discriminate;
      destruct (Z.compare_spec ex e); try discriminate;
      destruct (Pos.compare_spec mx m); try discriminate;
      intros _; congruence.
Qed.

Lemma compare_None x y : SFcompare x y = None -> is_nan x = true \/ is_nan y = true.
Proof. destruct x, y; simpl; auto; discriminate. Qed.

Lemma ltb_asym x y : ltb x y = true -> ltb y x = false.
Proof.
  unfold ltb, SFltb. rewrite (compare_antisym x y).
  destruct (SFcompare x y) as [[]|]; simpl; congruence.
Qed.

(** On numbers that are not NaN, [<] is a strict weak order: when
    [x < z], any [y] is above [x] or below [z]. *)
Lemma ltb_cotrans x y z :
  is_nan y = false -> ltb x z = true -> ltb x y = true \/ ltb y z = true.
Proof.
  unfold ltb, SFltb.
  destruct x as [sx|sx| |sx mx ex]; destruct y as [sy|sy| |sy my ey];
    destruct z as [sz|sz| |sz mz ez]; simpl; try discriminate;
    try (destruct sx); try (destruct sy); try (destruct sz); simpl;
    try discriminate; intros _; auto;
    change (Pos.compare_cont Eq) with Pos.compare;
    repeat match goal with
    | |- context [Z.compare ?a ?b] => destruct (Z.compare_spec a b)
    | |- context [Pos.compare ?a ?b] => destruct (Pos.compare_spec a b)
    end; simpl; try discriminate; auto; intros _; exfalso; lia.
Qed.

(** The cap of the source, [if c < x then c else x], is [min(c, x)] for a
    finite [c] and an [x] that is not a NaN. *)
Lemma cap_fmin n x :
  is_nan x = false ->
  (exists s m e, of_Z n = S754_finite s m e) ->
  (if ltb (of_Z n) x then of_Z n else x) = Spec.fmin (of_Z n) x.
Proof.
  intros Hx (s & m & e & Hc). unfold Spec.fmin, ltb, SFltb.
  rewrite (compare_antisym x (of_Z n)).
  destruct (SFcompare x (of_Z n)) as [[]|] eqn:E; simpl; try reflexivity.
  - rewrite Hc in E. apply compare_Eq_finite in E. now rewrite Hc.
  - apply compare_None in E as [E|E]; [congruence|].
    rewrite Hc in E. discriminate.
Qed.

End Float64Facts.

(** ** The quality score *)
Module ScoreFacts.
Import Float64 Float64Facts addon.

Lemma sizeScoreOf_banded resolution sizeGB :
  sizeScoreOf resolution sizeGB = Spec.bandedScore resolution sizeGB.
Proof.
  unfold sizeScoreOf, Spec.bandedScore, Spec.classOf, within.
  destruct (2160 <=? resolution); [reflexivity|].
  destruct (1080 <=? resolution); [reflexivity|].
  destruct (720 <=? resolution); reflexivity.
Qed.

Lemma resolution_ratio_not_nan n : is_nan (div (of_Z n) (dec 216 1)) = false.
Proof.
  eapply signed_not_nan.
  change (dec 216 1) with (S754_finite false 6079859496950170 (-48)).
  apply div_signed, of_Z_signed.
Qed.

(** The score of a record that has a media file, with the rank and the
    choice of the weights as [calculateQualityScore] computes them. *)
Lemma calculateQualityScore_weighted r f :
  MediaFile r = Some f ->
  calculateQualityScore r =
  Some (Spec.score (usingDebrid r)
          (prowlarr.Seeders (Torrent r))
          (titleparser.Resolution (TitleInfo r))
          (getQualityScore (titleparser.Quality (TitleInfo r)))
          (realdebrid.FileSize f)).
Proof.
  intros Hf. unfold calculateQualityScore, Spec.score. rewrite Hf.
  rewrite sizeScoreOf_banded.
  rewrite (cap_fmin 100 _ (resolution_ratio_not_nan _))
    by (do 3 eexists; reflexivity).
  fold (Spec.resolutionScore (titleparser.Resolution (TitleInfo r))).
  fold (Spec.sourceScore (getQualityScore (titleparser.Quality (TitleInfo r)))).
  change (of_Z (1024 * 1024 * 1024)) with (of_Z (2 ^ 30)).
  fold (Spec.sizeGBOf (realdebrid.FileSize f)).
  destruct (usingDebrid r).
  - rewrite (mul_comm _ (dec 5 1)), (mul_comm _ (dec 35 2)), (mul_comm _ (dec 15 2)).
    reflexivity.
  - rewrite (cap_fmin 100 _ (of_Z_not_nan _)) by (do 3 eexists; reflexivity).
    rewrite (mul_comm _ (dec 4 1)), (mul_comm _ (dec 3 1)),
      (mul_comm _ (dec 2 1)), (mul_comm _ (dec 1 1)).
    reflexivity.
Qed.

(** The weights of cached files are chosen for the records that carry a
    file list, when no record carries one without a client. *)
Lemma usingDebrid_cached r :
  (Files r <> [] -> RDClient r <> None) ->
  usingDebrid r = Spec.cachedFilesAvailable (Files r).
Proof.
  intros Hc. unfold usingDebrid, Spec.cachedFilesAvailable.
  destruct (Files r) as [|f files]; [destruct (RDClient r); reflexivity|].
  destruct (RDClient r); [reflexivity|].
  exfalso. apply Hc; [discriminate|reflexivity].
Qed.

Lemma usingDebrid_no_client r : RDClient r = None -> usingDebrid r = false.
Proof. intros Hc. unfold usingDebrid. rewrite Hc. reflexivity. Qed.

Ltac listed :=
  repeat (first [apply list_elem_of_here | apply list_elem_of_further]).

(** The switch gives a quality the rank of its tier, but for seven
    spellings. *)
Lemma getQualityScore_tier quality :
  quality ∉ ["hd-rip"; "webdl"; "web-rip"; "dlremux"; "webremux"; "hdtvrip"; "hd-tvrip"] ->
  getQualityScore quality = Spec.qualityTierRank (Spec.tierOf quality).
Proof.
  intros Hq. unfold getQualityScore, Spec.tierOf, Spec.oneOf. cbn [existsb].
  repeat match goal with
  | |- context [String.eqb quality ?s] =>
      destruct (String.eqb_spec quality s) as [->|?]
  end; try reflexivity; exfalso; apply Hq; listed.
Qed.

Lemma getQualityScore_other quality :
  quality ∈ ["hd-rip"; "webdl"; "web-rip"; "dlremux"; "webremux"; "hdtvrip"; "hd-tvrip"] ->
  getQualityScore quality = 3 /\ 3 < Spec.qualityTierRank (Spec.tierOf quality).
Proof.
  intros Hq.
  repeat (apply elem_of_cons in Hq as [->|Hq]; [split; reflexivity|]).
  apply elem_of_nil in Hq. contradiction.
Qed.

(** C1. The score of a record that has a media file is the weighted
    formula of the specification, evaluated in [float64]: with cached
    files 0.50, 0.35 and 0.15 of the resolution, source and size scores,
    without them 0.40 of the seeders capped at 100 and 0.30, 0.20 and 0.10
    of the other three.  Cached files are present when the record carries
    a file list; the lookup attaches one through a debrid client only, and
    a record that had a file list and no client would be scored as not
    cached.  The source score is ten times the rank of the tier, for every
    quality but seven spellings the title parser produces and the switch
    of [getQualityScore] does not list: [hd-rip], [webdl], [web-rip],
    [dlremux], [webremux], [hdtvrip] and [hd-tvrip] are scored with the
    rank 3 of an unknown quality, below the rank of their tier.  A 1080p
    web-dl with 150 seeders and 8 GB, not cached, scores exactly 83; a
    cached 2160p bluray of 25 GB scores exactly 93; the same 1080p record
    with the quality the parser reads in [Movie HD-Rip] scores 71, where
    the formula gives 79. *)
Theorem calculateQualityScore_formula :
  (forall r f,
     MediaFile r = Some f ->
     (Files r <> [] -> RDClient r <> None) ->
     titleparser.Quality (TitleInfo r)
       ∉ ["hd-rip"; "webdl"; "web-rip"; "dlremux"; "webremux"; "hdtvrip"; "hd-tvrip"] ->
     calculateQualityScore r =
     Some (Spec.score (Spec.cachedFilesAvailable (Files r))
             (prowlarr.Seeders (Torrent r))
             (titleparser.Resolution (TitleInfo r))
             (Spec.qualityTierRank (Spec.tierOf (titleparser.Quality (TitleInfo r))))
             (realdebrid.FileSize f)))
  /\ (forall r f,
        MediaFile r = Some f ->
        (Files r <> [] -> RDClient r <> None) ->
        titleparser.Quality (TitleInfo r)
          ∈ ["hd-rip"; "webdl"; "web-rip"; "dlremux"; "webremux"; "hdtvrip"; "hd-tvrip"] ->
        calculateQualityScore r =
        Some (Spec.score (Spec.cachedFilesAvailable (Files r))
                (prowlarr.Seeders (Torrent r))
                (titleparser.Resolution (TitleInfo r))
                3
                (realdebrid.FileSize f))
        /\ 3 < Spec.qualityTierRank (Spec.tierOf (titleparser.Quality (TitleInfo r))))
  /\ (forall r f,
        MediaFile r = Some f ->
        RDClient r = None ->
        titleparser.Quality (TitleInfo r)
          ∉ ["hd-rip"; "webdl"; "web-rip"; "dlremux"; "webremux"; "hdtvrip"; "hd-tvrip"] ->
        calculateQualityScore r =
        Some (Spec.score false
                (prowlarr.Seeders (Torrent r))
                (titleparser.Resolution (TitleInfo r))
                (Spec.qualityTierRank (Spec.tierOf (titleparser.Quality (TitleInfo r))))
                (realdebrid.FileSize f)))
  /\ (forall r f, MediaFile r = Some f ->
        titleparser.Resolution (TitleInfo r) = 1080 ->
        titleparser.Quality (TitleInfo r) = "web-dl" ->
        prowlarr.Seeders (Torrent r) = 150 ->
        realdebrid.FileSize f = 8 * 2 ^ 30 ->
        Files r = [] ->
        calculateQualityScore r = Some (of_Z 83))
  /\ (forall r f, MediaFile r = Some f ->
        titleparser.Resolution (TitleInfo r) = 2160 ->
        titleparser.Quality (TitleInfo r) = "bluray" ->
        realdebrid.FileSize f = 25 * 2 ^ 30 ->
        Files r <> [] -> RDClient r <> None ->
        calculateQualityScore r = Some (of_Z 93))
  /\ (titleparser.Quality (TitleInfo Example.hdrip1080) = "hd-rip"
      /\ calculateQualityScore Example.hdrip1080 = Some (of_Z 71)
      /\ Spec.score false 150 1080 (Spec.qualityTierRank (Spec.tierOf "hd-rip")) (8 * 2 ^ 30)
         = of_Z 79).
Proof.
  split; [|split; [|split; [|split; [|split]]]].
  - intros r f Hf Hc Hq.
    rewrite (calculateQualityScore_weighted r f Hf), (usingDebrid_cached r Hc),
      (getQualityScore_tier _ Hq).
    reflexivity.
  - intros r f Hf Hc Hq.
    destruct (getQualityScore_other _ Hq) as [Hrank Htier].
    rewrite (calculateQualityScore_weighted r f Hf), (usingDebrid_cached r Hc), Hrank.
    split; [reflexivity|exact Htier].
  - intros r f Hf Hc Hq.
    rewrite (calculateQualityScore_weighted r f Hf), (usingDebrid_no_client r Hc),
      (getQualityScore_tier _ Hq).
    reflexivity.
  - intros r f Hf Hres Hq Hs Hsz Hfiles.
    rewrite (calculateQualityScore_weighted r f Hf), usingDebrid_cached
      by (rewrite Hfiles; congruence).
    rewrite Hres, Hq, Hs, Hsz, Hfiles. reflexivity.
  - intros r f Hf Hres Hq Hsz Hfiles Hc.
    rewrite (calculateQualityScore_weighted r f Hf), usingDebrid_cached
      by (intros _; exact Hc).
    rewrite Hres, Hq, Hsz.
    destruct (Files r); [contradiction|reflexivity].
  - vm_compute. repeat split.
Qed.

(** The two worked examples, as records, and a 720p record of the
    hyphenated spelling. *)
Lemma calculateQualityScore_examples :
  calculateQualityScore Example.webdl1080 = Some (of_Z 83)
  /\ calculateQualityScore Example.bluray2160 = Some (of_Z 93)
  /\ (calculateQualityScore (Example.plain 720 "hd-rip" 10 1 "c3")
      = Some (Spec.score false 10 720 3 (1 * Example.GB))
      /\ 3 < Spec.qualityTierRank (Spec.tierOf "hd-rip")).
Proof.
  split; [|split].
  - apply (proj1 (proj2 (proj2 (proj2 calculateQualityScore_formula)))
             Example.webdl1080 (Example.file (8 * Example.GB))); reflexivity.
  - apply (proj1 (proj2 (proj2 (proj2 (proj2 calculateQualityScore_formula))))
             Example.bluray2160 (Example.file (25 * Example.GB)));
      try reflexivity; discriminate.
  - apply (proj1 (proj2 calculateQualityScore_formula)
             (Example.plain 720 "hd-rip" 10 1 "c3") (Example.file (1 * Example.GB)));
      [reflexivity|intros Hc; exfalso; apply Hc; reflexivity|listed].
Defined.

End ScoreFacts.

(** ** The order of the scores *)
Module ScoreOrder.
Import Float64 Float64Facts addon.

Lemma mul_nonneg_const x c :
  nonneg x = true -> (exists m e, c = S754_finite false m e) ->
  nonneg (mul x c) = true.
Proof.
  intros Hx (m & e & ->). apply signed_nonneg, mul_signed, signed_nonneg, Hx.
Qed.

Lemma div_nonneg_const x c :
  nonneg x = true -> (exists m e, c = S754_finite false m e) ->
  nonneg (div x c) = true.
Proof.
  intros Hx (m & e & ->). apply signed_nonneg, div_signed, signed_nonneg, Hx.
Qed.

Lemma cap_nonneg c x :
  nonneg c = true -> nonneg x = true -> nonneg (if ltb c x then c else x) = true.
Proof. intros Hc Hx. destruct (ltb c x); assumption. Qed.

Lemma sizeScoreOf_nonneg resolution sizeGB :
  nonneg (sizeScoreOf resolution sizeGB) = true.
Proof.
  unfold sizeScoreOf.
  repeat match goal with |- context [if ?b then _ else _] => destruct b end;
    reflexivity.
Qed.

Ltac finite_const := do 2 eexists; reflexivity.

(** The score of a record that enters scoring is a number, and not a
    negative one. *)
Lemma calculateQualityScore_nonneg r :
  scorable r -> exists s, calculateQualityScore r = Some s /\ nonneg s = true.
Proof.
  intros ((f & Hf & Hsize) & Hres & Hseed).
  unfold calculateQualityScore. rewrite Hf.
  assert (Hr : nonneg (if ltb (of_Z 100)
                            (div (of_Z (titleparser.Resolution (TitleInfo r))) (dec 216 1))
                       then of_Z 100
                       else div (of_Z (titleparser.Resolution (TitleInfo r))) (dec 216 1))
               = true).
  { apply cap_nonneg; [reflexivity|].
    apply div_nonneg_const; [apply of_Z_nonneg, Hres|finite_const]. }
  assert (Hq : nonneg (mul (of_Z (getQualityScore (titleparser.Quality (TitleInfo r))))
                         (of_Z 10)) = true).
  { apply mul_nonneg_const; [|finite_const].
    apply of_Z_nonneg.
    unfold getQualityScore.
    repeat match goal with |- context [if ?b then _ else _] => destruct b end; lia. }
  pose proof (sizeScoreOf_nonneg (titleparser.Resolution (TitleInfo r))
                (div (of_Z (realdebrid.FileSize f)) (of_Z (1024 * 1024 * 1024)))) as Hz.
  destruct (usingDebrid r); eexists; (split; [reflexivity|]).
  - repeat apply add_nonneg; (apply mul_nonneg_const; [assumption|finite_const]).
  - repeat apply add_nonneg; (apply mul_nonneg_const; [|finite_const]); try assumption.
    apply cap_nonneg; [reflexivity|]. apply of_Z_nonneg, Hseed.
Qed.

Lemma byScoreDesc_lt a b sa sb :
  calculateQualityScore a = Some sa -> calculateQualityScore b = Some sb ->
  (byScoreDesc a b < 0 <-> ltb sb sa = true).
Proof.
  intros Ha Hb. unfold byScoreDesc. rewrite Ha, Hb.
  destruct (ltb sb sa); [split; [reflexivity|lia]|].
  destruct (ltb sa sb); split; (lia || discriminate).
Qed.

(** On records that enter scoring the comparison function is a strict
    weak ordering. *)
Lemma byScoreDesc_strictWeakOn x :
  Forall scorable x -> strictWeakOn byScoreDesc x.
Proof.
  intros Hx. rewrite Forall_forall in Hx. split.
  - intros a b Ha Hb Hab.
    destruct (calculateQualityScore_nonneg a (Hx a Ha)) as (sa & Hsa & _).
    destruct (calculateQualityScore_nonneg b (Hx b Hb)) as (sb & Hsb & _).
    rewrite (byScoreDesc_lt a b sa sb Hsa Hsb) in Hab.
    rewrite (byScoreDesc_lt b a sb sa Hsb Hsa).
    rewrite (ltb_asym _ _ Hab). discriminate.
  - intros a b c Ha Hb Hc Hac.
    destruct (calculateQualityScore_nonneg a (Hx a Ha)) as (sa & Hsa & _).
    destruct (calculateQualityScore_nonneg b (Hx b Hb)) as (sb & Hsb & Hnb).
    destruct (calculateQualityScore_nonneg c (Hx c Hc)) as (sc & Hsc & _).
    rewrite (byScoreDesc_lt a c sa sc Hsa Hsc) in Hac.
    rewrite (byScoreDesc_lt a b sa sb Hsa Hsb), (byScoreDesc_lt b c sb sc Hsb Hsc).
    destruct (ltb_cotrans sc sb sa (nonneg_not_nan _ Hnb) Hac); auto.
Qed.

Lemma not_ltb_leb x y :
  is_nan x = false -> is_nan y = false -> ltb x y = false -> leb y x = true.
Proof.
  unfold ltb, leb, SFltb, SFleb. intros Hx Hy.
  rewrite (compare_antisym x y).
  destruct (SFcompare x y) as [[]|] eqn:E; simpl; try reflexivity; try discriminate.
  apply compare_None in E as [E|E]; congruence.
Qed.

Lemma not_byScoreDesc_notBelow a b :
  scorable a -> scorable b -> ~ byScoreDesc b a < 0 -> notBelow a b.
Proof.
  intros Ha Hb Hn.
  destruct (calculateQualityScore_nonneg a Ha) as (sa & Hsa & Hna).
  destruct (calculateQualityScore_nonneg b Hb) as (sb & Hsb & Hnb).
  exists sa, sb. repeat split; try assumption.
  apply not_ltb_leb; try (apply nonneg_not_nan; assumption).
  destruct (ltb sa sb) eqn:E; [|reflexivity].
  exfalso. apply Hn. apply (byScoreDesc_lt b a sb sa Hsb Hsa). exact E.
Qed.

End ScoreOrder.

(** ** The rank of a quality *)
Module RankFacts.
Import addon.

Lemma getQualityScore_range quality : 1 <= getQualityScore quality <= 10.
Proof.
  unfold getQualityScore.
  repeat match goal with |- context [if ?b then _ else _] => destruct b end; lia.
Qed.

(** C7. The rank table on the strings the switch names, and the ranks of
    strings the title parser produces for the same tiers under another
    spelling: the title [Movie HD-Rip] parses to the quality [hd-rip],
    whose rank is 3, not the 7 of [hdrip]; [webdl], [web-rip], [hdtvrip],
    [dlremux] and [webremux] rank 3 as well. *)
Theorem getQualityScore_spellings :
  (getQualityScore "bdremux" = 10 /\ getQualityScore "brremux" = 10
   /\ getQualityScore "web-dl" = 9 /\ getQualityScore "webrip" = 9
   /\ getQualityScore "bluray" = 8 /\ getQualityScore "hdrip" = 7
   /\ getQualityScore "dvdrip" = 6 /\ getQualityScore "dvd" = 5
   /\ getQualityScore "tvrip" = 4 /\ getQualityScore "" = 3
   /\ getQualityScore "cam" = 1 /\ getQualityScore "telesync" = 1)
  /\ titleparser.Quality (titleparser.Parse (H := Example.lib) Example.hdRipTitle) = "hd-rip"
  /\ getQualityScore
       (titleparser.Quality (titleparser.Parse (H := Example.lib) Example.hdRipTitle)) = 3
  /\ (getQualityScore "webdl" = 3 /\ getQualityScore "web-rip" = 3
      /\ getQualityScore "hdtvrip" = 3 /\ getQualityScore "dlremux" = 3
      /\ getQualityScore "webremux" = 3).
Proof. vm_compute. repeat split. Qed.

End RankFacts.

(** ** Configuration and deadline *)
Module ConfigFacts.
Import addon.

Lemma digits_nonneg s :
  forall acc m, 0 <= acc -> strconv.digits acc s = strconv.Magnitude m -> 0 <= m.
Proof.
  induction s as [|c s IH]; intros acc m Hacc Hd; simpl in Hd.
  - injection Hd as <-. exact Hacc.
  - unfold strconv.digit in Hd.
    destruct (_ && _) eqn:Ed; [|discriminate].
    apply andb_true_iff in Ed as [E1 E2].
    destruct (2 ^ 64 <=? _); [discriminate|].
    eapply IH; [|exact Hd]. lia.
Qed.

Lemma unsigned_nonneg s m : strconv.unsigned s = strconv.Magnitude m -> 0 <= m.
Proof.
  destruct s as [|c s]; [discriminate|].
  unfold strconv.unsigned. apply digits_nonneg. lia.
Qed.

Lemma signed_range neg r :
  (forall m, r = strconv.Magnitude m -> 0 <= m) ->
  strconv.minInt <= fst (strconv.signed neg r) <= strconv.maxInt.
Proof.
  intros Hr. unfold strconv.signed, strconv.minInt, strconv.maxInt.
  destruct r as [| |n]; [destruct neg; simpl; lia..|].
  specialize (Hr n eq_refl).
  destruct neg; simpl.
  - destruct (2 ^ 63 <? n) eqn:E; simpl; lia.
  - destruct (2 ^ 63 <=? n) eqn:E; simpl; lia.
Qed.

Lemma Atoi_range s : strconv.minInt <= fst (strconv.Atoi s) <= strconv.maxInt.
Proof.
  unfold strconv.Atoi.
  destruct s as [|c s']; [apply signed_range; discriminate|].
  repeat match goal with
  | |- context [match ?a with Ascii _ _ _ _ _ _ _ _ => _ end] => destruct a
  | |- context [if ?b then _ else _] => destruct b
  end; apply signed_range; intros m; apply unsigned_nonneg.
Qed.

Example Atoi_examples :
  strconv.Atoi "60" = (60, true)
  /\ strconv.Atoi "-7" = (-7, true)
  /\ strconv.Atoi "+12" = (12, true)
  /\ strconv.Atoi "" = (0, false)
  /\ strconv.Atoi "1.5" = (0, false)
  /\ strconv.Atoi "9223372036854775808" = (9223372036854775807, false)
  /\ strconv.Atoi "-99999999999999999999" = (-9223372036854775808, false).
Proof. vm_compute. repeat split. Qed.

Lemma timeoutSeconds_bounds u : 10 <= timeoutSeconds u <= 120.
Proof.
  unfold timeoutSeconds. destruct (strconv.Atoi _) as [n ok].
  destruct ok; simpl; [|lia].
  destruct (n <? 10) eqn:E1; simpl; [lia|].
  destruct (120 <? n) eqn:E2; lia.
Qed.

(** C9. The deadline is between 10 and 120 seconds; a timeout that parses
    to a value in that range is used as given, one that does not parse or
    lies outside it gives 45.  A caller who leaves the timeout unset does
    not reach that fallback: the configuration defaults put 60 in its
    place, and the deadline is 60 seconds, as it is on the route without
    user data. *)
Theorem timeoutSeconds_unset :
  (forall u, 10 <= timeoutSeconds u <= 120)
  /\ (forall u n, strconv.Atoi (SearchTimeout u) = (n, true) ->
        10 <= n <= 120 -> timeoutSeconds u = n)
  /\ (forall u n ok, strconv.Atoi (SearchTimeout u) = (n, ok) ->
        ok = false \/ n < 10 \/ 120 < n -> timeoutSeconds u = 45)
  /\ (forall u, SearchTimeout u = "" ->
        timeoutSeconds u = 45 /\ timeoutSeconds (ApplyDefaults u) = 60)
  /\ (forall add u cfg, SearchTimeout u = "" ->
        streamsUserData add (Decoded u) = inl cfg ->
        streamsTimeout add (Decoded u) = Some 60)
  /\ (forall add cfg, streamsUserData add NoUserData = inl cfg ->
        streamsTimeout add NoUserData = Some 60)
  /\ streamsTimeout Example.envAddon (Decoded Example.unsetConfig) = Some 60.
Proof.
  split; [exact timeoutSeconds_bounds|].
  split.
  { intros u n Hp Hn. unfold timeoutSeconds. rewrite Hp. simpl.
    destruct (n <? 10) eqn:E1; [lia|]. destruct (120 <? n) eqn:E2; [lia|].
    reflexivity. }
  split.
  { intros u n ok Hp Hn. unfold timeoutSeconds. rewrite Hp.
    destruct ok; simpl; [|reflexivity].
    destruct (n <? 10) eqn:E1; [reflexivity|].
    destruct (120 <? n) eqn:E2; [reflexivity|].
    destruct Hn as [Hn|Hn]; [discriminate|lia]. }
  split.
  { intros u Hu. unfold timeoutSeconds, ApplyDefaults. simpl. rewrite Hu.
    split; reflexivity. }
  split.
  { intros add u cfg Hu Hcfg. unfold streamsTimeout. rewrite Hcfg.
    unfold streamsUserData in Hcfg.
    destruct (parseUserData add (Decoded u)) as [cfg'|e] eqn:Hp; [|discriminate].
    injection Hcfg as <-.
    unfold parseUserData in Hp.
    repeat match type of Hp with
    | (if ?b then _ else _) = _ => destruct b; try discriminate
    end.
    injection Hp as <-.
    unfold timeoutSeconds, ApplyDefaults. simpl. rewrite Hu. reflexivity. }
  split.
  { intros add cfg Hcfg. unfold streamsTimeout. rewrite Hcfg.
    unfold streamsUserData in Hcfg.
    destruct (_ || _); [|discriminate]. injection Hcfg as <-. reflexivity. }
  reflexivity.
Qed.

Lemma timeoutSeconds_examples :
  timeoutSeconds (Example.timeoutConfig "30") = 30
  /\ timeoutSeconds (Example.timeoutConfig "5") = 45
  /\ timeoutSeconds (Example.timeoutConfig "soon") = 45
  /\ streamsTimeout Example.envAddon (Decoded Example.unsetConfig) = Some 60
  /\ streamsTimeout Example.envAddon NoUserData = Some 60.
Proof.
  split; [|split; [|split; [|split]]].
  - apply (proj1 (proj2 timeoutSeconds_unset) (Example.timeoutConfig "30") 30);
      [reflexivity|lia].
  - apply (proj1 (proj2 (proj2 timeoutSeconds_unset)) (Example.timeoutConfig "5") 5 true);
      [reflexivity|right; left; lia].
  - apply (proj1 (proj2 (proj2 timeoutSeconds_unset)) (Example.timeoutConfig "soon") 0 false);
      [reflexivity|left; reflexivity].
  - apply (proj1 (proj2 (proj2 (proj2 (proj2 timeoutSeconds_unset)))) Example.envAddon
             Example.unsetConfig (ApplyDefaults Example.unsetConfig)); reflexivity.
  - apply (proj1 (proj2 (proj2 (proj2 (proj2 (proj2 timeoutSeconds_unset))))) Example.envAddon
             NewUserDataWithDefaults); reflexivity.
Defined.

End ConfigFacts.

(** ** The title parser *)
Module ParserFacts.
Import titleparser.

Section Language.
Context `{GoLib}.

Ltac keeps :=
  intros title mi; cbv beta delta [parseYear parseResolution matchAndSetResolution
    parseQuality matchAndSetQuality parseCodec parseAudio matchAndSetAudio
    parseContainer parse3D parseSeasonAndEpisode parseMultiSeason
    parseSingleSeason parseLanguage parseFillerWords];
  repeat match goal with
  | |- context [let '(_, _) := ?e in _] => destruct e
  | |- context [if ?b then _ else _] => destruct b
  | |- context [match ?e with Some _ => _ | None => _ end] => destruct e
  end; reflexivity.

Lemma parseYear_keeps pattern : keepsLanguage (parseYear pattern).
Proof. keeps. Qed.
Lemma parseResolution_keeps pattern : keepsLanguage (parseResolution pattern).
Proof. keeps. Qed.
Lemma matchAndSetResolution_keeps pattern v : keepsLanguage (matchAndSetResolution pattern v).
Proof. keeps. Qed.
Lemma parseQuality_keeps pattern : keepsLanguage (parseQuality pattern).
Proof. keeps. Qed.
Lemma matchAndSetQuality_keeps pattern v : keepsLanguage (matchAndSetQuality pattern v).
Proof. keeps. Qed.
Lemma parseCodec_keeps pattern : keepsLanguage (parseCodec pattern).
Proof. keeps. Qed.
Lemma parseAudio_keeps pattern : keepsLanguage (parseAudio pattern).
Proof. keeps. Qed.
Lemma matchAndSetAudio_keeps pattern v : keepsLanguage (matchAndSetAudio pattern v).
Proof. keeps. Qed.
Lemma parseContainer_keeps pattern : keepsLanguage (parseContainer pattern).
Proof. keeps. Qed.
Lemma parse3D_keeps pattern : keepsLanguage (parse3D pattern).
Proof. keeps. Qed.
Lemma parseSeasonAndEpisode_keeps pattern : keepsLanguage (parseSeasonAndEpisode pattern).
Proof. keeps. Qed.
Lemma parseMultiSeason_keeps pattern : keepsLanguage (parseMultiSeason pattern).
Proof. keeps. Qed.
Lemma parseSingleSeason_keeps pattern : keepsLanguage (parseSingleSeason pattern).
Proof. keeps. Qed.
Lemma parseLanguage_keeps pattern : keepsLanguage (parseLanguage pattern).
Proof. keeps. Qed.
Lemma parseFillerWords_keeps pattern : keepsLanguage (parseFillerWords pattern).
Proof. keeps. Qed.

Lemma parsers_keep : Forall keepsLanguage parsers.
Proof.
  unfold parsers.
  repeat (apply Forall_cons; split;
          [first [ apply parseYear_keeps | apply parseResolution_keeps
                 | apply matchAndSetResolution_keeps | apply parseQuality_keeps
                 | apply matchAndSetQuality_keeps | apply parseCodec_keeps
                 | apply parseAudio_keeps | apply matchAndSetAudio_keeps
                 | apply parseContainer_keeps | apply parse3D_keeps
                 | apply parseSeasonAndEpisode_keeps | apply parseMultiSeason_keeps
                 | apply parseSingleSeason_keeps | apply parseLanguage_keeps
                 | apply parseFillerWords_keeps ]|]).
  apply Forall_nil_2.
Qed.

Lemma fold_step_keeps title ps :
  Forall keepsLanguage ps ->
  forall st, Language (snd (fold_left (step title) ps st)) = Language (snd st).
Proof.
  induction 1 as [|p ps Hp _ IH]; intros st; simpl; [reflexivity|].
  rewrite IH. destruct st as [index m]. unfold step.
  specialize (Hp title m). destruct (p title m) as [nextIndex m']. simpl in Hp.
  destruct (_ && _); exact Hp.
Qed.

End Language.

(** C10. Whatever the regular-expression engine answers, [Parse]
    returns a [MetaInfo] whose [Language] is empty: no parser of the list
    changes [Language].  The language parser is in the list and, while
    [Quality] is empty, stores the lower-cased text of its last match in
    [Quality]. *)
Theorem Parse_Language_empty :
  (forall (lib : GoLib) title, Language (Parse title) = "")
  /\ (forall (lib : GoLib) p title mi,
        p ∈ parsers -> Language (snd (p title mi)) = Language mi)
  /\ (forall (lib : GoLib), parseLanguage languagePattern ∈ parsers)
  /\ (forall (lib : GoLib) title mi a b,
        Quality mi = "" ->
        last (FindAllStringIndex languagePattern title) = Some (a, b) ->
        parseLanguage languagePattern title mi
        = (a, setQuality (ToLower (slice title a b)) mi)).
Proof.
  repeat split.
  - intros lib title. unfold Parse.
    pose proof (fold_step_keeps title parsers parsers_keep (len title, zero)) as Hk.
    destruct (fold_left _ _ _) as [index m]. simpl in Hk. exact Hk.
  - intros lib p title mi Hp.
    pose proof parsers_keep as Hall. rewrite Forall_forall in Hall.
    exact (Hall p Hp title mi).
  - intros lib. unfold parsers, languagePattern.
    repeat (first [apply list_elem_of_here | apply list_elem_of_further]).
  - intros lib title mi a b Hq Hlast.
    unfold parseLanguage, findValue. rewrite Hq, Hlast. reflexivity.
Qed.

(** The title [Film FRENCH]: the match goes to [Quality]. *)
Lemma Parse_french :
  parseLanguage (H := Example.lib) languagePattern Example.frenchTitle zero
  = (5, setQuality "french" zero)
  /\ Quality (Parse (H := Example.lib) Example.frenchTitle) = "french"
  /\ Language (Parse (H := Example.lib) Example.frenchTitle) = "".
Proof.
  split; [|split].
  - apply (proj2 (proj2 (proj2 Parse_Language_empty)) Example.lib
             Example.frenchTitle zero 5 11); reflexivity.
  - vm_compute. reflexivity.
  - apply (proj1 Parse_Language_empty).
Defined.

End ParserFacts.

(** ** The exclusion filter *)
Module ExcludeFacts.
Import addon ConfigFacts.

Lemma to_uint_minSeedersOf u : 1 <= to_uint (minSeedersOf u).
Proof.
  unfold minSeedersOf, to_uint.
  pose proof (Atoi_range (MinSeeders u)) as Hr.
  unfold strconv.minInt, strconv.maxInt in Hr.
  destruct (fst (strconv.Atoi (MinSeeders u)) =? 0) eqn:E; [reflexivity|].
  apply Z.eqb_neq in E.
  remember (fst (strconv.Atoi (MinSeeders u))) as n.
  change (2 ^ 64) with 18446744073709551616.
  change (2 ^ 63) with 9223372036854775808 in Hr.
  clear Heqn.
  pose proof (Z.mod_pos_bound n 18446744073709551616 eq_refl) as Hb.
  pose proof (Z.div_mod n 18446744073709551616) as Hd.
  nia.
Qed.

Lemma excludeTorrents_seedersOK `{GoLib} r :
  excludeTorrents r = true -> seedersOK r = true.
Proof.
  unfold excludeTorrents.
  destruct (seedersOK r); [reflexivity|].
  rewrite !andb_false_r. simpl. discriminate.
Qed.

(** A value [strconv.Atoi] does not accept reads as 0 (a syntax error) or
    as a bound of [int] (a numeral out of range). *)
Lemma Atoi_failed s :
  snd (strconv.Atoi s) = false ->
  fst (strconv.Atoi s) = 0
  \/ fst (strconv.Atoi s) = 2 ^ 63 - 1
  \/ fst (strconv.Atoi s) = - 2 ^ 63.
Proof.
  assert (Hsigned : forall neg r,
             snd (strconv.signed neg r) = false ->
             fst (strconv.signed neg r) = 0
             \/ fst (strconv.signed neg r) = 2 ^ 63 - 1
             \/ fst (strconv.signed neg r) = - 2 ^ 63).
  { intros neg r. unfold strconv.signed, strconv.maxInt, strconv.minInt.
    destruct r as [| |n]; [auto|destruct neg; auto|].
    destruct (negb neg && (2 ^ 63 <=? n)); [auto|].
    destruct (neg && (2 ^ 63 <? n)); [auto|]. discriminate. }
  unfold strconv.Atoi.
  destruct s as [|c s']; [apply Hsigned|].
  destruct (Ascii.eqb_spec c "-") as [->|?]; [apply Hsigned|].
  destruct (Ascii.eqb_spec c "+") as [->|?]; [apply Hsigned|].
  destruct c as [[] [] [] [] [] [] [] []]; try apply Hsigned; congruence.
Qed.

(** The criterion on the seeders, with the value [strconv.Atoi] reads in
    the configuration: 0 counts as 1, every other value is converted to
    [uint]. *)
Lemma seedersOK_threshold r :
  seedersOK r = true
  <-> (if fst (strconv.Atoi (MinSeeders (userData r))) =? 0 then 1
       else fst (strconv.Atoi (MinSeeders (userData r))) mod 2 ^ 64)
      <= prowlarr.Seeders (Torrent r).
Proof.
  unfold seedersOK, minSeedersOf, to_uint.
  destruct (fst (strconv.Atoi (MinSeeders (userData r))) =? 0);
    rewrite Z.leb_le; reflexivity.
Qed.

Lemma streamsUserData_MinSeeders add u cfg :
  MinSeeders u = "" -> streamsUserData add (Decoded u) = inl cfg ->
  MinSeeders cfg = "10".
Proof.
  intros Hu Hcfg. unfold streamsUserData in Hcfg.
  destruct (parseUserData add (Decoded u)) as [cfg'|e] eqn:Hp; [|discriminate].
  injection Hcfg as <-.
  unfold parseUserData in Hp.
  repeat match type of Hp with
  | (if ?b then _ else _) = _ => destruct b; try discriminate
  end.
  injection Hp as <-.
  unfold ApplyDefaults. simpl. rewrite Hu. reflexivity.
Qed.

(** C8, as the code has it.  The filter keeps a record only if it has
    [minSeeders] seeders or more, where [minSeeders] is the value
    [strconv.Atoi] reads in the configuration, converted to [uint]; a
    value that reads as 0 (an empty value, one that is no numeral, or
    zero) counts as 1.  A value that does not parse reads as 0 or, when it
    is a numeral out of the range of [int], as the nearest bound of [int],
    and the bound is then the minimum.  The value of a caller who leaves
    it unset is not empty in the filter: the configuration defaults put
    their own value, the string [10], in its place before the pipeline
    runs, and the filter then keeps a record only if it has 10 seeders or
    more.  Under every configuration a record without seeders is
    dropped. *)
Theorem excludeTorrents_minSeeders :
  (forall (lib : GoLib) r, excludeTorrents r = true ->
     (if fst (strconv.Atoi (MinSeeders (userData r))) =? 0 then 1
      else fst (strconv.Atoi (MinSeeders (userData r))) mod 2 ^ 64)
     <= prowlarr.Seeders (Torrent r))
  /\ (forall r,
        seedersOK r = true
        <-> (if fst (strconv.Atoi (MinSeeders (userData r))) =? 0 then 1
             else fst (strconv.Atoi (MinSeeders (userData r))) mod 2 ^ 64)
            <= prowlarr.Seeders (Torrent r))
  /\ (forall r, fst (strconv.Atoi (MinSeeders (userData r))) = 0 ->
        (seedersOK r = true <-> 1 <= prowlarr.Seeders (Torrent r)))
  /\ (forall r, MinSeeders (userData r) = "" ->
        (seedersOK r = true <-> 1 <= prowlarr.Seeders (Torrent r)))
  /\ (forall r, snd (strconv.Atoi (MinSeeders (userData r))) = false ->
        (fst (strconv.Atoi (MinSeeders (userData r))) = 0
         /\ (seedersOK r = true <-> 1 <= prowlarr.Seeders (Torrent r)))
        \/ (fst (strconv.Atoi (MinSeeders (userData r))) = 2 ^ 63 - 1
            /\ (seedersOK r = true <-> 2 ^ 63 - 1 <= prowlarr.Seeders (Torrent r)))
        \/ (fst (strconv.Atoi (MinSeeders (userData r))) = - 2 ^ 63
            /\ (seedersOK r = true <-> 2 ^ 63 <= prowlarr.Seeders (Torrent r))))
  /\ (forall add u cfg, MinSeeders u = "" ->
        streamsUserData add (Decoded u) = inl cfg ->
        MinSeeders cfg = "10")
  /\ (forall add cfg, streamsUserData add NoUserData = inl cfg ->
        MinSeeders cfg = "10")
  /\ (forall (lib : GoLib) add u r, MinSeeders u = "" ->
        streamsUserData add (Decoded u) = inl (userData r) ->
        excludeTorrents r = true ->
        10 <= prowlarr.Seeders (Torrent r))
  /\ (forall (lib : GoLib) r, prowlarr.Seeders (Torrent r) = 0 ->
        excludeTorrents r = false).
Proof.
  split.
  { intros lib r Hk. apply excludeTorrents_seedersOK in Hk.
    apply seedersOK_threshold, Hk. }
  split; [exact seedersOK_threshold|].
  assert (Hzero : forall r, fst (strconv.Atoi (MinSeeders (userData r))) = 0 ->
        (seedersOK r = true <-> 1 <= prowlarr.Seeders (Torrent r))).
  { intros r Hz. rewrite seedersOK_threshold, Hz. reflexivity. }
  split; [exact Hzero|].
  split.
  { intros r He. apply Hzero. rewrite He. reflexivity. }
  split.
  { intros r Hfail.
    destruct (Atoi_failed _ Hfail) as [E|[E|E]].
    - left. split; [exact E|apply Hzero, E].
    - right; left. split; [exact E|]. rewrite seedersOK_threshold, E. reflexivity.
    - right; right. split; [exact E|]. rewrite seedersOK_threshold, E. reflexivity. }
  split; [exact streamsUserData_MinSeeders|].
  split.
  { intros add cfg Hcfg. unfold streamsUserData in Hcfg.
    destruct (_ || _); [|discriminate]. injection Hcfg as <-. reflexivity. }
  split.
  { intros lib add u r Hu Hcfg Hk.
    apply excludeTorrents_seedersOK in Hk.
    rewrite seedersOK_threshold in Hk.
    rewrite (streamsUserData_MinSeeders add u _ Hu Hcfg) in Hk. exact Hk. }
  intros lib r Hs.
  destruct (excludeTorrents r) eqn:E; [|reflexivity].
  apply excludeTorrents_seedersOK in E. unfold seedersOK in E.
  pose proof (to_uint_minSeedersOf (userData r)). lia.
Qed.

(** A caller leaves the minimum of seeders unset; a record with three
    seeders is dropped, and for its seeders alone: with ten seeders the
    same record is kept. *)
Lemma excludeTorrents_unset_three :
  MinSeeders Example.unsetConfig = ""
  /\ streamsUserData Example.envAddon (Decoded Example.unsetConfig)
     = inl (userData (Example.seeded 3))
  /\ prowlarr.Seeders (Torrent (Example.seeded 3)) = 3
  /\ 1 <= prowlarr.Seeders (Torrent (Example.seeded 3))
  /\ seedersOK (Example.seeded 3) = false
  /\ (forall lib : GoLib, excludeTorrents (Example.seeded 3) = false)
  /\ excludeTorrents (H := Example.callerLib) (Example.seeded 10) = true.
Proof.
  split; [reflexivity|]. split; [reflexivity|]. split; [reflexivity|].
  split; [vm_compute; discriminate|]. split; [reflexivity|].
  split; [|vm_compute; reflexivity].
  intros lib. unfold excludeTorrents.
  change (seedersOK (Example.seeded 3)) with false.
  rewrite !andb_false_r. reflexivity.
Qed.

(** The minimum configured as zero, as a word, as a numeral out of range
    and left unset. *)
Lemma excludeTorrents_minSeeders_examples :
  (seedersOK (Example.record 1080 "web-dl" 1 (2 * Example.GB) "cc" None [] None
                (Example.seedersConfig "0")) = true
   <-> 1 <= 1)
  /\ ((fst (strconv.Atoi "many") = 0
       /\ (seedersOK (Example.record 1080 "web-dl" 1 (2 * Example.GB) "cc" None [] None
                        (Example.seedersConfig "many")) = true
           <-> 1 <= 1))
      \/ (fst (strconv.Atoi "many") = 2 ^ 63 - 1
          /\ (seedersOK (Example.record 1080 "web-dl" 1 (2 * Example.GB) "cc" None [] None
                           (Example.seedersConfig "many")) = true
              <-> 2 ^ 63 - 1 <= 1))
      \/ (fst (strconv.Atoi "many") = - 2 ^ 63
          /\ (seedersOK (Example.record 1080 "web-dl" 1 (2 * Example.GB) "cc" None [] None
                           (Example.seedersConfig "many")) = true
              <-> 2 ^ 63 <= 1)))
  /\ ((fst (strconv.Atoi "99999999999999999999") = 0
       /\ (seedersOK (Example.record 1080 "web-dl" 500 (2 * Example.GB) "cc" None [] None
                        (Example.seedersConfig "99999999999999999999")) = true
           <-> 1 <= 500))
      \/ (fst (strconv.Atoi "99999999999999999999") = 2 ^ 63 - 1
          /\ (seedersOK (Example.record 1080 "web-dl" 500 (2 * Example.GB) "cc" None [] None
                           (Example.seedersConfig "99999999999999999999")) = true
              <-> 2 ^ 63 - 1 <= 500))
      \/ (fst (strconv.Atoi "99999999999999999999") = - 2 ^ 63
          /\ (seedersOK (Example.record 1080 "web-dl" 500 (2 * Example.GB) "cc" None [] None
                           (Example.seedersConfig "99999999999999999999")) = true
              <-> 2 ^ 63 <= 500)))
  /\ MinSeeders (ApplyDefaults Example.unsetConfig) = "10"
  /\ 10 <= prowlarr.Seeders (Torrent (Example.seeded 10))
  /\ excludeTorrents (H := Example.lib) (Example.seeded 0) = false.
Proof.
  split; [|split; [|split; [|split; [|split]]]].
  - apply (proj1 (proj2 (proj2 excludeTorrents_minSeeders))). reflexivity.
  - apply (proj1 (proj2 (proj2 (proj2 (proj2 excludeTorrents_minSeeders))))
             (Example.record 1080 "web-dl" 1 (2 * Example.GB) "cc" None [] None
                (Example.seedersConfig "many"))).
    reflexivity.
  - apply (proj1 (proj2 (proj2 (proj2 (proj2 excludeTorrents_minSeeders))))
             (Example.record 1080 "web-dl" 500 (2 * Example.GB) "cc" None [] None
                (Example.seedersConfig "99999999999999999999"))).
    reflexivity.
  - apply (proj1 (proj2 (proj2 (proj2 (proj2 (proj2 excludeTorrents_minSeeders)))))
             Example.envAddon Example.unsetConfig); reflexivity.
  - apply (proj1 (proj2 (proj2 (proj2 (proj2 (proj2 (proj2
             (proj2 excludeTorrents_minSeeders)))))))
             Example.lib Example.envAddon Example.unsetConfig (Example.seeded 10));
      [reflexivity|reflexivity|vm_compute; reflexivity].
  - apply (proj2 (proj2 (proj2 (proj2 (proj2 (proj2 (proj2
             (proj2 excludeTorrents_minSeeders)))))))). reflexivity.
Defined.

End ExcludeFacts.

(** ** The media file locator *)
Module LocateFacts.
Import addon.

(** C6, as the code has it.  With a debrid client and a file list, the
    record is dropped when the selected file is below 100 MB or at 30 GB
    and above, and an emitted record carries, as its media file, a selected
    file of at least 100 MB and less than 30 GB.  Without a client or
    without files the record is emitted with the descriptor built from the
    torrent as its media file, whatever its size.  An emitted record is the
    record that came in every field but the media file. *)
Theorem locateMediaFile_size :
  (forall (lib : GoLib) r c f files f',
      RDClient r = Some c -> Files r = f :: files ->
      selectMediaFile r = inl (Some f') ->
      realdebrid.FileSize f' < 100 * 2 ^ 20 \/ 30 * 2 ^ 30 <= realdebrid.FileSize f' ->
      locateMediaFile r = ([], None))
  /\ (forall (lib : GoLib) r c f files out,
        RDClient r = Some c -> Files r = f :: files ->
        out ∈ (locateMediaFile r).1 ->
        exists f', selectMediaFile r = inl (Some f')
                   /\ MediaFile out = Some f'
                   /\ Frame.sameButMediaFile r out
                   /\ 100 * 2 ^ 20 <= realdebrid.FileSize f' < 30 * 2 ^ 30)
  /\ (forall (lib : GoLib) r,
        RDClient r = None \/ Files r = [] ->
        exists out,
          locateMediaFile r = ([out], None)
          /\ MediaFile out
             = Some {| realdebrid.ID := prowlarr.InfoHash (Torrent r);
                       realdebrid.FileName := prowlarr.FileName (Torrent r);
                       realdebrid.FileSize := prowlarr.Size (Torrent r) |}
          /\ Frame.sameButMediaFile r out).
Proof.
  split; [|split].
  - intros lib r c f files f' Hc Hf Hsel Hsize.
    unfold locateMediaFile. rewrite Hc, Hf, Hsel.
    destruct (_ || _) eqn:E; [reflexivity|].
    apply orb_false_iff in E as [E1 E2].
    unfold minSizeInBytes in E2. unfold maxSizeInBytes in E1.
    rewrite Z.shiftl_mul_pow2 in E1, E2; lia.
  - intros lib r c f files out Hc Hf Hout.
    unfold locateMediaFile in Hout. rewrite Hc, Hf in Hout.
    destruct (selectMediaFile r) as [[f'|]|e]; simpl in Hout;
      try (apply elem_of_nil in Hout; contradiction).
    destruct (_ || _) eqn:E; simpl in Hout;
      [apply elem_of_nil in Hout; contradiction|].
    apply list_elem_of_singleton in Hout. subst out.
    apply orb_false_iff in E as [E1 E2].
    exists f'. split; [reflexivity|]. split; [reflexivity|].
    split; [repeat split|].
    unfold minSizeInBytes in E2. unfold maxSizeInBytes in E1.
    rewrite Z.shiftl_mul_pow2 in E1, E2; lia.
  - intros lib r Hr.
    exists (setMediaFile
              (Some {| realdebrid.ID := prowlarr.InfoHash (Torrent r);
                       realdebrid.FileName := prowlarr.FileName (Torrent r);
                       realdebrid.FileSize := prowlarr.Size (Torrent r) |}) r).
    split; [|split; [reflexivity|repeat split]].
    destruct Hr as [Hn|He]; unfold locateMediaFile.
    + rewrite Hn. reflexivity.
    + rewrite He. destruct (RDClient r); reflexivity.
Qed.

(** A caller has the search service alone and allows torrents of up to
    100 GB.  A torrent of 50 GB passes the exclusion filter, the
    deduplication and the lookup, and the locator emits it with a media
    file of 50 GB. *)
Lemma locateMediaFile_large :
  (streamsUserData Example.searchOnlyAddon (Decoded (Example.maxSizeConfig "100"))
   = inl (userData Example.large)
   /\ RDClient Example.large = None)
  /\ excludeTorrents (H := Example.callerLib) Example.large = true
  /\ dedupFilter ∅ [Example.large] = [Example.large]
  /\ (forall GetFiles,
        enrichWithCachedFiles GetFiles [Example.large] = ([Example.large], None))
  /\ (exists out f,
        locateMediaFile (H := Example.callerLib) Example.large = ([out], None)
        /\ MediaFile out = Some f
        /\ realdebrid.FileSize f = 50 * 2 ^ 30
        /\ 30 * 2 ^ 30 <= realdebrid.FileSize f).
Proof.
  split; [split; reflexivity|].
  split; [vm_compute; reflexivity|].
  split; [vm_compute; reflexivity|].
  split; [intros GetFiles; reflexivity|].
  do 2 eexists. split; [reflexivity|]. split; [reflexivity|].
  split; [reflexivity|]. vm_compute. discriminate.
Qed.

Lemma locateMediaFile_size_examples :
  locateMediaFile (H := Example.lib) (Example.cachedMovie (40 * Example.GB)) = ([], None)
  /\ (exists f', selectMediaFile (H := Example.lib) (Example.cachedMovie Example.GB) = inl (Some f')
                 /\ MediaFile (setMediaFile (Some (Example.file Example.GB))
                                 (Example.cachedMovie Example.GB)) = Some f'
                 /\ Frame.sameButMediaFile (Example.cachedMovie Example.GB)
                      (setMediaFile (Some (Example.file Example.GB))
                         (Example.cachedMovie Example.GB))
                 /\ 100 * 2 ^ 20 <= realdebrid.FileSize f' < 30 * 2 ^ 30)
  /\ (exists out,
        locateMediaFile (H := Example.callerLib) Example.large = ([out], None)
        /\ MediaFile out
           = Some {| realdebrid.ID := "dd"; realdebrid.FileName := "";
                     realdebrid.FileSize := 50 * Example.GB |}
        /\ Frame.sameButMediaFile Example.large out).
Proof.
  split; [|split].
  - apply (proj1 locateMediaFile_size Example.lib _ Example.client
             (Example.file (40 * Example.GB)) [] (Example.file (40 * Example.GB)));
      [reflexivity|reflexivity|reflexivity|right; vm_compute; discriminate].
  - apply (proj1 (proj2 locateMediaFile_size) Example.lib _ Example.client
             (Example.file Example.GB) []); [reflexivity|reflexivity|].
    vm_compute. apply list_elem_of_here.
  - apply (proj2 (proj2 locateMediaFile_size) Example.callerLib Example.large).
    left. reflexivity.
Defined.

End LocateFacts.

(** ** Deduplication *)
Module DedupFacts.
Import addon.

Abbreviation hashOf r := (prowlarr.InfoHash (Torrent r)).

Lemma deduplicateTorrent_cases found r :
  deduplicateTorrent found r =
  if decide (hashOf r = "") then (false, found)
  else if decide (hashOf r ∈ found) then (false, found)
  else (true, {[hashOf r]} ∪ found).
Proof.
  unfold deduplicateTorrent.
  destruct (String.eqb_spec (hashOf r) "") as [He|He].
  - rewrite decide_True by exact He. reflexivity.
  - rewrite decide_False by exact He.
    destruct (decide (hashOf r ∈ found)) as [Hin|Hin].
    + rewrite bool_decide_eq_true_2 by exact Hin. reflexivity.
    + rewrite bool_decide_eq_false_2 by exact Hin. reflexivity.
Qed.

(** The survivors that carry a given hash: none when the hash was stored
    before, else the first record that carries it. *)
Lemma dedupFilter_hash h records :
  h <> "" ->
  forall found,
    filter (fun r => hashOf r = h) (dedupFilter found records)
    = if decide (h ∈ found) then []
      else take 1 (filter (fun r => hashOf r = h) records).
Proof.
  intros Hh. induction records as [|r rest IH]; intros found; simpl.
  - destruct (decide (h ∈ found)); reflexivity.
  - rewrite deduplicateTorrent_cases.
    destruct (decide (hashOf r = "")) as [He|He].
    { rewrite IH. rewrite (filter_cons_False _ r) by congruence. reflexivity. }
    destruct (decide (hashOf r ∈ found)) as [Hin|Hin].
    { rewrite IH. destruct (decide (h ∈ found)) as [Hf|Hf]; [reflexivity|].
      rewrite (filter_cons_False _ r); [reflexivity|].
      intros Heq. rewrite Heq in Hin. contradiction. }
    destruct (decide (hashOf r = h)) as [Heq|Hne].
    + rewrite !(filter_cons_True _ r) by exact Heq. rewrite IH.
      subst h. rewrite decide_True by (apply elem_of_union; left; apply elem_of_singleton; reflexivity).
      rewrite decide_False by exact Hin. reflexivity.
    + rewrite !(filter_cons_False _ r) by exact Hne. rewrite IH.
      destruct (decide (h ∈ found)) as [Hf|Hf].
      * rewrite decide_True by (apply elem_of_union; right; exact Hf).
        reflexivity.
      * rewrite decide_False; [reflexivity|].
        intros Hc. apply elem_of_union in Hc as [Hc|Hc]; [|contradiction].
        apply elem_of_singleton in Hc. congruence.
Qed.

Lemma dedupFilter_nonempty records :
  forall found r, r ∈ dedupFilter found records -> hashOf r <> "".
Proof.
  induction records as [|r0 rest IH]; intros found r Hr; simpl in Hr.
  - apply elem_of_nil in Hr. contradiction.
  - rewrite deduplicateTorrent_cases in Hr.
    destruct (decide (hashOf r0 = "")) as [He|He]; [eauto|].
    destruct (decide (hashOf r0 ∈ found)); [eauto|].
    apply elem_of_cons in Hr as [->|Hr]; eauto.
Qed.

Lemma dedupFilter_sublist records :
  forall found, sublist (dedupFilter found records) records.
Proof.
  induction records as [|r rest IH]; intros found; simpl.
  - constructor.
  - destruct (deduplicateTorrent found r) as [[] found'].
    + apply sublist_skip, IH.
    + apply sublist_cons, IH.
Qed.

(** C2. Through the deduplication filter no record with an empty hash
    survives, and of the records that share a non-empty hash exactly one
    survives, the first of them; the survivors are records of the input,
    in their order. *)
Theorem dedupFilter_first_wins :
  (forall records r,
      r ∈ dedupFilter ∅ records -> prowlarr.InfoHash (Torrent r) <> "")
  /\ (forall records h first others,
        h <> "" ->
        filter (fun r => prowlarr.InfoHash (Torrent r) = h) records = first :: others ->
        filter (fun r => prowlarr.InfoHash (Torrent r) = h) (dedupFilter ∅ records)
        = [first])
  /\ (forall records, sublist (dedupFilter ∅ records) records).
Proof.
  split; [|split].
  - intros records r. apply dedupFilter_nonempty.
  - intros records h first others Hh Hf.
    rewrite (dedupFilter_hash h records Hh ∅).
    rewrite decide_False by apply not_elem_of_empty. rewrite Hf. reflexivity.
  - intros records. apply dedupFilter_sublist.
Qed.

(** Two records share the hash [a1], one has none: the first of the two
    survives, alone of its hash. *)
Lemma dedupFilter_first_wins_example :
  filter (fun r => prowlarr.InfoHash (Torrent r) = "a1")
    (dedupFilter ∅ Example.withDuplicates) = [Example.r720a]
  /\ dedupFilter ∅ Example.withDuplicates = [Example.r720a; Example.r1080].
Proof.
  split.
  - apply (proj1 (proj2 dedupFilter_first_wins) Example.withDuplicates "a1"
             Example.r720a [Example.sameHash]); [discriminate|reflexivity].
  - vm_compute. reflexivity.
Defined.

End DedupFacts.

(** ** Enrichment with cached files *)
Module EnrichFacts.
Import addon.

Section Lookup.
Variable GetFiles : realdebrid.RealDebrid -> list string -> gmap string (list realdebrid.File) + error.

Abbreviation hashOf r := (prowlarr.InfoHash (Torrent r)).

Lemma omap_annotate (filesByHash : gmap string (list realdebrid.File)) records :
  omap (fun r =>
          match filesByHash !! hashOf r with
          | Some files => Some (setFiles files r)
          | None => None
          end) records
  = map (fun r => setFiles (default [] (filesByHash !! hashOf r)) r)
      (filter (fun r => is_Some (filesByHash !! hashOf r)) records).
Proof.
  induction records as [|r rest IH]; [reflexivity|].
  cbn [omap list_omap]. fold (@omap list _ streamRecord streamRecord).
  destruct (filesByHash !! hashOf r) as [files|] eqn:E.
  - rewrite filter_cons_True by (rewrite E; eauto).
    cbn [map]. rewrite E. cbn [default]. f_equal. exact IH.
  - rewrite filter_cons_False by (rewrite E; apply is_Some_None).
    exact IH.
Qed.

(** A record with the files of its hash is the record but for its file
    list. *)
Lemma setFiles_frame (filesByHash : gmap string (list realdebrid.File)) records :
  Forall2 (fun r out =>
             filesByHash !! hashOf r = Some (Files out) /\ Frame.sameButFiles r out)
    (filter (fun r => is_Some (filesByHash !! hashOf r)) records)
    (map (fun r => setFiles (default [] (filesByHash !! hashOf r)) r)
       (filter (fun r => is_Some (filesByHash !! hashOf r)) records)).
Proof.
  induction records as [|r rest IH]; [constructor|].
  destruct (filesByHash !! hashOf r) as [files|] eqn:E.
  - rewrite filter_cons_True by (rewrite E; eauto).
    cbn [map]. constructor; [|exact IH].
    rewrite E. cbn [default setFiles Files].
    split; [reflexivity|]. repeat split.
  - rewrite filter_cons_False by (rewrite E; apply is_Some_None).
    exact IH.
Qed.

End Lookup.

(** C4. For a batch whose first record has a debrid client: when the
    lookup fails every record of the batch is returned as it came and no
    error is reported; when it answers, no error is reported and the
    records returned are, in their order, those of the batch whose hash is
    a key of the answer: each has the files the answer gives for its hash
    as its file list and is the record of the batch in every other field;
    the others are dropped.  A batch that is empty or has no
    client is returned as it came. *)
Theorem enrichWithCachedFiles_lookup :
  (forall GetFiles first rest client err,
      RDClient first = Some client ->
      GetFiles client (infoHashs (first :: rest)) = inr err ->
      enrichWithCachedFiles GetFiles (first :: rest) = (first :: rest, None))
  /\ (forall GetFiles first rest client (filesByHash : gmap string (list realdebrid.File)),
        RDClient first = Some client ->
        GetFiles client (infoHashs (first :: rest)) = inl filesByHash ->
        exists returned,
          enrichWithCachedFiles GetFiles (first :: rest) = (returned, None)
          /\ Forall2
               (fun r out =>
                  filesByHash !! prowlarr.InfoHash (Torrent r) = Some (Files out)
                  /\ Frame.sameButFiles r out)
               (filter (fun r => is_Some (filesByHash !! prowlarr.InfoHash (Torrent r)))
                  (first :: rest))
               returned)
  /\ (forall GetFiles records,
        records = [] \/ (exists first rest, records = first :: rest /\ RDClient first = None) ->
        enrichWithCachedFiles GetFiles records = (records, None)).
Proof.
  split; [|split].
  - intros GetFiles first rest client err Hc Hg.
    unfold enrichWithCachedFiles. rewrite Hc, Hg. reflexivity.
  - intros GetFiles first rest client filesByHash Hc Hg.
    unfold enrichWithCachedFiles. rewrite Hc, Hg.
    rewrite omap_annotate. eexists. split; [reflexivity|].
    apply setFiles_frame.
  - intros GetFiles records [->|(first & rest & -> & Hn)]; [reflexivity|].
    unfold enrichWithCachedFiles. rewrite Hn. reflexivity.
Qed.

(** Two records without file list, when the service cannot be reached and
    when it answers with the files of one of the two hashes. *)
Lemma enrichWithCachedFiles_examples :
  enrichWithCachedFiles Example.unreachable Example.pendingBatch
  = (Example.pendingBatch, None)
  /\ exists returned,
       enrichWithCachedFiles Example.answers Example.pendingBatch = (returned, None)
       /\ Forall2
            (fun r out =>
               ({[ "bb" := [Example.file (25 * Example.GB)] ]}
                  : gmap string (list realdebrid.File))
                 !! prowlarr.InfoHash (Torrent r) = Some (Files out)
               /\ Frame.sameButFiles r out)
            (filter (fun r => is_Some (({[ "bb" := [Example.file (25 * Example.GB)] ]}
                                          : gmap string (list realdebrid.File))
                                         !! prowlarr.InfoHash (Torrent r)))
               Example.pendingBatch)
            returned.
Proof.
  split.
  - apply (proj1 enrichWithCachedFiles_lookup Example.unreachable
             (Example.pending "ee") [Example.pending "bb"]
             Example.client "connection refused"); reflexivity.
  - apply (proj1 (proj2 enrichWithCachedFiles_lookup) Example.answers
             (Example.pending "ee") [Example.pending "bb"]
             Example.client {[ "bb" := [Example.file (25 * Example.GB)] ]});
      reflexivity.
Defined.

(** The same answer, evaluated: the record of hash [bb], which came
    without files, is returned with the file of the answer; the record of
    hash [ee] is dropped. *)
Lemma enrichWithCachedFiles_evaluated :
  Files (Example.pending "bb") = []
  /\ exists out,
       enrichWithCachedFiles Example.answers Example.pendingBatch = ([out], None)
       /\ Files out = [Example.file (25 * Example.GB)]
       /\ Torrent out = Torrent (Example.pending "bb").
Proof. split; [reflexivity|]. eexists. vm_compute. repeat split. Qed.

End EnrichFacts.

(** ** The end of a run *)
Module PipeFacts.
Import pipe.

Section Run.
Variable R : Type.

Lemma fold_step_appendSink evs :
  forallb (fun ev => negb (isReport R ev)) evs = true ->
  forall st,
    errCh (pipeOf R (fold_left (step R (appendSink R)) evs st)) = errCh (pipeOf R st)
    /\ seen R (fold_left (step R (appendSink R)) evs st) = seen R st ++ delivered R evs.
Proof.
  induction evs as [|ev evs IH]; intros Hno st; simpl.
  - rewrite app_nil_r. split; reflexivity.
  - simpl in Hno. apply andb_true_iff in Hno as [Hev Hno].
    destruct (IH Hno (step R (appendSink R) st ev)) as [IHe IHs].
    rewrite IHe, IHs.
    destruct ev as [sendWins r|sendWins err|]; simpl in *; try discriminate.
    + rewrite <- app_assoc. split; reflexivity.
    + split; reflexivity.
Qed.

End Run.



End PipeFacts.

(** ** The small library instance meets the contract *)
Module ExampleFacts.
Import Example.

Section InsertionSort.
Context {A : Type}.
Variable cmp : A -> A -> Z.

Lemma insertLeft_perm x prefix : insertLeft cmp x prefix ≡ₚ x :: prefix.
Proof.
  induction prefix as [|p rest IH]; simpl; [reflexivity|].
  destruct (cmp x p <? 0); [|reflexivity].
  rewrite IH. apply Permutation_swap.
Qed.

Lemma fold_insertLeft_perm data :
  forall prefix, fold_left (fun prefix x => insertLeft cmp x prefix) data prefix
                 ≡ₚ data ++ prefix.
Proof.
  induction data as [|x data IH]; intros prefix; simpl; [reflexivity|].
  rewrite IH, insertLeft_perm. symmetry. apply Permutation_middle.
Qed.

Lemma insertionSort_perm data : insertionSort cmp data ≡ₚ data.
Proof.
  unfold insertionSort.
  etransitivity; [symmetry; apply Permutation_rev|].
  rewrite fold_insertLeft_perm, app_nil_r. reflexivity.
Qed.

Lemma insertLeft_sorted all x prefix :
  strictWeakOn cmp all -> x ∈ all -> (forall p, p ∈ prefix -> p ∈ all) ->
  rightToLeft cmp prefix -> rightToLeft cmp (insertLeft cmp x prefix).
Proof.
  intros [Hasym Hco] Hx. unfold rightToLeft.
  induction prefix as [|p rest IH]; intros Hall Hs; simpl.
  - repeat constructor.
  - apply StronglySorted_inv in Hs as [Hrest Hp].
    rewrite Forall_forall in Hp.
    assert (Hpa : p ∈ all) by (apply Hall; left).
    assert (Hra : forall q, q ∈ rest -> q ∈ all) by (intros q Hq; apply Hall; now right).
    destruct (cmp x p <? 0) eqn:E.
    + apply Z.ltb_lt in E. constructor; [apply IH; assumption|].
      rewrite Forall_forall. intros q Hq.
      rewrite insertLeft_perm in Hq. apply elem_of_cons in Hq as [->|Hq].
      * apply Hasym; assumption.
      * apply Hp, Hq.
    + apply Z.ltb_ge in E. constructor; [constructor; [assumption|]|].
      * rewrite Forall_forall. exact Hp.
      * rewrite Forall_forall. intros q Hq.
        apply elem_of_cons in Hq as [->|Hq]; [lia|].
        intros Hxq.
        destruct (Hco x p q Hx Hpa (Hra q Hq) Hxq) as [H1|H1]; [lia|].
        exact (Hp q Hq H1).
Qed.

Lemma fold_insertLeft_sorted all data :
  strictWeakOn cmp all -> (forall x, x ∈ data -> x ∈ all) ->
  forall prefix, (forall p, p ∈ prefix -> p ∈ all) -> rightToLeft cmp prefix ->
  rightToLeft cmp (fold_left (fun prefix x => insertLeft cmp x prefix) data prefix).
Proof.
  intros Hsw. induction data as [|x data IH]; intros Hd prefix Hp Hs; simpl.
  - exact Hs.
  - apply IH.
    + intros y Hy. apply Hd. now right.
    + intros p Hin. rewrite insertLeft_perm in Hin.
      apply elem_of_cons in Hin as [->|Hin]; [apply Hd; left|apply Hp, Hin].
    + eapply insertLeft_sorted; eauto. apply Hd. left.
Qed.

Lemma StronglySorted_rev (R : A -> A -> Prop) l :
  StronglySorted R l -> StronglySorted (fun a b => R b a) (rev l).
Proof.
  induction 1 as [|a l Hl IH Ha]; simpl; [constructor|].
  rewrite Forall_forall in Ha.
  apply StronglySorted_app. split; [|split].
  - intros x1 x2 H1 H2. apply list_elem_of_singleton in H2 as ->.
    apply Ha. apply list_elem_of_In, in_rev. apply list_elem_of_In, H1.
  - exact IH.
  - repeat constructor.
Qed.

Lemma insertionSort_sorted data :
  strictWeakOn cmp data ->
  StronglySorted (fun a b => ~ cmp b a < 0) (insertionSort cmp data).
Proof.
  intros Hsw. unfold insertionSort.
  apply (StronglySorted_rev (fun a b => ~ cmp a b < 0)).
  apply (fold_insertLeft_sorted data data Hsw); [auto| |constructor].
  intros p Hp. apply elem_of_nil in Hp. contradiction.
Qed.

End InsertionSort.

Lemma lib_spec : GoLibSpec lib.
Proof.
  split.
  - intros A cmp x. apply insertionSort_perm.
  - intros A cmp x. apply insertionSort_sorted.
  - intros V m. reflexivity.
Qed.

End ExampleFacts.

(** ** Selection by resolution groups *)
Module SelectionFacts.
Import addon ScoreOrder.

Abbreviation resolutionOf r := (titleparser.Resolution (TitleInfo r)).

Section Groups.
Context `{GoLib}.
Hypothesis lib_ok : GoLibSpec H.

(** *** The first loop *)

Lemma fold_group_lookup records :
  forall (m : gmap Z (list streamRecord)) k,
    fold_left
      (fun groups record =>
         <[resolutionOf record := default [] (groups !! resolutionOf record) ++ [record]]> groups)
      records m !! k
    = match ofResolution k records with
      | [] => m !! k
      | l => Some (default [] (m !! k) ++ l)
      end.
Proof.
  induction records as [|r rest IH]; intros m k; [reflexivity|].
  cbn [fold_left]. rewrite IH. unfold ofResolution.
  destruct (decide (resolutionOf r = k)) as [<-|Hne].
  - rewrite (filter_cons_True _ r) by reflexivity.
    rewrite lookup_insert_eq. simpl.
    destruct (filter _ rest); [reflexivity|].
    rewrite <- app_assoc. reflexivity.
  - rewrite (filter_cons_False _ r) by exact Hne.
    rewrite lookup_insert_ne by exact Hne. reflexivity.
Qed.

Lemma groupRecords_lookup records k :
  groupRecords records !! k
  = match ofResolution k records with [] => None | l => Some l end.
Proof.
  unfold groupRecords. rewrite fold_group_lookup, lookup_empty.
  destruct (ofResolution k records); reflexivity.
Qed.

(** *** The second loop *)

Lemma sortAndCap_scorable n group :
  0 <= n -> forallb hasMediaFile group = true ->
  sortAndCap n group = Some (take (Z.to_nat n) (SortFunc byScoreDesc group)).
Proof.
  intros Hn Hall. unfold sortAndCap, sortByQualityScore.
  rewrite Hall, andb_false_r.
  destruct (n <? Z.of_nat (length (SortFunc byScoreDesc group))) eqn:E.
  - destruct (n <? 0) eqn:E0; [lia|reflexivity].
  - rewrite take_ge; [reflexivity|]. apply Z.ltb_ge in E. lia.
Qed.

Lemma fold_sortGroups n ks :
  NoDup ks ->
  forall groups : gmap Z (list streamRecord),
    (forall k g, k ∈ ks -> groups !! k = Some g -> is_Some (sortAndCap n g)) ->
    exists groups',
      fold_left
        (fun acc resolution =>
           match acc with
           | None => None
           | Some groups =>
               match groups !! resolution with
               | Some group =>
                   match sortAndCap n group with
                   | Some group => Some (<[resolution := group]> groups)
                   | None => None
                   end
               | None => Some groups
               end
           end) ks (Some groups) = Some groups'
      /\ forall k, groups' !! k
                   = if decide (k ∈ ks) then groups !! k ≫= sortAndCap n
                     else groups !! k.
Proof.
  induction 1 as [|k0 ks Hk0 Hnd IH]; intros groups Hok.
  - exists groups. split; [reflexivity|]. intros k.
    rewrite decide_False by apply not_elem_of_nil. reflexivity.
  - cbn [fold_left].
    destruct (groups !! k0) as [g|] eqn:Eg.
    + destruct (Hok k0 g (list_elem_of_here _ _) Eg) as [g' Eg']. rewrite Eg'.
      destruct (IH (<[k0 := g']> groups)) as (groups' & Hf & Hl).
      { intros k g1 Hk Hg1. rewrite lookup_insert_ne in Hg1.
        - apply (Hok k g1); [now right|exact Hg1].
        - intros ->. contradiction. }
      exists groups'. split; [exact Hf|]. intros k. rewrite Hl.
      destruct (decide (k = k0)) as [->|Hne].
      * rewrite decide_False by exact Hk0.
        rewrite decide_True by left.
        rewrite lookup_insert_eq, Eg. cbn. symmetry. exact Eg'.
      * rewrite lookup_insert_ne by congruence.
        destruct (decide (k ∈ ks)) as [Hin|Hin].
        -- rewrite decide_True by now right. reflexivity.
        -- rewrite decide_False; [reflexivity|].
           intros Hc. apply elem_of_cons in Hc as [?|?]; contradiction.
    + destruct (IH groups) as (groups' & Hf & Hl).
      { intros k g1 Hk Hg1. apply (Hok k g1); [now right|exact Hg1]. }
      exists groups'. split; [exact Hf|]. intros k. rewrite Hl.
      destruct (decide (k = k0)) as [->|Hne].
      * rewrite decide_False by exact Hk0.
        rewrite decide_True by left. rewrite Eg. reflexivity.
      * destruct (decide (k ∈ ks)) as [Hin|Hin].
        -- rewrite decide_True by now right. reflexivity.
        -- rewrite decide_False; [reflexivity|].
           intros Hc. apply elem_of_cons in Hc as [?|?]; contradiction.
Qed.

Lemma rangeKeys_NoDup {V} (m : gmap Z V) : NoDup (rangeKeys m).
Proof.
  rewrite (rangeKeys_perm _ lib_ok). apply NoDup_fst_map_to_list.
Qed.

Lemma elem_of_rangeKeys {V} (m : gmap Z V) k : k ∈ rangeKeys m <-> is_Some (m !! k).
Proof.
  rewrite (rangeKeys_perm _ lib_ok). rewrite list_elem_of_fmap. split.
  - intros ([k' v] & -> & Hin). apply elem_of_map_to_list in Hin. eauto.
  - intros [v Hv]. exists (k, v). split; [reflexivity|].
    apply elem_of_map_to_list, Hv.
Qed.

(** *** The third and fourth loops *)

Lemma fold_ordered (m : gmap Z (list streamRecord)) ks :
  forall result,
    fold_left
      (fun result resolution =>
         match m !! resolution with
         | Some group => result ++ group
         | None => result
         end) ks result
    = result ++ concat (map (fun k => default [] (m !! k)) ks).
Proof.
  induction ks as [|k ks IH]; intros result; cbn [fold_left map concat].
  - rewrite app_nil_r. reflexivity.
  - rewrite IH. destruct (m !! k); cbn [default].
    + rewrite <- app_assoc. reflexivity.
    + reflexivity.
Qed.

Lemma existsb_resolutionOrder k :
  existsb (Z.eqb k) resolutionOrder = bool_decide (k ∈ resolutionOrder).
Proof.
  destruct (existsb (Z.eqb k) resolutionOrder) eqn:E; symmetry.
  - apply bool_decide_eq_true. apply existsb_exists in E as (x & Hin & Hx).
    apply Z.eqb_eq in Hx as ->. apply list_elem_of_In, Hin.
  - apply bool_decide_eq_false. intros Hin.
    assert (existsb (Z.eqb k) resolutionOrder = true); [|congruence].
    apply existsb_exists. exists k. split; [apply list_elem_of_In, Hin|apply Z.eqb_refl].
Qed.

Lemma fold_remaining (m : gmap Z (list streamRecord)) ks :
  forall result,
    fold_left
      (fun result resolution =>
         match m !! resolution with
         | Some group =>
             if existsb (Z.eqb resolution) resolutionOrder then result
             else result ++ group
         | None => result
         end) ks result
    = result ++ concat (map (fun k => default [] (m !! k))
                          (filter (fun k => k ∉ resolutionOrder) ks)).
Proof.
  induction ks as [|k ks IH]; intros result; cbn [fold_left].
  - rewrite app_nil_r. reflexivity.
  - rewrite IH, existsb_resolutionOrder.
    destruct (decide (k ∈ resolutionOrder)) as [Hin|Hin].
    + rewrite filter_cons_False by tauto.
      rewrite bool_decide_eq_true_2 by exact Hin.
      destruct (m !! k); reflexivity.
    + rewrite filter_cons_True by exact Hin.
      rewrite bool_decide_eq_false_2 by exact Hin.
      cbn [map concat]. destruct (m !! k); cbn [default].
      * rewrite <- app_assoc. reflexivity.
      * reflexivity.
Qed.

(** *** The groups after sorting *)

Lemma scorable_hasMediaFile r : scorable r -> hasMediaFile r = true.
Proof. intros ((f & Hf & _) & _). unfold hasMediaFile. rewrite Hf. reflexivity. Qed.

Lemma Forall_scorable_ofResolution k records :
  Forall scorable records -> Forall scorable (ofResolution k records).
Proof.
  rewrite !Forall_forall. intros Hs r Hr.
  apply list_elem_of_filter in Hr as [_ Hr]. apply Hs, Hr.
Qed.

Lemma forallb_hasMediaFile group :
  Forall scorable group -> forallb hasMediaFile group = true.
Proof.
  induction 1 as [|r rest Hr _ IH]; [reflexivity|].
  simpl. rewrite (scorable_hasMediaFile r Hr), IH. reflexivity.
Qed.

Lemma SortFunc_nil {A} (cmp : A -> A -> Z) : SortFunc cmp [] = [].
Proof. apply Permutation_nil_r. apply (SortFunc_perm _ lib_ok). Qed.

Lemma SortFunc_singleton {A} (cmp : A -> A -> Z) x : SortFunc cmp [x] = [x].
Proof. apply Permutation_singleton_r. apply (SortFunc_perm _ lib_ok). Qed.

(** The sorted group of a resolution: the records of that resolution,
    each scoring at least as much as the records after it. *)
Lemma SortFunc_group k records :
  Forall scorable records ->
  SortFunc byScoreDesc (ofResolution k records) ≡ₚ ofResolution k records
  /\ StronglySorted notBelow (SortFunc byScoreDesc (ofResolution k records)).
Proof.
  intros Hs. split; [apply (SortFunc_perm _ lib_ok)|].
  pose proof (Forall_scorable_ofResolution k records Hs) as Hgroup.
  pose proof (SortFunc_sorted _ lib_ok _ byScoreDesc (ofResolution k records)
                (byScoreDesc_strictWeakOn _ Hgroup)) as Hsorted.
  rewrite <- (SortFunc_perm _ lib_ok _ byScoreDesc) in Hgroup.
  induction Hsorted as [|a l _ IH Ha]; [constructor|].
  apply Forall_cons in Hgroup as [Hsa Hsl].
  constructor; [exact (IH Hsl)|].
  rewrite Forall_forall in Ha, Hsl. rewrite Forall_forall. intros b Hb.
  apply not_byScoreDesc_notBelow; auto.
Qed.

(** What [groupByResolution] returns for records that enter scoring,
    with [others] the keys the last loop appends. *)
Lemma groupByResolution_scorable records n :
  0 <= n -> Forall scorable records ->
  exists others,
    NoDup others
    /\ (forall k, k ∈ others <->
                  (k ∉ resolutionOrder) /\ exists r, r ∈ records /\ resolutionOf r = k)
    /\ groupByResolution records n
       = Some (concat (map (fun k => take (Z.to_nat n)
                                       (SortFunc byScoreDesc (ofResolution k records)))
                         (resolutionOrder ++ others))).
Proof.
  intros Hn Hs. unfold groupByResolution, sortGroups.
  destruct (fold_sortGroups n (rangeKeys (groupRecords records))
              (rangeKeys_NoDup _) (groupRecords records)) as (groups' & Hfold & Hl).
  { intros k g _ Hg. rewrite groupRecords_lookup in Hg.
    rewrite sortAndCap_scorable; [eauto|exact Hn|].
    apply forallb_hasMediaFile.
    destruct (ofResolution k records) eqn:E; [discriminate|].
    injection Hg as <-. rewrite <- E. apply Forall_scorable_ofResolution, Hs. }
  rewrite Hfold.
  assert (Hgroup : forall k,
             default [] (groups' !! k)
             = take (Z.to_nat n) (SortFunc byScoreDesc (ofResolution k records))).
  { intros k. rewrite Hl.
    assert (Hk : groupRecords records !! k ≫= sortAndCap n
                 = match ofResolution k records with
                   | [] => None
                   | l => Some (take (Z.to_nat n) (SortFunc byScoreDesc l))
                   end).
    { rewrite groupRecords_lookup.
      pose proof (Forall_scorable_ofResolution k records Hs) as Hk.
      destruct (ofResolution k records) as [|r l]; [reflexivity|].
      cbn. apply sortAndCap_scorable; [exact Hn|].
      apply forallb_hasMediaFile, Hk. }
    destruct (decide (k ∈ rangeKeys (groupRecords records))) as [Hin|Hin].
    - rewrite Hk. destruct (ofResolution k records); [|reflexivity].
      rewrite SortFunc_nil. destruct (Z.to_nat n); reflexivity.
    - rewrite elem_of_rangeKeys, groupRecords_lookup in Hin.
      rewrite groupRecords_lookup.
      destruct (ofResolution k records); [|exfalso; apply Hin; eauto].
      rewrite SortFunc_nil. destruct (Z.to_nat n); reflexivity. }
  assert (Hsome : forall k, is_Some (groups' !! k) <-> ofResolution k records <> []).
  { intros k. rewrite Hl, groupRecords_lookup.
    pose proof (Forall_scorable_ofResolution k records Hs) as Hk.
    destruct (ofResolution k records) as [|r l] eqn:E.
    - destruct (decide _); cbn; split; intros Hc;
        try (apply is_Some_None in Hc); contradiction || congruence.
    - destruct (decide _); cbn.
      + rewrite sortAndCap_scorable by (auto using forallb_hasMediaFile).
        split; [discriminate|eauto].
      + split; [discriminate|eauto]. }
  exists (filter (fun k => k ∉ resolutionOrder) (rangeKeys groups')).
  split; [apply NoDup_filter, rangeKeys_NoDup|].
  split.
  - intros k. rewrite list_elem_of_filter, elem_of_rangeKeys, Hsome.
    unfold ofResolution.
    split; intros [Hno Hex]; (split; [exact Hno|]).
    + destruct (filter _ records) as [|r l] eqn:E; [contradiction|].
      assert (Hr : r ∈ filter (fun r => resolutionOf r = k) records)
        by (rewrite E; left).
      apply list_elem_of_filter in Hr as [Hr1 Hr2]. eauto.
    + destruct Hex as (r & Hin & Hr). intros Hnil.
      assert (Hr' : r ∈ filter (fun r => resolutionOf r = k) records)
        by (apply list_elem_of_filter; auto).
      rewrite Hnil in Hr'. apply elem_of_nil in Hr'. exact Hr'.
  - f_equal. unfold remainingGroups, orderedGroups.
    rewrite fold_remaining, fold_ordered. cbn [app].
    rewrite map_app, concat_app. f_equal; f_equal; apply map_ext; intros k; apply Hgroup.
Qed.

End Groups.

(** A list without duplicates that holds [k] and nothing else. *)
Lemma NoDup_only (k : Z) (l : list Z) :
  NoDup l -> k ∈ l -> (forall k', k' ∈ l -> k' = k) -> l = [k].
Proof.
  intros Hnd Hk Hall.
  destruct l as [|k1 [|k2 rest]].
  - apply elem_of_nil in Hk. contradiction.
  - rewrite (Hall k1 (list_elem_of_here _ _)). reflexivity.
  - exfalso. apply NoDup_cons in Hnd as [Hno _]. apply Hno.
    rewrite (Hall k1 (list_elem_of_here _ _)).
    rewrite <- (Hall k2 (list_elem_of_further _ _ _ (list_elem_of_here _ _))).
    apply list_elem_of_here.
Qed.

(** C3. For records that enter scoring, and a library that meets what Go
    documents of sorting and of map iteration, diversity selection
    returns the groups of the resolutions 720, 1080, 2160, 480 and 360, in
    that order, then the groups of every other resolution present, each
    once; the group of a resolution is made of the records of that
    resolution, sorted by descending score (every record scores at least
    as much as each record after it), and cut to its first three.  Four records at 720, one at 1080 and one
    at 2160 give the first three of the sorted 720 group, then the 1080
    record, then the 2160 record.  One record at each of the five
    resolutions and one at another resolution come out as the 720, the
    1080, the 2160, the 480, the 360 and the other record, whatever their
    order on entry.  A sort method other than [quality]
    selects this way, with three records a group. *)
Theorem groupByResolution_diversity :
  forall (lib : GoLib), GoLibSpec lib ->
    (forall records, Forall scorable records ->
       exists others,
         NoDup others
         /\ (forall k, k ∈ others <->
                (k ∉ [720; 1080; 2160; 480; 360])
                /\ exists r, r ∈ records /\ titleparser.Resolution (TitleInfo r) = k)
         /\ groupByResolution records 3
            = Some (concat (map (fun k => take 3 (SortFunc byScoreDesc (ofResolution k records)))
                              ([720; 1080; 2160; 480; 360] ++ others)))
         /\ (forall k,
               SortFunc byScoreDesc (ofResolution k records) ≡ₚ ofResolution k records
               /\ StronglySorted notBelow (SortFunc byScoreDesc (ofResolution k records))))
    /\ (forall records a b c d e f,
          Forall scorable records ->
          records ≡ₚ [a; b; c; d; e; f] ->
          titleparser.Resolution (TitleInfo a) = 720 ->
          titleparser.Resolution (TitleInfo b) = 720 ->
          titleparser.Resolution (TitleInfo c) = 720 ->
          titleparser.Resolution (TitleInfo d) = 720 ->
          titleparser.Resolution (TitleInfo e) = 1080 ->
          titleparser.Resolution (TitleInfo f) = 2160 ->
          groupByResolution records 3
          = Some (take 3 (SortFunc byScoreDesc (ofResolution 720 records)) ++ [e; f])
          /\ SortFunc byScoreDesc (ofResolution 720 records) ≡ₚ [a; b; c; d]
          /\ StronglySorted notBelow (SortFunc byScoreDesc (ofResolution 720 records)))
    /\ (forall records a b c d e g,
          Forall scorable records ->
          records ≡ₚ [a; b; c; d; e; g] ->
          titleparser.Resolution (TitleInfo a) = 720 ->
          titleparser.Resolution (TitleInfo b) = 1080 ->
          titleparser.Resolution (TitleInfo c) = 2160 ->
          titleparser.Resolution (TitleInfo d) = 480 ->
          titleparser.Resolution (TitleInfo e) = 360 ->
          titleparser.Resolution (TitleInfo g) ∉ [720; 1080; 2160; 480; 360] ->
          groupByResolution records 3 = Some [a; b; c; d; e; g])
    /\ (forall userData records,
          SortMethod userData <> "" -> SortMethod userData <> "quality" ->
          selectRecords userData records = groupByResolution records 3).
Proof.
  intros lib Hlib. split; [|split; [|split]].
  - intros records Hs.
    destruct (groupByResolution_scorable Hlib records 3 ltac:(lia) Hs)
      as (others & Hnd & Hin & Heq).
    exists others. split; [exact Hnd|]. split; [exact Hin|]. split; [exact Heq|].
    intros k. apply (SortFunc_group Hlib k records Hs).
  - intros records a b c d e f Hs Hperm Ha Hb Hc Hd He Hf.
    assert (Hof : forall k, ofResolution k records ≡ₚ ofResolution k [a; b; c; d; e; f]).
    { intros k. unfold ofResolution. rewrite Hperm. reflexivity. }
    assert (H720 : ofResolution 720 records ≡ₚ [a; b; c; d]).
    { rewrite Hof. unfold ofResolution.
      rewrite !filter_cons, Ha, Hb, Hc, Hd, He, Hf. reflexivity. }
    assert (H1080 : ofResolution 1080 records = [e]).
    { apply Permutation_singleton_r. rewrite Hof. unfold ofResolution.
      rewrite !filter_cons, Ha, Hb, Hc, Hd, He, Hf. reflexivity. }
    assert (H2160 : ofResolution 2160 records = [f]).
    { apply Permutation_singleton_r. rewrite Hof. unfold ofResolution.
      rewrite !filter_cons, Ha, Hb, Hc, Hd, He, Hf. reflexivity. }
    assert (Hnone : forall k, k <> 720 -> k <> 1080 -> k <> 2160 ->
                              ofResolution k records = []).
    { intros k H1 H2 H3. apply Permutation_nil_r. rewrite Hof. unfold ofResolution.
      rewrite !filter_cons, Ha, Hb, Hc, Hd, He, Hf.
      repeat (rewrite decide_False by congruence). reflexivity. }
    destruct (groupByResolution_scorable Hlib records 3 ltac:(lia) Hs)
      as (others & Hnd & Hin & Heq).
    assert (Hothers : others = []).
    { destruct others as [|k others']; [reflexivity|]. exfalso.
      destruct (proj1 (Hin k) (list_elem_of_here _ _)) as (Hno & r & Hr & Hk).
      assert (Hr' : r ∈ [a; b; c; d; e; f]) by (rewrite <- Hperm; exact Hr).
      apply Hno. unfold resolutionOrder.
      repeat (apply elem_of_cons in Hr' as [->|Hr']);
        try (apply elem_of_nil in Hr'; contradiction);
        rewrite <- Hk, ?Ha, ?Hb, ?Hc, ?Hd, ?He, ?Hf;
        repeat (first [apply list_elem_of_here | apply list_elem_of_further]). }
    subst others. split; [|split].
    + rewrite Heq. unfold resolutionOrder. cbn [app map concat Z.to_nat Pos.to_nat Pos.iter_op Init.Nat.add].
      rewrite H1080, H2160, (Hnone 480), (Hnone 360) by lia.
      rewrite !(SortFunc_singleton Hlib), (SortFunc_nil Hlib). reflexivity.
    + rewrite (SortFunc_perm _ Hlib). exact H720.
    + apply (SortFunc_group Hlib 720 records Hs).
  - intros records a b c d e g Hs Hperm Ha Hb Hc Hd He Hg.
    set (kg := titleparser.Resolution (TitleInfo g)) in *.
    assert (Hkg : kg <> 720 /\ kg <> 1080 /\ kg <> 2160 /\ kg <> 480 /\ kg <> 360).
    { repeat split; intros E; apply Hg; rewrite E;
        repeat (first [apply list_elem_of_here | apply list_elem_of_further]). }
    destruct Hkg as (G1 & G2 & G3 & G4 & G5).
    assert (Hof : forall k, ofResolution k records ≡ₚ ofResolution k [a; b; c; d; e; g]).
    { intros k. unfold ofResolution. rewrite Hperm. reflexivity. }
    assert (Hone : forall k x,
               ofResolution k [a; b; c; d; e; g] = [x] -> ofResolution k records = [x]).
    { intros k x E. apply Permutation_singleton_r. rewrite Hof, E. reflexivity. }
    assert (H720 : ofResolution 720 records = [a]).
    { apply Hone. unfold ofResolution. rewrite !filter_cons, Ha, Hb, Hc, Hd, He.
      fold kg. rewrite (decide_False (P := kg = 720)) by exact G1. reflexivity. }
    assert (H1080 : ofResolution 1080 records = [b]).
    { apply Hone. unfold ofResolution. rewrite !filter_cons, Ha, Hb, Hc, Hd, He.
      fold kg. rewrite (decide_False (P := kg = 1080)) by exact G2. reflexivity. }
    assert (H2160 : ofResolution 2160 records = [c]).
    { apply Hone. unfold ofResolution. rewrite !filter_cons, Ha, Hb, Hc, Hd, He.
      fold kg. rewrite (decide_False (P := kg = 2160)) by exact G3. reflexivity. }
    assert (H480 : ofResolution 480 records = [d]).
    { apply Hone. unfold ofResolution. rewrite !filter_cons, Ha, Hb, Hc, Hd, He.
      fold kg. rewrite (decide_False (P := kg = 480)) by exact G4. reflexivity. }
    assert (H360 : ofResolution 360 records = [e]).
    { apply Hone. unfold ofResolution. rewrite !filter_cons, Ha, Hb, Hc, Hd, He.
      fold kg. rewrite (decide_False (P := kg = 360)) by exact G5. reflexivity. }
    assert (Hother : ofResolution kg records = [g]).
    { apply Hone. unfold ofResolution. rewrite !filter_cons, Ha, Hb, Hc, Hd, He.
      fold kg. rewrite (decide_True (P := kg = kg)) by reflexivity.
      repeat (rewrite decide_False by congruence). reflexivity. }
    destruct (groupByResolution_scorable Hlib records 3 ltac:(lia) Hs)
      as (others & Hnd & Hin & Heq).
    assert (Hothers : others = [kg]).
    { apply NoDup_only; [exact Hnd| |].
      - apply Hin. split; [exact Hg|]. exists g. split; [|reflexivity].
        rewrite Hperm. repeat (first [apply list_elem_of_here | apply list_elem_of_further]).
      - intros k Hk. destruct (proj1 (Hin k) Hk) as (Hno & r & Hr & Hres).
        assert (Hr' : r ∈ [a; b; c; d; e; g]) by (rewrite <- Hperm; exact Hr).
        repeat (apply elem_of_cons in Hr' as [->|Hr']);
          try (apply elem_of_nil in Hr'; contradiction);
          try (symmetry; exact Hres);
          exfalso; apply Hno; rewrite <- Hres, ?Ha, ?Hb, ?Hc, ?Hd, ?He;
          repeat (first [apply list_elem_of_here | apply list_elem_of_further]). }
    rewrite Heq, Hothers. unfold resolutionOrder.
    cbn [app map concat Z.to_nat Pos.to_nat Pos.iter_op Init.Nat.add].
    rewrite H720, H1080, H2160, H480, H360, Hother.
    rewrite !(SortFunc_singleton Hlib). reflexivity.
  - intros userData records He Hq. unfold selectRecords.
    destruct (String.eqb_spec (SortMethod userData) "") as [E|_]; [contradiction|].
    destruct (String.eqb_spec (SortMethod userData) "quality") as [E|_]; [contradiction|].
    reflexivity.
Qed.

(** The six records of the example and the records of every resolution,
    through the small library. *)
Lemma groupByResolution_six :
  (groupByResolution (H := Example.lib) Example.sixRecords 3
   = Some (take 3 (@SortFunc Example.lib _ byScoreDesc
                     (ofResolution 720 Example.sixRecords))
           ++ [Example.r1080; Example.r2160])
   /\ @SortFunc Example.lib _ byScoreDesc (ofResolution 720 Example.sixRecords)
      ≡ₚ [Example.r720a; Example.r720b; Example.r720c; Example.r720d]
   /\ StronglySorted notBelow
        (@SortFunc Example.lib _ byScoreDesc (ofResolution 720 Example.sixRecords)))
  /\ groupByResolution (H := Example.lib) Example.everyResolution 3
     = Some [Example.r720a; Example.r1080; Example.r2160;
             Example.r480; Example.r360; Example.r576].
Proof.
  split.
  - apply (proj1 (proj2 (groupByResolution_diversity Example.lib ExampleFacts.lib_spec))
             Example.sixRecords Example.r720a Example.r720b Example.r720c
             Example.r720d Example.r1080 Example.r2160);
      try reflexivity.
    + repeat (apply Forall_cons; split);
        [..|apply Forall_nil_2];
        (split; [eexists; split; [reflexivity|vm_compute; discriminate]
                |split; vm_compute; discriminate]).
    + unfold Example.sixRecords. apply perm_skip.
      change [Example.r720b; Example.r720c; Example.r720d; Example.r1080; Example.r2160]
        with ([Example.r720b; Example.r720c; Example.r720d]
                ++ Example.r1080 :: [Example.r2160]).
      apply Permutation_cons_app.
      cbn [app]. do 2 apply perm_skip. apply perm_swap.
  - apply (proj1 (proj2 (proj2 (groupByResolution_diversity Example.lib
                                  ExampleFacts.lib_spec)))
             Example.everyResolution);
      try reflexivity.
    + repeat (apply Forall_cons; split);
        [..|apply Forall_nil_2];
        (split; [eexists; split; [reflexivity|vm_compute; discriminate]
                |split; vm_compute; discriminate]).
    + unfold Example.everyResolution.
      change [Example.r720a; Example.r1080; Example.r2160; Example.r480;
              Example.r360; Example.r576]
        with ([Example.r720a; Example.r1080; Example.r2160; Example.r480;
               Example.r360] ++ Example.r576 :: []).
      apply Permutation_cons_app. rewrite app_nil_r.
      change [Example.r720a; Example.r1080; Example.r2160; Example.r480; Example.r360]
        with ([Example.r720a; Example.r1080; Example.r2160; Example.r480]
                ++ Example.r360 :: []).
      apply Permutation_cons_app. rewrite app_nil_r.
      change [Example.r720a; Example.r1080; Example.r2160; Example.r480]
        with ([Example.r720a; Example.r1080] ++ Example.r2160 :: [Example.r480]).
      apply Permutation_cons_app. cbn [app].
      change [Example.r720a; Example.r1080; Example.r480]
        with ([Example.r720a; Example.r1080] ++ Example.r480 :: []).
      apply Permutation_cons_app. rewrite app_nil_r.
      apply perm_swap.
    + intros Hc.
      repeat (apply elem_of_cons in Hc as [Hc|Hc]; [discriminate|]).
      apply elem_of_nil in Hc. exact Hc.
Defined.

(** The same records, evaluated: of the 720 group the records with 200,
    80 and 50 seeders, in that order; the one with 10 seeders is cut. *)
Lemma groupByResolution_six_evaluated :
  groupByResolution (H := Example.lib) Example.sixRecords 3
  = Some [Example.r720d; Example.r720b; Example.r720a; Example.r1080; Example.r2160].
Proof. vm_compute. reflexivity. Qed.

End SelectionFacts.

(** ** Sorting by quality score *)
Module QualitySortFacts.
Import addon ScoreOrder.

Section Sorting.
Context `{GoLib}.
Hypothesis lib_ok : GoLibSpec H.

(** The sorted slice of records that enter scoring: each record scores
    at least as much as the records after it. *)
Lemma SortFunc_notBelow records :
  Forall scorable records ->
  StronglySorted notBelow (SortFunc byScoreDesc records).
Proof.
  intros Hs.
  pose proof (SortFunc_sorted _ lib_ok _ byScoreDesc records
                (byScoreDesc_strictWeakOn _ Hs)) as Hsorted.
  rewrite <- (SortFunc_perm _ lib_ok _ byScoreDesc) in Hs.
  induction Hsorted as [|a l _ IH Ha]; [constructor|].
  apply Forall_cons in Hs as [Hsa Hsl].
  constructor; [exact (IH Hsl)|].
  rewrite Forall_forall in Ha, Hsl. rewrite Forall_forall. intros b Hb.
  apply not_byScoreDesc_notBelow; auto.
Qed.

Lemma forallb_hasMediaFile_scorable records :
  Forall scorable records -> forallb hasMediaFile records = true.
Proof.
  induction 1 as [|r rest ((f & Hf & _) & _) _ IH]; [reflexivity|].
  simpl. unfold hasMediaFile at 1. rewrite Hf, IH. reflexivity.
Qed.

End Sorting.

(** X1. For records that enter scoring, and a library that meets what Go
    documents of [slices.SortFunc], [sortByQualityScore] returns the same
    records in an order where every record scores at least as much as each
    record after it; an unset sort method and the method [quality] select
    this way. *)
Theorem sortByQualityScore_sorted :
  forall (lib : GoLib), GoLibSpec lib ->
  forall records, Forall scorable records ->
    exists sorted,
      sortByQualityScore records = Some sorted
      /\ sorted ≡ₚ records
      /\ StronglySorted notBelow sorted
      /\ forall userData,
           SortMethod userData = "" \/ SortMethod userData = "quality" ->
           selectRecords userData records = Some sorted.
Proof.
  intros lib Hlib records Hs.
  exists (SortFunc byScoreDesc records).
  assert (Hsort : sortByQualityScore records = Some (SortFunc byScoreDesc records)).
  { unfold sortByQualityScore.
    rewrite (forallb_hasMediaFile_scorable records Hs), andb_false_r. reflexivity. }
  split; [exact Hsort|].
  split; [apply (SortFunc_perm _ Hlib)|].
  split; [apply (SortFunc_notBelow Hlib records Hs)|].
  intros userData [He|Hq]; unfold selectRecords; rewrite ?He, ?Hq; simpl.
  - exact Hsort.
  - destruct (String.eqb_spec "quality" ""); [discriminate|]. exact Hsort.
Qed.

Lemma sortByQualityScore_six :
  exists sorted,
    sortByQualityScore (H := Example.lib) Example.sixRecords = Some sorted
    /\ sorted ≡ₚ Example.sixRecords
    /\ StronglySorted notBelow sorted
    /\ forall userData,
         SortMethod userData = "" \/ SortMethod userData = "quality" ->
         selectRecords (H := Example.lib) userData Example.sixRecords = Some sorted.
Proof.
  apply (sortByQualityScore_sorted Example.lib ExampleFacts.lib_spec Example.sixRecords).
  repeat (apply Forall_cons; split);
    [..|apply Forall_nil_2];
    (split; [eexists; split; [reflexivity|vm_compute; discriminate]
            |split; vm_compute; discriminate]).
Defined.

End QualitySortFacts.

(** ** The choice of the media file *)
Module MediaFileFacts.
Import addon.

Abbreviation sizeOf f := (realdebrid.FileSize f).

(** The loop of [findMovieMediaFile] and [findEpisodeMediaFile], from
    any file held so far: the result is the first of the largest files
    the loop does not skip. *)
Lemma fold_larger (skip : realdebrid.File -> bool) files :
  forall init,
    match fold_left (fun m f => if skip f then m else larger m f) files init with
    | None => init = None /\ Forall (fun f => skip f = true) files
    | Some f =>
        (init = Some f
         /\ forall g, g ∈ files -> skip g = false -> sizeOf g <= sizeOf f)
        \/ (exists l1 l2,
              files = l1 ++ f :: l2 /\ skip f = false
              /\ (forall m, init = Some m -> sizeOf m < sizeOf f)
              /\ (forall g, g ∈ l1 -> skip g = false -> sizeOf g < sizeOf f)
              /\ (forall g, g ∈ l2 -> skip g = false -> sizeOf g <= sizeOf f))
    end.
Proof.
  induction files as [|f0 rest IH]; intros init; cbn [fold_left].
  - destruct init as [m|]; [|split; [reflexivity|constructor]].
    left. split; [reflexivity|]. intros g Hg. apply elem_of_nil in Hg. contradiction.
  - specialize (IH (if skip f0 then init else larger init f0)).
    destruct (fold_left _ rest _) as [f|].
    + destruct (skip f0) eqn:Hs.
      * destruct IH as [[Hi Hle]|(l1 & l2 & -> & Hf & Hm & H1 & H2)].
        -- left. split; [exact Hi|]. intros g Hg Hsg.
           apply elem_of_cons in Hg as [->|Hg]; [congruence|auto].
        -- right. exists (f0 :: l1), l2. repeat split; auto.
           intros g Hg Hsg. apply elem_of_cons in Hg as [->|Hg]; [congruence|auto].
      * destruct init as [m|]; cbn [larger] in IH.
        -- destruct (sizeOf m <? sizeOf f0) eqn:E.
           ++ apply Z.ltb_lt in E.
              destruct IH as [[Hi Hle]|(l1 & l2 & -> & Hf & Hm & H1 & H2)].
              ** injection Hi as <-. right. exists [], rest. repeat split; auto.
                 --- intros m' [= <-]. exact E.
                 --- intros g Hg. apply elem_of_nil in Hg. contradiction.
              ** right. exists (f0 :: l1), l2.
                 specialize (Hm f0 eq_refl). repeat split; auto.
                 --- intros m' [= <-]. lia.
                 --- intros g Hg Hsg. apply elem_of_cons in Hg as [->|Hg]; auto.
           ++ apply Z.ltb_ge in E.
              destruct IH as [[Hi Hle]|(l1 & l2 & -> & Hf & Hm & H1 & H2)].
              ** left. split; [exact Hi|]. injection Hi as <-. intros g Hg Hsg.
                 apply elem_of_cons in Hg as [->|Hg]; auto.
              ** right. exists (f0 :: l1), l2.
                 specialize (Hm m eq_refl). repeat split; auto.
                 --- intros m' [= <-]. exact Hm.
                 --- intros g Hg Hsg. apply elem_of_cons in Hg as [->|Hg]; [lia|auto].
        -- destruct IH as [[Hi Hle]|(l1 & l2 & -> & Hf & Hm & H1 & H2)].
           ++ injection Hi as <-. right. exists [], rest. repeat split; auto.
              ** discriminate.
              ** intros g Hg. apply elem_of_nil in Hg. contradiction.
           ++ right. exists (f0 :: l1), l2.
              specialize (Hm f0 eq_refl). repeat split; auto.
              ** discriminate.
              ** intros g Hg Hsg. apply elem_of_cons in Hg as [->|Hg]; auto.
    + destruct IH as [Hi Hall]. destruct (skip f0) eqn:Hs.
      * split; [exact Hi|]. constructor; assumption.
      * destruct init as [m|]; cbn [larger] in Hi;
          [destruct (sizeOf m <? sizeOf f0)|]; discriminate.
Qed.

(** From no file held: none when every file is skipped, else the first of
    the largest files not skipped. *)
Lemma fold_larger_None (skip : realdebrid.File -> bool) files :
  match fold_left (fun m f => if skip f then m else larger m f) files None with
  | None => forall g, g ∈ files -> skip g = true
  | Some f =>
      exists l1 l2,
        files = l1 ++ f :: l2 /\ skip f = false
        /\ (forall g, g ∈ l1 -> skip g = false -> sizeOf g < sizeOf f)
        /\ (forall g, g ∈ l2 -> skip g = false -> sizeOf g <= sizeOf f)
  end.
Proof.
  pose proof (fold_larger skip files None) as Hf.
  destruct (fold_left _ files None) as [f|].
  - destruct Hf as [[Hi _]|(l1 & l2 & Hfiles & Hs & _ & H1 & H2)]; [discriminate|].
    exists l1, l2. auto.
  - destruct Hf as [_ Hall]. rewrite Forall_forall in Hall. exact Hall.
Qed.

(** X2. [findMovieMediaFile] returns no file exactly when no file of the
    list has a media extension; a file it returns is in the list, has a
    media extension, is strictly larger than every media file before it
    and at least as large as every media file after it. *)
Theorem findMovieMediaFile_largest :
  forall (lib : GoLib) files,
    (findMovieMediaFile files = None
     <-> forall g, g ∈ files -> hasMediaExtension (realdebrid.FileName g) = false)
    /\ (forall f, findMovieMediaFile files = Some f ->
          exists l1 l2,
            files = l1 ++ f :: l2
            /\ hasMediaExtension (realdebrid.FileName f) = true
            /\ (forall g, g ∈ l1 -> hasMediaExtension (realdebrid.FileName g) = true ->
                          sizeOf g < sizeOf f)
            /\ (forall g, g ∈ l2 -> hasMediaExtension (realdebrid.FileName g) = true ->
                          sizeOf g <= sizeOf f)).
Proof.
  intros lib files. unfold findMovieMediaFile.
  pose proof (fold_larger_None
                (fun f => negb (hasMediaExtension (realdebrid.FileName f))) files) as Hf.
  cbv beta in Hf. destruct (fold_left _ files None) as [f|].
  - destruct Hf as (l1 & l2 & Hfiles & Hs & H1 & H2).
    apply negb_false_iff in Hs. split.
    + split; [discriminate|]. intros Hall. exfalso.
      rewrite (Hall f) in Hs; [discriminate|]. rewrite Hfiles.
      apply elem_of_app. right. left.
    + intros f' [= <-]. exists l1, l2. repeat split; auto.
      * intros g Hg Hext. apply H1; [exact Hg|]. rewrite Hext. reflexivity.
      * intros g Hg Hext. apply H2; [exact Hg|]. rewrite Hext. reflexivity.
  - split; [|discriminate]. split; [|reflexivity].
    intros _ g Hg. apply negb_true_iff, Hf, Hg.
Qed.

(** A file of the list that is a candidate of the pattern: a media
    extension and a match. *)
Abbreviation candidate pattern f :=
  (hasMediaExtension (realdebrid.FileName f) && MatchString pattern (realdebrid.FileName f)).

Lemma findEpisodeMediaFile_largest `{GoLib} files pattern :
  match findEpisodeMediaFile files pattern with
  | None => forall g, g ∈ files -> candidate pattern g = false
  | Some f =>
      exists l1 l2,
        files = l1 ++ f :: l2 /\ candidate pattern f = true
        /\ (forall g, g ∈ l1 -> candidate pattern g = true -> sizeOf g < sizeOf f)
        /\ (forall g, g ∈ l2 -> candidate pattern g = true -> sizeOf g <= sizeOf f)
  end.
Proof.
  unfold findEpisodeMediaFile.
  pose proof (fold_larger_None
                (fun f => negb (hasMediaExtension (realdebrid.FileName f))
                          || negb (MatchString pattern (realdebrid.FileName f))) files) as Hf.
  cbv beta in Hf. destruct (fold_left _ files None) as [f|].
  - destruct Hf as (l1 & l2 & Hfiles & Hs & H1 & H2).
    exists l1, l2. split; [exact Hfiles|].
    rewrite <- negb_andb in Hs. apply negb_false_iff in Hs. split; [exact Hs|].
    split; intros g Hg Hc; [apply H1|apply H2]; auto;
      rewrite <- negb_andb, Hc; reflexivity.
  - intros g Hg. specialize (Hf g Hg).
    rewrite <- negb_andb in Hf. apply negb_true_iff in Hf. exact Hf.
Qed.

(** X3. For a series the three patterns are tried from the most to the
    least specific: the file selected is a candidate of the first pattern
    that has a candidate in the list, the first of the largest candidates
    of that pattern, and no file is selected exactly when no pattern has a
    candidate.  The selection of a series never fails. *)
Theorem selectMediaFile_series :
  forall (lib : GoLib) r,
    ContentType r = ContentTypeSeries ->
    let patterns := [seasonEpisodePattern (Season r) (Episode r);
                     separatePattern (Season r) (Episode r);
                     episodePattern (Episode r)] in
    (exists choice, selectMediaFile r = inl choice)
    /\ (selectMediaFile r = inl None
        <-> forall p g, p ∈ patterns -> g ∈ Files r -> candidate p g = false)
    /\ (forall f, selectMediaFile r = inl (Some f) ->
          exists before p after l1 l2,
            patterns = before ++ p :: after
            /\ (forall q g, q ∈ before -> g ∈ Files r -> candidate q g = false)
            /\ Files r = l1 ++ f :: l2
            /\ candidate p f = true
            /\ (forall g, g ∈ l1 -> candidate p g = true -> sizeOf g < sizeOf f)
            /\ (forall g, g ∈ l2 -> candidate p g = true -> sizeOf g <= sizeOf f)).
Proof.
  intros lib r Hseries patterns. unfold selectMediaFile. rewrite Hseries.
  change (String.eqb ContentTypeSeries ContentTypeMovie) with false.
  change (String.eqb ContentTypeSeries ContentTypeSeries) with true. cbv iota.
  pose proof (findEpisodeMediaFile_largest (Files r)
                (seasonEpisodePattern (Season r) (Episode r))) as H1.
  pose proof (findEpisodeMediaFile_largest (Files r)
                (separatePattern (Season r) (Episode r))) as H2.
  pose proof (findEpisodeMediaFile_largest (Files r)
                (episodePattern (Episode r))) as H3.
  destruct (findEpisodeMediaFile (Files r) (seasonEpisodePattern _ _)) as [f1|].
  { split; [eauto|]. destruct H1 as (l1 & l2 & Hfiles & Hc & Hlt & Hle). split.
    - split; [discriminate|]. intros Hall. exfalso.
      rewrite (Hall _ f1) in Hc; [discriminate|left|].
      rewrite Hfiles. apply elem_of_app. right. left.
    - intros f [= <-]. exists [], (seasonEpisodePattern (Season r) (Episode r)),
        [separatePattern (Season r) (Episode r); episodePattern (Episode r)], l1, l2.
      repeat split; auto. intros q g Hq. apply elem_of_nil in Hq. contradiction. }
  destruct (findEpisodeMediaFile (Files r) (separatePattern _ _)) as [f2|].
  { split; [eauto|]. destruct H2 as (l1 & l2 & Hfiles & Hc & Hlt & Hle). split.
    - split; [discriminate|]. intros Hall. exfalso.
      rewrite (Hall _ f2) in Hc; [discriminate|right; left|].
      rewrite Hfiles. apply elem_of_app. right. left.
    - intros f [= <-]. exists [seasonEpisodePattern (Season r) (Episode r)],
        (separatePattern (Season r) (Episode r)), [episodePattern (Episode r)], l1, l2.
      repeat split; auto. intros q g Hq Hg.
      apply list_elem_of_singleton in Hq as ->. auto. }
  split; [eauto|].
  destruct (findEpisodeMediaFile (Files r) (episodePattern _)) as [f3|].
  - destruct H3 as (l1 & l2 & Hfiles & Hc & Hlt & Hle). split.
    + split; [discriminate|]. intros Hall. exfalso.
      rewrite (Hall _ f3) in Hc; [discriminate|right; right; left|].
      rewrite Hfiles. apply elem_of_app. right. left.
    + intros f [= <-]. exists [seasonEpisodePattern (Season r) (Episode r);
                               separatePattern (Season r) (Episode r)],
        (episodePattern (Episode r)), [], l1, l2.
      repeat split; auto. intros q g Hq Hg.
      apply elem_of_cons in Hq as [->|Hq]; [auto|].
      apply list_elem_of_singleton in Hq as ->. auto.
  - split; [|discriminate]. split; [|reflexivity].
    intros _ p g Hp Hg. unfold patterns in Hp.
    repeat (apply elem_of_cons in Hp as [->|Hp]); auto.
    apply elem_of_nil in Hp. contradiction.
Qed.

(** Episode 2 of season 1 in a pack: the larger of the two media files
    that carry [S01E02], although the file of episode 3 is larger. *)
Lemma selectMediaFile_episode :
  (exists choice, selectMediaFile (H := Samples.lib) Samples.episode = inl choice)
  /\ selectMediaFile (H := Samples.lib) Samples.episode
     = inl (Some {| realdebrid.ID := "2"; realdebrid.FileName := "Show.S01E02.mkv";
                    realdebrid.FileSize := 700 * Samples.MB |}).
Proof.
  split.
  - apply (selectMediaFile_series Samples.lib Samples.episode). reflexivity.
  - vm_compute. reflexivity.
Defined.

End MediaFileFacts.

(** ** From the locator to the selection *)
Module LocatedFacts.
Import addon SelectionFacts.

(** [locateMediaFile] emits nothing, or the record with a media file. *)
Lemma locateMediaFile_out `{GoLib} r :
  (locateMediaFile r).1 = []
  \/ exists f, (locateMediaFile r).1 = [setMediaFile (Some f) r].
Proof.
  unfold locateMediaFile.
  destruct (RDClient r) as [c|]; [destruct (Files r) as [|f0 files]|]; simpl; eauto.
  destruct (selectMediaFile r) as [[f|]|e]; simpl; eauto.
  destruct (_ || _); simpl; eauto.
Qed.

Lemma located_hasMediaFile `{GoLib} records :
  (forall r, r ∈ records -> exists r0, r ∈ (locateMediaFile r0).1) ->
  forallb hasMediaFile records = true.
Proof.
  intros Hloc. apply forallb_forall. intros r Hr.
  apply list_elem_of_In in Hr. destruct (Hloc r Hr) as (r0 & Hin).
  destruct (locateMediaFile_out r0) as [E|(f & E)]; rewrite E in Hin.
  - apply elem_of_nil in Hin. contradiction.
  - apply list_elem_of_singleton in Hin as ->. reflexivity.
Qed.

Section Groups.
Context `{GoLib}.
Hypothesis lib_ok : GoLibSpec H.

Lemma forallb_ofResolution k records :
  forallb hasMediaFile records = true ->
  forallb hasMediaFile (ofResolution k records) = true.
Proof.
  rewrite !forallb_forall. intros Hall r Hr.
  apply list_elem_of_In, list_elem_of_filter in Hr as [_ Hr].
  apply Hall, list_elem_of_In, Hr.
Qed.

(** The groups of records that all have a media file are sorted without
    a failure, and the selection is made of records of the input. *)
Lemma groupByResolution_located records n :
  0 <= n -> forallb hasMediaFile records = true ->
  exists selected,
    groupByResolution records n = Some selected
    /\ forall r, r ∈ selected -> r ∈ records.
Proof.
  intros Hn Hall. unfold groupByResolution, sortGroups.
  destruct (fold_sortGroups n (rangeKeys (groupRecords records))
              (rangeKeys_NoDup lib_ok _) (groupRecords records)) as (groups' & Hfold & Hl).
  { intros k g _ Hg. rewrite groupRecords_lookup in Hg.
    rewrite sortAndCap_scorable; [eauto|exact Hn|].
    destruct (ofResolution k records) eqn:E; [discriminate|].
    injection Hg as <-. rewrite <- E. apply forallb_ofResolution, Hall. }
  rewrite Hfold. eexists. split; [reflexivity|].
  assert (Hgroup : forall k g r, groups' !! k = Some g -> r ∈ g -> r ∈ records).
  { intros k g r Hg Hr. rewrite Hl, groupRecords_lookup in Hg.
    assert (Hsub : forall l, l = ofResolution k records ->
                             forall x, x ∈ l -> x ∈ records).
    { intros l -> x Hx. apply list_elem_of_filter in Hx as [_ Hx]. exact Hx. }
    destruct (ofResolution k records) as [|r1 l] eqn:E.
    - destruct (decide _); discriminate.
    - destruct (decide _); cbn in Hg.
      + rewrite sortAndCap_scorable in Hg;
          [|exact Hn|rewrite <- E; apply forallb_ofResolution, Hall].
        injection Hg as <-. apply subseteq_take in Hr.
        rewrite (SortFunc_perm _ lib_ok) in Hr. apply (Hsub _ eq_refl), Hr.
      + injection Hg as <-. apply (Hsub _ eq_refl), Hr. }
  intros r Hr. unfold remainingGroups, orderedGroups in Hr.
  rewrite fold_remaining, fold_ordered in Hr. cbn [app] in Hr.
  apply elem_of_app in Hr as [Hr|Hr];
    apply list_elem_of_In, in_concat in Hr as (g & Hg & Hr);
    apply in_map_iff in Hg as (k & <- & _);
    apply list_elem_of_In in Hr;
    (destruct (groups' !! k) as [g|] eqn:Eg; cbn in Hr;
     [exact (Hgroup k g r Eg Hr)|apply elem_of_nil in Hr; contradiction]).
Qed.

End Groups.

(** X4. A record [locateMediaFile] emits is the record it was given with
    a media file set, and it emits at most one.  On records that all come
    out of the locator, both selections of [HandleGetStreams] return a
    result (neither dereferences a missing media file), made of records of
    the input. *)
Theorem located_selectRecords :
  forall (lib : GoLib), GoLibSpec lib ->
    (forall r, (locateMediaFile r).1 = []
               \/ exists f out,
                    (locateMediaFile r).1 = [out]
                    /\ MediaFile out = Some f
                    /\ Frame.sameButMediaFile r out)
    /\ (forall records userData,
          (forall r, r ∈ records -> exists r0, r ∈ (locateMediaFile r0).1) ->
          exists selected,
            selectRecords userData records = Some selected
            /\ forall r, r ∈ selected -> r ∈ records).
Proof.
  intros lib Hlib. split.
  { intros r. destruct (locateMediaFile_out r) as [E|(f & E)]; [left; exact E|].
    right. exists f, (setMediaFile (Some f) r).
    split; [exact E|]. split; [reflexivity|repeat split]. }
  intros records userData Hloc.
  pose proof (located_hasMediaFile records Hloc) as Hall.
  unfold selectRecords. destruct (String.eqb _ "quality").
  - unfold sortByQualityScore. rewrite Hall, andb_false_r.
    eexists. split; [reflexivity|]. intros r Hr.
    rewrite (SortFunc_perm _ Hlib) in Hr. exact Hr.
  - apply (groupByResolution_located Hlib records 3); [lia|exact Hall].
Qed.

Lemma located_selectRecords_example :
  exists selected,
    selectRecords (H := Example.lib) Example.unsetConfig
      ((locateMediaFile (H := Example.lib) Example.oversized).1
       ++ (locateMediaFile (H := Example.lib) (Example.cachedMovie Example.GB)).1)
    = Some selected
    /\ forall r, r ∈ selected ->
         r ∈ (locateMediaFile (H := Example.lib) Example.oversized).1
             ++ (locateMediaFile (H := Example.lib) (Example.cachedMovie Example.GB)).1.
Proof.
  apply (proj2 (located_selectRecords Example.lib ExampleFacts.lib_spec)).
  intros r Hr. apply elem_of_app in Hr as [Hr|Hr]; eauto.
Defined.

End LocatedFacts.

(** ** What the exclusion filter lets through *)
Module KeptFacts.
Import addon.

Lemma existsb_eqb_false (q : string) (l : list string) :
  existsb (String.eqb q) l = false -> q ∉ l.
Proof.
  intros He Hin.
  assert (existsb (String.eqb q) l = true); [|congruence].
  apply existsb_exists. exists q. split; [apply list_elem_of_In, Hin|apply String.eqb_refl].
Qed.

(** X5. A record the exclusion filter keeps is not a 3D release and its
    quality is not in the excluded list; its IMDB id is zero or the id of
    the title asked for, and with a zero id its parsed title is at a
    distance below 5 from the name asked for; its year is zero or within
    the years of the title; for a series, its seasons are zero or hold the
    season asked for and its episode is zero or the episode asked for; a
    known resolution is within the bounds that are positive.  Under the
    default configuration a kept record has an unknown resolution or one
    from 720 to 2160. *)
Theorem excludeTorrents_kept :
  (forall (lib : GoLib) r, excludeTorrents r = true ->
     titleparser.ThreeD (TitleInfo r) = false
     /\ (titleparser.Quality (TitleInfo r) ∉ excludedQualitiesOf (userData r))
     /\ (prowlarr.Imdb (Torrent r) = 0
         /\ checkTitleSimilarity (model.Name (MetaInfo r))
              (titleparser.Title (TitleInfo r)) < maxTitleDistance
         \/ prowlarr.Imdb (Torrent r) <> 0
            /\ prowlarr.Imdb (Torrent r) = model.IMDBID (MetaInfo r))
     /\ (titleparser.Year (TitleInfo r) = 0
         \/ model.FromYear (MetaInfo r) <= titleparser.Year (TitleInfo r)
            <= model.ToYear (MetaInfo r))
     /\ (ContentType r = ContentTypeSeries ->
         (titleparser.FromSeason (TitleInfo r) = 0
          \/ titleparser.FromSeason (TitleInfo r) <= Season r
             <= titleparser.ToSeason (TitleInfo r))
         /\ (titleparser.Episode (TitleInfo r) = 0
             \/ titleparser.Episode (TitleInfo r) = Episode r))
     /\ (0 < titleparser.Resolution (TitleInfo r) ->
         (0 < fst (strconv.Atoi (MinResolution (userData r))) ->
          fst (strconv.Atoi (MinResolution (userData r)))
          <= titleparser.Resolution (TitleInfo r))
         /\ (0 < fst (strconv.Atoi (MaxResolution (userData r))) ->
             titleparser.Resolution (TitleInfo r)
             <= fst (strconv.Atoi (MaxResolution (userData r))))))
  /\ (forall (lib : GoLib) r u,
        MinResolution u = "" -> MaxResolution u = "" ->
        userData r = ApplyDefaults u ->
        excludeTorrents r = true ->
        titleparser.Resolution (TitleInfo r) <= 0
        \/ 720 <= titleparser.Resolution (TitleInfo r) <= 2160).
Proof.
  assert (Hkept : forall (lib : GoLib) r, excludeTorrents r = true ->
            qualityOK r = true /\ resolutionOK r = true /\ imdbOK r = true
            /\ yearOK r = true /\ seasonOK r = true /\ episodeOK r = true
            /\ (prowlarr.Imdb (Torrent r) = 0 ->
                checkTitleSimilarity (model.Name (MetaInfo r))
                  (titleparser.Title (TitleInfo r)) < maxTitleDistance)).
  { intros lib r Hk. unfold excludeTorrents in Hk.
    destruct (qualityOK r); [|discriminate].
    destruct (sizeOK r); [|discriminate].
    destruct (resolutionOK r); [|discriminate].
    destruct (imdbOK r); [|discriminate].
    destruct (yearOK r); [|discriminate].
    destruct (seasonOK r); [|discriminate].
    destruct (episodeOK r); [|discriminate].
    destruct (seedersOK r); [|discriminate].
    repeat split. intros Hz. rewrite Hz in Hk. simpl in Hk. lia. }
  assert (Hres : forall r, resolutionOK r = true ->
            0 < titleparser.Resolution (TitleInfo r) ->
            (0 < fst (strconv.Atoi (MinResolution (userData r))) ->
             fst (strconv.Atoi (MinResolution (userData r)))
             <= titleparser.Resolution (TitleInfo r))
            /\ (0 < fst (strconv.Atoi (MaxResolution (userData r))) ->
                titleparser.Resolution (TitleInfo r)
                <= fst (strconv.Atoi (MaxResolution (userData r))))).
  { intros r Hr Hpos. unfold resolutionOK in Hr. cbv zeta in Hr.
    apply andb_true_iff in Hr as [Hmin Hmax].
    apply negb_true_iff in Hmin, Hmax.
    apply andb_false_iff in Hmin as [Hmin|Hmin];
      [apply andb_false_iff in Hmin as [Hmin|Hmin]|];
      (apply andb_false_iff in Hmax as [Hmax|Hmax];
       [apply andb_false_iff in Hmax as [Hmax|Hmax]|]); lia. }
  split.
  - intros lib r Hk.
    destruct (Hkept lib r Hk) as (Hq & Hr & Hi & Hy & Hs & He & Ht).
    unfold qualityOK in Hq. apply andb_true_iff in Hq as [Hq H3].
    apply negb_true_iff in Hq, H3.
    split; [exact H3|]. split; [apply existsb_eqb_false, Hq|].
    split.
    { unfold imdbOK in Hi.
      destruct (Z.eqb_spec (prowlarr.Imdb (Torrent r)) 0) as [Hz|Hz]; [left; auto|].
      right. split; [exact Hz|]. simpl in Hi. lia. }
    split.
    { unfold yearOK in Hy.
      destruct (Z.eqb_spec (titleparser.Year (TitleInfo r)) 0) as [Hz|Hz]; [left; auto|].
      right. simpl in Hy. lia. }
    split; [|apply Hres, Hr].
    intros Hseries. unfold seasonOK, episodeOK in Hs, He.
    rewrite Hseries in Hs, He.
    change (String.eqb ContentTypeSeries ContentTypeSeries) with true in Hs, He.
    simpl in Hs, He. split.
    + destruct (Z.eqb_spec (titleparser.FromSeason (TitleInfo r)) 0); [left; auto|].
      right. simpl in Hs. lia.
    + destruct (Z.eqb_spec (titleparser.Episode (TitleInfo r)) 0); [left; auto|].
      right. simpl in He. lia.
  - intros lib r u Hmin Hmax Hu Hk.
    destruct (Hkept lib r Hk) as (_ & Hr & _).
    destruct (Z.lt_ge_cases 0 (titleparser.Resolution (TitleInfo r))) as [Hpos|Hle];
      [right|left; exact Hle].
    destruct (Hres r Hr Hpos) as [H1 H2]. rewrite Hu in H1, H2.
    unfold ApplyDefaults in H1, H2. cbn [MinResolution MaxResolution] in H1, H2.
    rewrite Hmin in H1. rewrite Hmax in H2.
    change (fst (strconv.Atoi (orDefault "" (MinResolution NewUserDataWithDefaults))))
      with 720 in H1.
    change (fst (strconv.Atoi (orDefault "" (MaxResolution NewUserDataWithDefaults))))
      with 2160 in H2.
    lia.
Qed.

Lemma excludeTorrents_kept_example :
  titleparser.Resolution (TitleInfo (Example.seeded 10)) <= 0
  \/ 720 <= titleparser.Resolution (TitleInfo (Example.seeded 10)) <= 2160.
Proof.
  apply (proj2 excludeTorrents_kept Example.lib (Example.seeded 10) Example.unsetConfig);
    reflexivity.
Defined.

End KeptFacts.

(** ** The configuration defaults *)
Module DefaultsFacts.
Import addon.

Lemma orDefault_idempotent value fallback :
  orDefault (orDefault value fallback) fallback = orDefault value fallback.
Proof.
  unfold orDefault.
  destruct (String.eqb_spec value "") as [->|Hv].
  - destruct (String.eqb_spec fallback ""); reflexivity.
  - destruct (String.eqb_spec value ""); [contradiction|reflexivity].
Qed.

Lemma orDefault_field value fallback :
  fallback <> "" ->
  orDefault value fallback <> ""
  /\ (value <> "" -> orDefault value fallback = value)
  /\ (value = "" -> orDefault value fallback = fallback).
Proof.
  intros Hf. unfold orDefault.
  destruct (String.eqb_spec value "") as [E|E]; repeat split; auto; contradiction.
Qed.

(** X6. [ApplyDefaults] is idempotent; it leaves the three credentials
    and every preference that is set as they are, replaces an empty
    preference by the default, and leaves no preference empty.  The
    configuration [parseUserData] accepts is the decoded one with the
    defaults applied. *)
Theorem ApplyDefaults_idempotent :
  forall u,
    ApplyDefaults (ApplyDefaults u) = ApplyDefaults u
    /\ (RDAPIKey (ApplyDefaults u) = RDAPIKey u
        /\ ProwlarrURL (ApplyDefaults u) = ProwlarrURL u
        /\ ProwlarrAPIKey (ApplyDefaults u) = ProwlarrAPIKey u)
    /\ Forall (fun field : UserData -> string =>
                 field (ApplyDefaults u) <> ""
                 /\ (field u <> "" -> field (ApplyDefaults u) = field u)
                 /\ (field u = "" ->
                     field (ApplyDefaults u) = field NewUserDataWithDefaults))
         [MinResolution; MaxResolution; MinSize; MaxSize; MinSeeders;
          ExcludedQualities; SearchTimeout; SortMethod]
    /\ (forall add cfg, parseUserData add (Decoded u) = inl cfg ->
          cfg = ApplyDefaults u).
Proof.
  intros u. split; [|split; [|split]].
  - unfold ApplyDefaults. cbn [RDAPIKey ProwlarrURL ProwlarrAPIKey MinResolution
      MaxResolution MinSize MaxSize MinSeeders ExcludedQualities SearchTimeout SortMethod].
    rewrite !orDefault_idempotent. reflexivity.
  - repeat split.
  - repeat (apply Forall_cons; split); [..|apply Forall_nil_2];
      apply orDefault_field; discriminate.
  - intros add cfg Hp. unfold parseUserData in Hp.
    repeat match type of Hp with
    | (if ?b then _ else _) = _ => destruct b; try discriminate
    end.
    injection Hp as <-. reflexivity.
Qed.

End DefaultsFacts.

(** ** The end of a run, with errors *)
Module PipeErrorFacts.
Import pipe.

Section Run.
Variable R : Type.
Variable sink : list R -> R -> list R * option error.

Abbreviation run evs st := (fold_left (step R sink) evs st).
Abbreviation start := {| pipeOf := New; seen := [] |}.

(** An error in [errCh] comes with [stopped] closed. *)
Abbreviation settled p := (errCh p <> None -> stopped p = true).

Lemma reportError_kept sendWins err p e :
  errCh p = Some e -> errCh (reportError sendWins err p) = Some e.
Proof. intros He. unfold reportError. rewrite He. destruct (stopped p); exact He. Qed.

Lemma reportError_settled sendWins err p :
  settled p -> settled (reportError sendWins err p).
Proof.
  intros Hp. unfold reportError.
  destruct (stopped p) eqn:Es, (errCh p) eqn:Ee.
  - intros _. exact Es.
  - destruct sendWins; intros _; [reflexivity|exact Es].
  - intros _. rewrite Es. apply Hp. discriminate.
  - intros _. reflexivity.
Qed.

Lemma step_kept st ev e :
  errCh (pipeOf R st) = Some e -> errCh (pipeOf R (step R sink st ev)) = Some e.
Proof.
  intros He. destruct ev as [sendWins r|sendWins err|]; simpl.
  - destruct (sink (seen R st) r) as [seen' [e'|]]; simpl; [|exact He].
    apply reportError_kept, He.
  - apply reportError_kept, He.
  - exact He.
Qed.

Lemma step_settled st ev :
  settled (pipeOf R st) -> settled (pipeOf R (step R sink st ev)).
Proof.
  intros Hp. destruct ev as [sendWins r|sendWins err|]; simpl.
  - destruct (sink (seen R st) r) as [seen' [e'|]]; simpl; [|exact Hp].
    apply reportError_settled, Hp.
  - apply reportError_settled, Hp.
  - reflexivity.
Qed.

Lemma run_kept evs : forall st e,
  errCh (pipeOf R st) = Some e -> errCh (pipeOf R (run evs st)) = Some e.
Proof.
  induction evs as [|ev evs IH]; intros st e He; simpl; [exact He|].
  apply IH, step_kept, He.
Qed.

Lemma run_settled evs : forall st,
  settled (pipeOf R st) -> settled (pipeOf R (run evs st)).
Proof.
  induction evs as [|ev evs IH]; intros st Hs; simpl; [exact Hs|].
  apply IH, step_settled, Hs.
Qed.

(** The event [ev], met in the state [st], reports the error [err]. *)
Abbreviation reports st ev err :=
  (match ev with
   | Reported _ _ e => e = err
   | Delivered _ _ r => snd (sink (seen R st) r) = Some err
   | Drained _ => False
   end).

Lemma step_first st ev err :
  stopped (pipeOf R st) = false -> settled (pipeOf R st) -> reports st ev err ->
  errCh (pipeOf R (step R sink st ev)) = Some err.
Proof.
  intros Hrun Hs Hr.
  assert (He : errCh (pipeOf R st) = None).
  { destruct (errCh (pipeOf R st)) eqn:E; [|reflexivity].
    rewrite Hs in Hrun; [discriminate|discriminate]. }
  destruct ev as [sendWins r|sendWins e|]; simpl in *; [| |contradiction].
  - destruct (sink (seen R st) r) as [seen' o]. simpl in Hr. subst o. simpl.
    unfold reportError. rewrite Hrun, He. reflexivity.
  - subst e. unfold reportError. rewrite Hrun, He. reflexivity.
Qed.

Lemma run_origin evs : forall st err,
  errCh (pipeOf R st) = None ->
  errCh (pipeOf R (run evs st)) = Some err ->
  exists evs1 ev evs2,
    evs = evs1 ++ ev :: evs2
    /\ errCh (pipeOf R (run evs1 st)) = None
    /\ reports (run evs1 st) ev err.
Proof.
  induction evs as [|ev evs IH]; intros st err Hn He; simpl in He; [congruence|].
  destruct (errCh (pipeOf R (step R sink st ev))) as [e|] eqn:E.
  - rewrite (run_kept evs _ e E) in He. injection He as ->.
    exists [], ev, evs. split; [reflexivity|]. split; [exact Hn|].
    destruct ev as [sendWins r|sendWins e|]; simpl in *.
    + destruct (sink (seen R st) r) as [seen' [e'|]]; simpl in *; [|congruence].
      unfold reportError in E. rewrite Hn in E.
      destruct (stopped (pipeOf R st)); [destruct sendWins|]; simpl in E; congruence.
    + unfold reportError in E. rewrite Hn in E.
      destruct (stopped (pipeOf R st)); [destruct sendWins|]; simpl in E; congruence.
    + congruence.
  - destruct (IH _ err E He) as (evs1 & ev' & evs2 & -> & Hn1 & Hr).
    exists (ev :: evs1), ev', evs2. auto.
Qed.

End Run.



End PipeErrorFacts.

(** ** The parsers keep what is set *)
Module ParserOrderFacts.
Import titleparser.

(** A parser that changes no field that is set: a text field that is not
    empty, a year, a resolution or a first season above zero (with the last
    season and the episode that go with it), a 3D mark that is raised. *)
Abbreviation keepsSet p :=
  (forall title mi,
     (Quality mi <> "" -> Quality (snd (p title mi)) = Quality mi)
     /\ (Codec mi <> "" -> Codec (snd (p title mi)) = Codec mi)
     /\ (Audio mi <> "" -> Audio (snd (p title mi)) = Audio mi)
     /\ (Container mi <> "" -> Container (snd (p title mi)) = Container mi)
     /\ (0 < Year mi -> Year (snd (p title mi)) = Year mi)
     /\ (0 < Resolution mi -> Resolution (snd (p title mi)) = Resolution mi)
     /\ (ThreeD mi = true -> ThreeD (snd (p title mi)) = true)
     /\ (0 < FromSeason mi ->
         FromSeason (snd (p title mi)) = FromSeason mi
         /\ ToSeason (snd (p title mi)) = ToSeason mi
         /\ Episode (snd (p title mi)) = Episode mi)).

(** Fields set in [m0] have the same value in [m]. *)
Abbreviation sameSet m0 m :=
  ((Quality m0 <> "" -> Quality m = Quality m0)
   /\ (Codec m0 <> "" -> Codec m = Codec m0)
   /\ (Audio m0 <> "" -> Audio m = Audio m0)
   /\ (Container m0 <> "" -> Container m = Container m0)
   /\ (0 < Year m0 -> Year m = Year m0)
   /\ (0 < Resolution m0 -> Resolution m = Resolution m0)
   /\ (ThreeD m0 = true -> ThreeD m = true)
   /\ (0 < FromSeason m0 ->
       FromSeason m = FromSeason m0 /\ ToSeason m = ToSeason m0
       /\ Episode m = Episode m0)).

Section Kept.
Context `{GoLib}.

Ltac kept :=
  intros title mi;
  cbv beta delta [parseYear parseResolution matchAndSetResolution
    parseQuality matchAndSetQuality parseCodec parseAudio matchAndSetAudio
    parseContainer parse3D parseSeasonAndEpisode parseMultiSeason
    parseSingleSeason parseLanguage parseFillerWords
    findValue findSubValue findAndSet lastSubmatch];
  repeat (cbv beta iota delta [negb];
          match goal with
  | |- context [-1 =? -1] => change (-1 =? -1) with true
  | |- context [String.eqb ?v ""] => destruct (String.eqb_spec v "")
  | |- context [0 <? ?v] => destruct (Z.ltb_spec 0 v)
  | |- context [if ThreeD ?m then _ else _] => destruct (ThreeD m) eqn:?
  | |- context [let '(_, _) := ?e in _] => destruct e
  | |- context [if ?b then _ else _] => destruct b
  | |- context [match ?e with Some _ => _ | None => _ end] => destruct e
  end);
  cbn; repeat split; intros; first [reflexivity | contradiction | lia | congruence].

Lemma parseYear_kept pattern : keepsSet (parseYear pattern).
Proof. kept. Qed.
Lemma parseResolution_kept pattern : keepsSet (parseResolution pattern).
Proof. kept. Qed.
Lemma matchAndSetResolution_kept pattern v : keepsSet (matchAndSetResolution pattern v).
Proof. kept. Qed.
Lemma parseQuality_kept pattern : keepsSet (parseQuality pattern).
Proof. kept. Qed.
Lemma matchAndSetQuality_kept pattern v : keepsSet (matchAndSetQuality pattern v).
Proof. kept. Qed.
Lemma parseCodec_kept pattern : keepsSet (parseCodec pattern).
Proof. kept. Qed.
Lemma parseAudio_kept pattern : keepsSet (parseAudio pattern).
Proof. kept. Qed.
Lemma matchAndSetAudio_kept pattern v : keepsSet (matchAndSetAudio pattern v).
Proof. kept. Qed.
Lemma parseContainer_kept pattern : keepsSet (parseContainer pattern).
Proof. kept. Qed.
Lemma parse3D_kept pattern : keepsSet (parse3D pattern).
Proof. kept. Qed.
Lemma parseSeasonAndEpisode_kept pattern : keepsSet (parseSeasonAndEpisode pattern).
Proof. kept. Qed.
Lemma parseMultiSeason_kept pattern : keepsSet (parseMultiSeason pattern).
Proof. kept. Qed.
Lemma parseSingleSeason_kept pattern : keepsSet (parseSingleSeason pattern).
Proof. kept. Qed.
Lemma parseLanguage_kept pattern : keepsSet (parseLanguage pattern).
Proof. kept. Qed.
Lemma parseFillerWords_kept pattern : keepsSet (parseFillerWords pattern).
Proof. kept. Qed.

Lemma parsers_kept : Forall (fun p => keepsSet p) parsers.
Proof.
  unfold parsers.
  repeat (apply Forall_cons; split;
          [first [ apply parseYear_kept | apply parseResolution_kept
                 | apply matchAndSetResolution_kept | apply parseQuality_kept
                 | apply matchAndSetQuality_kept | apply parseCodec_kept
                 | apply parseAudio_kept | apply matchAndSetAudio_kept
                 | apply parseContainer_kept | apply parse3D_kept
                 | apply parseSeasonAndEpisode_kept | apply parseMultiSeason_kept
                 | apply parseSingleSeason_kept | apply parseLanguage_kept
                 | apply parseFillerWords_kept ]|]).
  apply Forall_nil_2.
Qed.

Lemma fold_step_kept title ps :
  Forall (fun p => keepsSet p) ps ->
  forall st, sameSet (snd st) (snd (fold_left (step title) ps st)).
Proof.
  induction 1 as [|p ps Hp _ IH]; intros st; cbn [fold_left].
  - repeat match goal with |- _ /\ _ => split end; auto.
  - specialize (IH (step title st p)).
    assert (Hs : snd (step title st p) = snd (p title (snd st))).
    { destruct st as [index m]. unfold step. cbn [snd].
      destruct (p title m) as [nextIndex m']. destruct (_ && _); reflexivity. }
    rewrite Hs in IH. specialize (Hp title (snd st)).
    destruct Hp as (H1 & H2 & H3 & H4 & H5 & H6 & H7 & H8).
    destruct IH as (I1 & I2 & I3 & I4 & I5 & I6 & I7 & I8).
    repeat match goal with |- _ /\ _ => split end; intros Hset.
    + rewrite I1; rewrite H1; auto.
    + rewrite I2; rewrite H2; auto.
    + rewrite I3; rewrite H3; auto.
    + rewrite I4; rewrite H4; auto.
    + rewrite I5; rewrite H5; auto.
    + rewrite I6; rewrite H6; auto.
    + auto.
    + destruct (H8 Hset) as (Hf & Ht & He).
      destruct I8 as (If & It & Ie); [rewrite Hf; exact Hset|].
      rewrite If, It, Ie. auto.
Qed.

(** The cut index stays within the title. *)
Lemma fold_step_index title ps :
  forall st, 0 <= fst st <= len title ->
             0 <= fst (fold_left (step title) ps st) <= len title.
Proof.
  induction ps as [|p ps IH]; intros st Hst; cbn [fold_left]; [exact Hst|].
  apply IH. destruct st as [index m]. unfold step.
  destruct (p title m) as [nextIndex m'].
  destruct (_ && _) eqn:E; simpl in *; [|exact Hst].
  apply andb_true_iff in E as [E1 E2]. lia.
Qed.

Lemma substring_prefix n : forall s, exists rest, s = substring 0 n s +:+ rest.
Proof.
  induction n as [|n IH]; intros s.
  - exists s. destruct s; reflexivity.
  - destruct s as [|c s]; [exists ""; reflexivity|].
    destruct (IH s) as (rest & Hrest). exists rest.
    change (String c s = String c (substring 0 n s +:+ rest)).
    f_equal. exact Hrest.
Qed.

Lemma fold_step_Quality title ps :
  Forall (fun p : parser => forall mi, Quality (snd (p title mi)) = Quality mi) ps ->
  forall st, Quality (snd (fold_left (step title) ps st)) = Quality (snd st).
Proof.
  induction 1 as [|p ps Hp _ IH]; intros st; cbn [fold_left]; [reflexivity|].
  rewrite IH. destruct st as [index m]. unfold step. cbn [snd].
  specialize (Hp m). destruct (p title m) as [nextIndex m'].
  destruct (_ && _); exact Hp.
Qed.

(** The parsers before the first quality pattern leave the quality empty. *)
Lemma Quality_before_cam title :
  Quality (snd (fold_left (step title)
                  [parseYear "(?:\b((?:19[0-9]|20[0-9])[0-9])\b)|(?:\(((?:19[0-9]|20[0-9])[0-9])\))";
                   parseResolution "(?i)([0-9]{3,4})[pi]";
                   matchAndSetResolution "(?i)(4k)" 2160]
                  (len title, zero))) = "".
Proof.
  rewrite fold_step_Quality; [reflexivity|].
  repeat (apply Forall_cons; split); [..|apply Forall_nil_2];
    intros mi; unfold parseYear, parseResolution, matchAndSetResolution;
    repeat match goal with
    | |- context [let '(_, _) := ?e in _] => destruct e
    | |- context [if ?b then _ else _] => destruct b
    end; reflexivity.
Qed.

Lemma cam_step title st :
  Quality (snd st) = "" ->
  FindAllStringIndex "(?i)\b(?:HD-?)?CAM(?:rip)?\b" title <> [] ->
  Quality (snd (step title st
                  (matchAndSetQuality "(?i)\b(?:HD-?)?CAM(?:rip)?\b" "cam"))) = "cam".
Proof.
  intros Hq Hcam. destruct st as [index m]. cbn [snd] in Hq.
  unfold step, matchAndSetQuality, findAndSet. rewrite Hq. cbn [String.eqb negb].
  destruct (last (FindAllStringIndex _ title)) as [[a b]|] eqn:El.
  - destruct (_ && _); reflexivity.
  - apply last_None in El. contradiction.
Qed.

End Kept.

(** X8. No parser of the list changes a field that is set: whatever the
    regular-expression engine answers, a quality, codec, audio or
    container that is not empty, a year, a resolution or a first season
    above zero and a raised 3D mark keep their value through every later
    parser, so that the first pattern that sets a field decides it.  A
    title the CAM pattern matches is parsed as [cam], whatever else it
    holds. *)
Theorem Parse_first_match_wins :
  (forall (lib : GoLib) title before after,
     parsers = before ++ after ->
     let mid := snd (fold_left (step title) before (len title, zero)) in
     (Quality mid <> "" -> Quality (Parse title) = Quality mid)
     /\ (Codec mid <> "" -> Codec (Parse title) = Codec mid)
     /\ (Audio mid <> "" -> Audio (Parse title) = Audio mid)
     /\ (Container mid <> "" -> Container (Parse title) = Container mid)
     /\ (0 < Year mid -> Year (Parse title) = Year mid)
     /\ (0 < Resolution mid -> Resolution (Parse title) = Resolution mid)
     /\ (ThreeD mid = true -> ThreeD (Parse title) = true)
     /\ (0 < FromSeason mid ->
         FromSeason (Parse title) = FromSeason mid
         /\ ToSeason (Parse title) = ToSeason mid
         /\ Episode (Parse title) = Episode mid))
  /\ (forall (lib : GoLib) title,
        FindAllStringIndex "(?i)\b(?:HD-?)?CAM(?:rip)?\b" title <> [] ->
        Quality (Parse title) = "cam").
Proof.
  assert (Hgen : forall (lib : GoLib) title before after,
     parsers = before ++ after ->
     let mid := snd (fold_left (step title) before (len title, zero)) in
     (Quality mid <> "" -> Quality (Parse title) = Quality mid)
     /\ (Codec mid <> "" -> Codec (Parse title) = Codec mid)
     /\ (Audio mid <> "" -> Audio (Parse title) = Audio mid)
     /\ (Container mid <> "" -> Container (Parse title) = Container mid)
     /\ (0 < Year mid -> Year (Parse title) = Year mid)
     /\ (0 < Resolution mid -> Resolution (Parse title) = Resolution mid)
     /\ (ThreeD mid = true -> ThreeD (Parse title) = true)
     /\ (0 < FromSeason mid ->
         FromSeason (Parse title) = FromSeason mid
         /\ ToSeason (Parse title) = ToSeason mid
         /\ Episode (Parse title) = Episode mid)).
  { intros lib title before after Hsplit mid. unfold Parse. rewrite Hsplit.
    rewrite fold_left_app.
    assert (Hafter : Forall (fun p => keepsSet p) after).
    { pose proof parsers_kept as Hall. rewrite Hsplit in Hall.
      apply Forall_app in Hall as [_ Hall]. exact Hall. }
    pose proof (fold_step_kept title after Hafter
                  (fold_left (step title) before (len title, zero))) as Hk.
    fold mid in Hk.
    destruct (fold_left (step title) after _) as [index m]. exact Hk. }
  split; [exact Hgen|].
  intros lib title Hcam.
  pose proof (Hgen lib title
                [parseYear "(?:\b((?:19[0-9]|20[0-9])[0-9])\b)|(?:\(((?:19[0-9]|20[0-9])[0-9])\))";
                 parseResolution "(?i)([0-9]{3,4})[pi]";
                 matchAndSetResolution "(?i)(4k)" 2160;
                 matchAndSetQuality "(?i)\b(?:HD-?)?CAM(?:rip)?\b" "cam"]
                _ eq_refl) as (Hq & _).
  assert (Hmid : Quality (snd (fold_left (step title)
                [parseYear "(?:\b((?:19[0-9]|20[0-9])[0-9])\b)|(?:\(((?:19[0-9]|20[0-9])[0-9])\))";
                 parseResolution "(?i)([0-9]{3,4})[pi]";
                 matchAndSetResolution "(?i)(4k)" 2160;
                 matchAndSetQuality "(?i)\b(?:HD-?)?CAM(?:rip)?\b" "cam"]
                (len title, zero))) = "cam").
  { exact (cam_step title _ (Quality_before_cam title) Hcam). }
  rewrite Hq; rewrite Hmid; [reflexivity|discriminate].
Qed.

(** The title [Movie CAM BluRay] is parsed as [cam]. *)
Lemma Parse_cam :
  Quality (Parse (H := Samples.lib) Samples.camTitle) = "cam".
Proof.
  apply (proj2 Parse_first_match_wins Samples.lib Samples.camTitle).
  vm_compute. discriminate.
Defined.

(** X9. Whatever the regular-expression engine answers, the cut index of
    [Parse] stays between zero and the length of the title, and the title
    [Parse] returns is a prefix of the title it was given. *)
Theorem Parse_Title_prefix :
  forall (lib : GoLib) title,
    (exists index, 0 <= index <= len title
                   /\ Title (Parse title) = slice title 0 index)
    /\ exists rest, title = Title (Parse title) +:+ rest.
Proof.
  intros lib title.
  pose proof (fold_step_index title parsers (len title, zero)) as Hi.
  assert (Ht : exists index, 0 <= index <= len title
                             /\ Title (Parse title) = slice title 0 index).
  { unfold Parse. destruct (fold_left (step title) parsers _) as [index m].
    exists index. split; [|reflexivity]. apply Hi. simpl. unfold len. lia. }
  split; [exact Ht|].
  destruct Ht as (index & _ & ->). unfold slice. apply substring_prefix.
Qed.

End ParserOrderFacts.

(** ** Facts on [strings.Split] *)
Module SplitFacts.
Import gostrings.

Lemma splitFrom_skip sep cur s : forall skip,
  (String.length s <= skip)%nat -> splitFrom sep skip cur s = [cur].
Proof.
  induction s as [|c s IH]; intros skip Hs; [reflexivity|].
  simpl in Hs. destruct skip as [|k]; [lia|]. simpl. apply IH. lia.
Qed.

Lemma prefix_refl s : String.prefix s s = true.
Proof.
  induction s as [|c s IH]; [reflexivity|].
  simpl. destruct (ascii_dec c c); [exact IH|contradiction].
Qed.

Lemma append_assoc_byte cur c s : (cur +:+ String c "") +:+ s = cur +:+ String c s.
Proof.
  induction cur as [|a cur IH]; [reflexivity|].
  change (String a ((cur +:+ String c "") +:+ s) = String a (cur +:+ String c s)).
  f_equal. exact IH.
Qed.

Lemma append_empty_r s : s +:+ "" = s.
Proof.
  induction s as [|a s IH]; [reflexivity|].
  change (String a (s +:+ "") = String a s). f_equal. exact IH.
Qed.

(** A string without the first byte of the separator is one piece, and
    followed by the separator it is that piece and an empty one. *)
Lemma splitFrom_piece c0 sep' s : forall cur,
  Forall (fun c => c <> c0) (list_ascii_of_string s) ->
  splitFrom (String c0 sep') 0 cur s = [cur +:+ s]
  /\ splitFrom (String c0 sep') 0 cur (s +:+ String c0 sep') = [cur +:+ s; ""].
Proof.
  induction s as [|c s IH]; intros cur Hs.
  - rewrite append_empty_r. split; [reflexivity|].
    change ("" +:+ String c0 sep') with (String c0 sep').
    cbn [splitFrom]. rewrite prefix_refl. f_equal.
    apply splitFrom_skip. simpl. lia.
  - cbn [list_ascii_of_string] in Hs. apply Forall_cons in Hs as [Hc Hs].
    change (String c s +:+ String c0 sep') with (String c (s +:+ String c0 sep')).
    cbn [splitFrom String.prefix].
    destruct (ascii_dec c0 c) as [E|_]; [congruence|].
    rewrite <- (append_assoc_byte cur c s). apply IH, Hs.
Qed.

End SplitFacts.

(** ** The years of a title and the year of a torrent *)
Module CinemetaFacts.
Import addon.

(** X10. Once the request has an answer, [GetMovieById] and
    [GetSeriesById] return no error: a year or an id that does not parse
    counts as zero.  A movie has its one year as first and last year.  For
    a series whose year holds no dash, the year is both; for a year made
    of digits followed by the dash alone (a series that still runs), the
    last year is zero, and the exclusion filter then drops every torrent
    whose title carries a year. *)
Theorem GetSeriesById_years :
  forall (Get : string -> cinemeta.MetaInfo + cinemeta.error),
    (forall id meta, Get ("/meta/movie/" +:+ id +:+ ".json") = inl meta ->
       exists info, cinemeta.GetMovieById Get id = inl info
                    /\ model.FromYear info = fst (strconv.Atoi (cinemeta.Year meta))
                    /\ model.ToYear info = model.FromYear info)
    /\ (forall id meta, Get ("/meta/series/" +:+ id +:+ ".json") = inl meta ->
          exists info, cinemeta.GetSeriesById Get id = inl info
                       /\ model.Name info = cinemeta.Name meta)
    /\ (forall id meta,
          Get ("/meta/series/" +:+ id +:+ ".json") = inl meta ->
          Forall (fun c => c <> ascii_of_nat 226) (list_ascii_of_string (cinemeta.Year meta)) ->
          exists info, cinemeta.GetSeriesById Get id = inl info
                       /\ model.FromYear info = fst (strconv.Atoi (cinemeta.Year meta))
                       /\ model.ToYear info = model.FromYear info)
    /\ (forall id meta from,
          Get ("/meta/series/" +:+ id +:+ ".json") = inl meta ->
          cinemeta.Year meta = from +:+ cinemeta.enDash ->
          Forall (fun c => c <> ascii_of_nat 226) (list_ascii_of_string from) ->
          exists info, cinemeta.GetSeriesById Get id = inl info
                       /\ model.FromYear info = fst (strconv.Atoi from)
                       /\ model.ToYear info = 0
                       /\ forall (lib : GoLib) r,
                            MetaInfo r = info ->
                            0 < titleparser.Year (TitleInfo r) ->
                            excludeTorrents r = false).
Proof.
  intros Get. split; [|split; [|split]].
  - intros id meta Hget. unfold cinemeta.GetMovieById. rewrite Hget.
    eexists. split; [reflexivity|]. split; reflexivity.
  - intros id meta Hget. unfold cinemeta.GetSeriesById. rewrite Hget.
    destruct (cinemeta.seriesYears _) as [fromYear toYear].
    eexists. split; [reflexivity|]. reflexivity.
  - intros id meta Hget Hyear. unfold cinemeta.GetSeriesById. rewrite Hget.
    unfold gostrings.Split, cinemeta.enDash.
    rewrite (proj1 (SplitFacts.splitFrom_piece _ _ _ "" Hyear)).
    cbn [cinemeta.seriesYears]. eexists. split; [reflexivity|]. split; reflexivity.
  - intros id meta from Hget Hyear Hfrom. unfold cinemeta.GetSeriesById.
    rewrite Hget, Hyear. unfold gostrings.Split, cinemeta.enDash.
    rewrite (proj2 (SplitFacts.splitFrom_piece _ _ _ "" Hfrom)).
    cbn [cinemeta.seriesYears]. eexists. split; [reflexivity|].
    split; [reflexivity|]. split; [reflexivity|].
    intros lib r Hinfo Hy. unfold excludeTorrents.
    assert (Hyear0 : yearOK r = false).
    { unfold yearOK. rewrite Hinfo. cbn [model.FromYear model.ToYear].
      apply orb_false_iff. split; [apply Z.eqb_neq; lia|].
      apply andb_false_iff. right. apply Z.leb_gt. exact Hy. }
    rewrite Hyear0, !andb_false_r. reflexivity.
Qed.

(** A series that still runs, of year [2019] and the dash: its last year
    is zero. *)
Lemma GetSeriesById_ongoing :
  exists info,
    cinemeta.GetSeriesById Samples.cinemetaGet "tt0000001" = inl info
    /\ model.FromYear info = fst (strconv.Atoi "2019")
    /\ model.ToYear info = 0
    /\ forall (lib : GoLib) r,
         MetaInfo r = info ->
         0 < titleparser.Year (TitleInfo r) ->
         excludeTorrents r = false.
Proof.
  apply (proj2 (proj2 (proj2 (GetSeriesById_years Samples.cinemetaGet)))
           "tt0000001" Samples.runningShow "2019"); [reflexivity|reflexivity|].
  repeat constructor; discriminate.
Defined.

End CinemetaFacts.

(** ** The link of a file of a torrent *)
Module LinkFacts.
Import debrid.

Abbreviation idOf f := (addon.fmt_d (TorrentFile.ID f)).
Abbreviation selected := (fun f => 0 <? TorrentFile.Selected f).

(** The number of selected files of a list. *)
Abbreviation rank files := (Z.of_nat (length (List.filter selected files))).

Lemma indexFrom_spec files fileID : forall index,
  (indexFrom files fileID index = -1
   /\ ((forall g, g ∈ files -> idOf g <> fileID)
       \/ exists before f after,
            files = before ++ f :: after /\ idOf f = fileID
            /\ (forall g, g ∈ before -> idOf g <> fileID)
            /\ selected f = false))
  \/ (exists before f after,
        files = before ++ f :: after /\ idOf f = fileID
        /\ (forall g, g ∈ before -> idOf g <> fileID)
        /\ selected f = true
        /\ indexFrom files fileID index = index + rank before).
Proof.
  induction files as [|f0 rest IH]; intros index; cbn [indexFrom].
  - left. split; [reflexivity|]. left. intros g Hg. apply elem_of_nil in Hg. contradiction.
  - destruct (String.eqb_spec (idOf f0) fileID) as [Hid|Hid].
    + destruct (0 <? TorrentFile.Selected f0) eqn:Hsel.
      * right. exists [], f0, rest. repeat split; auto.
        -- intros g Hg. apply elem_of_nil in Hg. contradiction.
        -- simpl. lia.
      * left. split; [reflexivity|]. right. exists [], f0, rest. repeat split; auto.
        intros g Hg. apply elem_of_nil in Hg. contradiction.
    + destruct (IH (if 0 <? TorrentFile.Selected f0 then index + 1 else index))
        as [[Hi [Hnone|(before & f & after & -> & Hf & Hb & Hs)]]
           |(before & f & after & -> & Hf & Hb & Hs & Hi)].
      * left. split; [exact Hi|]. left. intros g Hg.
        apply elem_of_cons in Hg as [->|Hg]; auto.
      * left. split; [exact Hi|]. right. exists (f0 :: before), f, after.
        repeat split; auto. intros g Hg. apply elem_of_cons in Hg as [->|Hg]; auto.
      * right. exists (f0 :: before), f, after. repeat split; auto.
        -- intros g Hg. apply elem_of_cons in Hg as [->|Hg]; auto.
        -- rewrite Hi. cbn [List.filter].
           destruct (0 <? TorrentFile.Selected f0); cbn [length]; lia.
Qed.

Lemma rank_app l1 l2 : rank (l1 ++ l2) = rank l1 + rank l2.
Proof. rewrite List.filter_app, length_app. lia. Qed.

(** X11. [getIndexOfLinkForFile] looks at the first file whose id prints
    as the id asked for: when that file is selected the result is the
    number of selected files before it, which is below the number of
    selected files of the torrent; when there is no such file, or it is not
    selected, the result is -1. *)
Theorem getIndexOfLinkForFile_rank :
  forall torrent fileID,
    (getIndexOfLinkForFile torrent fileID = -1
     /\ ((forall g, g ∈ Files torrent -> idOf g <> fileID)
         \/ exists before f after,
              Files torrent = before ++ f :: after /\ idOf f = fileID
              /\ (forall g, g ∈ before -> idOf g <> fileID)
              /\ TorrentFile.Selected f <= 0))
    \/ (exists before f after,
          Files torrent = before ++ f :: after /\ idOf f = fileID
          /\ (forall g, g ∈ before -> idOf g <> fileID)
          /\ 0 < TorrentFile.Selected f
          /\ getIndexOfLinkForFile torrent fileID = rank before
          /\ 0 <= getIndexOfLinkForFile torrent fileID < rank (Files torrent)).
Proof.
  intros torrent fileID. unfold getIndexOfLinkForFile.
  destruct (indexFrom_spec (Files torrent) fileID 0)
    as [[Hi [Hnone|(before & f & after & Hfiles & Hf & Hb & Hs)]]
       |(before & f & after & Hfiles & Hf & Hb & Hs & Hi)].
  - left. auto.
  - left. split; [exact Hi|]. right. exists before, f, after.
    repeat split; auto. apply Z.ltb_ge in Hs. exact Hs.
  - right. exists before, f, after. rewrite Hi, Hfiles, rank_app.
    cbn [List.filter]. rewrite Hs. cbn [length].
    apply Z.ltb_lt in Hs. repeat split; auto; lia.
Qed.

Lemma indexFrom_range torrent fileID :
  getIndexOfLinkForFile torrent fileID = -1 \/ 0 <= getIndexOfLinkForFile torrent fileID.
Proof.
  destruct (getIndexOfLinkForFile_rank torrent fileID)
    as [[Hi _]|(before & f & after & _ & _ & _ & _ & _ & Hr)]; [left; exact Hi|right; lia].
Qed.

End LinkFacts.

(** ** Downloads *)
Module DownloadFacts.
Import debrid LinkFacts.

Section Service.
Variable S : Type.
Variable selectFileToDownload : string -> S -> option string * S.
Variable getTorrent : string -> S -> (Torrent + string) * S.
Variable getTorrents : S -> (list Torrent + string) * S.
Variable addMagnet : string -> S -> (string + string) * S.
Variable generateDownload : string -> S -> (string + string) * S.

Abbreviation getDownload' :=
  (getDownload S selectFileToDownload getTorrent generateDownload).
Abbreviation firstDownload' :=
  (firstDownload S selectFileToDownload getTorrent generateDownload).
Abbreviation getDownloadByInfoHash' :=
  (getDownloadByInfoHash S selectFileToDownload getTorrent getTorrents generateDownload).

(** The end of [getDownload], on the torrent it holds after the refresh. *)
Lemma getDownload_end (t : Torrent) fileID s out s' :
  (if negb (String.eqb (Status t) "downloaded") then fail S ErrTorrentNotReady
   else
     if getIndexOfLinkForFile t fileID =? -1 then fail S ErrNoFileFound
     else if (Z.of_nat (length (Links t)) =? 0)
             || (Z.of_nat (length (Links t)) <=? getIndexOfLinkForFile t fileID)
     then fail S ErrNotSupported
     else
       match (if getIndexOfLinkForFile t fileID <? 0 then None
              else Links t !! Z.to_nat (getIndexOfLinkForFile t fileID)) with
       | Some link => call S (generateDownload link)
       | None => panic S
       end) s = (out, s') ->
  out <> Panic
  /\ forall url, out = Ok url ->
       Status t = "downloaded"
       /\ 0 <= getIndexOfLinkForFile t fileID
       /\ exists link,
            Links t !! Z.to_nat (getIndexOfLinkForFile t fileID) = Some link
            /\ generateDownload link s = (inl url, s').
Proof.
  destruct (String.eqb_spec (Status t) "downloaded") as [Hst|Hst]; cbn [negb].
  2: { intros [= <- <-]. split; [discriminate|]. discriminate. }
  destruct (Z.eqb_spec (getIndexOfLinkForFile t fileID) (-1)) as [Hi|Hi].
  { intros [= <- <-]. split; discriminate. }
  destruct (_ || _) eqn:Hb.
  { intros [= <- <-]. split; discriminate. }
  apply orb_false_iff in Hb as [Hb1 Hb2].
  apply Z.eqb_neq in Hb1. apply Z.leb_gt in Hb2.
  destruct (indexFrom_range t fileID) as [Hc|Hpos]; [contradiction|].
  destruct (Z.ltb_spec (getIndexOfLinkForFile t fileID) 0) as [Hneg|_]; [lia|].
  destruct (Links t !! Z.to_nat (getIndexOfLinkForFile t fileID)) as [link|] eqn:El.
  2: { apply lookup_ge_None in El. lia. }
  unfold call. destruct (generateDownload link s) as [[url|message] s1] eqn:Eg;
    intros [= <- <-]; (split; [discriminate|]).
  - intros url' [= <-]. repeat split; auto. exists link. split; [reflexivity|exact Eg].
  - discriminate.
Qed.

Lemma getDownload_cases torrent fileID s out s' :
  getDownload' torrent fileID s = (out, s') ->
  out <> Panic
  /\ forall url, out = Ok url ->
       exists t s1 link,
         Status t = "downloaded"
         /\ 0 <= getIndexOfLinkForFile t fileID
         /\ Links t !! Z.to_nat (getIndexOfLinkForFile t fileID) = Some link
         /\ generateDownload link s1 = (inl url, s')
         /\ ((t = torrent /\ s1 = s
              /\ Status torrent <> "waiting_files_selection")
             \/ exists s0,
                  selectFileToDownload (ID torrent) s = (None, s0)
                  /\ getTorrent (ID torrent) s0 = (inl t, s1)).
Proof.
  unfold getDownload, bind.
  destruct (String.eqb_spec (Status torrent) "waiting_files_selection") as [Hw|Hw];
    cbn [orb].
  - unfold callSelect, call.
    destruct (selectFileToDownload (ID torrent) s) as [[message|] s0] eqn:Es.
    { intros [= <- <-]. split; discriminate. }
    destruct (getTorrent (ID torrent) s0) as [[t|message] s1] eqn:Et.
    2: { intros [= <- <-]. split; discriminate. }
    intros Hend. destruct (getDownload_end t fileID s1 out s' Hend) as [Hp Hok].
    split; [exact Hp|]. intros url Hurl.
    destruct (Hok url Hurl) as (Hst & Hpos & link & Hl & Hg).
    exists t, s1, link. repeat split; auto. right. exists s0. auto.
  - destruct (Z.eqb_spec (getIndexOfLinkForFile torrent fileID) (-1)) as [Hi|Hi].
    + unfold callSelect, call.
      destruct (selectFileToDownload (ID torrent) s) as [[message|] s0] eqn:Es.
      { intros [= <- <-]. split; discriminate. }
      destruct (getTorrent (ID torrent) s0) as [[t|message] s1] eqn:Et.
      2: { intros [= <- <-]. split; discriminate. }
      intros Hend. destruct (getDownload_end t fileID s1 out s' Hend) as [Hp Hok].
      split; [exact Hp|]. intros url Hurl.
      destruct (Hok url Hurl) as (Hst & Hpos & link & Hl & Hg).
      exists t, s1, link. repeat split; auto. right. exists s0. auto.
    + unfold ret. intros Hend.
      destruct (getDownload_end torrent fileID s out s' Hend) as [Hp Hok].
      split; [exact Hp|]. intros url Hurl.
      destruct (Hok url Hurl) as (Hst & Hpos & link & Hl & Hg).
      exists torrent, s, link. repeat split; auto.
Qed.

Lemma firstDownload_cases torrents infoHash fileID : forall s out s',
  firstDownload' torrents infoHash fileID s = (out, s') ->
  out <> Panic /\ out <> Err ErrNoFileFound
  /\ ((forall t, t ∈ torrents -> Hash t <> infoHash) ->
      out = Err ErrNoTorrentFound /\ s' = s).
Proof.
  induction torrents as [|t rest IH]; intros s out s'; cbn [firstDownload].
  - intros [= <- <-]. split; [discriminate|]. split; [discriminate|].
    intros _. split; reflexivity.
  - destruct (String.eqb_spec (Hash t) infoHash) as [Hh|Hh].
    + assert (Hmatch : (forall t', t' ∈ t :: rest -> Hash t' <> infoHash) -> False).
      { intros Hno. apply (Hno t); [left|exact Hh]. }
      destruct (getDownload' t fileID s) as [o s1] eqn:Eg.
      destruct (getDownload_cases t fileID s o s1 Eg) as [Hp _].
      destruct o as [download|e|]; [| |contradiction].
      * intros [= <- <-]. split; [discriminate|]. split; [discriminate|].
        intros Hno. contradiction.
      * destruct e;
          try (intros [= <- <-]; split; [discriminate|]; split; [discriminate|];
               intros Hno; contradiction).
        intros Hrest. destruct (IH _ _ _ Hrest) as (H1 & H2 & _).
        split; [exact H1|]. split; [exact H2|]. intros Hno. contradiction.
    + intros Hrest. destruct (IH _ _ _ Hrest) as (H1 & H2 & H3).
      split; [exact H1|]. split; [exact H2|]. intros Hno.
      apply H3. intros t' Ht'. apply Hno. now right.
Qed.

End Service.

(** X12. [getDownload] never reads a link out of the range of [Links].
    When it returns a download, the torrent it holds (the one it was
    given, or the one fetched again after the selection of the files) has
    the status [downloaded], the file asked for is selected in it, and the
    download was generated from the link at the rank of that file among
    the selected files. *)
Theorem getDownload_link :
  forall (S : Type)
         (selectFileToDownload : string -> S -> option string * S)
         (getTorrent : string -> S -> (Torrent + string) * S)
         (generateDownload : string -> S -> (string + string) * S)
         torrent fileID s,
    fst (getDownload S selectFileToDownload getTorrent generateDownload torrent fileID s)
    <> Panic
    /\ forall url s',
         getDownload S selectFileToDownload getTorrent generateDownload torrent fileID s
         = (Ok url, s') ->
         exists t s1 link,
           Status t = "downloaded"
           /\ 0 <= getIndexOfLinkForFile t fileID < rank (Files t)
           /\ Links t !! Z.to_nat (getIndexOfLinkForFile t fileID) = Some link
           /\ generateDownload link s1 = (inl url, s')
           /\ ((t = torrent /\ s1 = s)
               \/ exists s0,
                    selectFileToDownload (ID torrent) s = (None, s0)
                    /\ getTorrent (ID torrent) s0 = (inl t, s1)).
Proof.
  intros S selectFileToDownload getTorrent generateDownload torrent fileID s.
  destruct (getDownload S selectFileToDownload getTorrent generateDownload torrent fileID s)
    as [out s1] eqn:Eg.
  destruct (getDownload_cases S selectFileToDownload getTorrent generateDownload
              torrent fileID s out s1 Eg) as [Hp Hok].
  split; [exact Hp|]. intros url s' [= -> ->].
  destruct (Hok url eq_refl) as (t & s0 & link & Hst & Hpos & Hl & Hg & Hwhich).
  exists t, s0, link. repeat split; auto.
  - destruct (getIndexOfLinkForFile_rank t fileID)
      as [[Hi _]|(before & f & after & _ & _ & _ & _ & _ & Hr)]; lia.
  - destruct Hwhich as [(-> & -> & _)|Hrefresh]; auto.
Qed.

(** X13. [getDownloadByInfoHash] never returns [ErrNoFileFound]: a
    torrent of the account without the file makes it go on to the next
    one.  When no torrent of the account has the hash, it returns
    [ErrNoTorrentFound] right after the list of torrents was fetched.
    [GetDownloadByInfoHash] adds the magnet only after
    [ErrNoTorrentFound]: a download or any other error of the lookup is
    returned as it is, in the state the lookup left. *)
Theorem getDownloadByInfoHash_errors :
  forall (S : Type)
         (selectFileToDownload : string -> S -> option string * S)
         (getTorrent : string -> S -> (Torrent + string) * S)
         (getTorrents : S -> (list Torrent + string) * S)
         (addMagnet : string -> S -> (string + string) * S)
         (generateDownload : string -> S -> (string + string) * S)
         infoHash fileID s,
    let lookup :=
      getDownloadByInfoHash S selectFileToDownload getTorrent getTorrents
        generateDownload infoHash fileID s in
    fst lookup <> Panic
    /\ fst lookup <> Err ErrNoFileFound
    /\ (forall torrents s1,
          getTorrents s = (inl torrents, s1) ->
          (forall t, t ∈ torrents -> Hash t <> infoHash) ->
          lookup = (Err ErrNoTorrentFound, s1))
    /\ (fst lookup <> Err ErrNoTorrentFound ->
        GetDownloadByInfoHash S selectFileToDownload getTorrent getTorrents addMagnet
          generateDownload infoHash fileID s = lookup).
Proof.
  intros S selectFileToDownload getTorrent getTorrents addMagnet generateDownload
    infoHash fileID s lookup.
  assert (Hl : fst lookup <> Panic /\ fst lookup <> Err ErrNoFileFound
               /\ (forall torrents s1,
                     getTorrents s = (inl torrents, s1) ->
                     (forall t, t ∈ torrents -> Hash t <> infoHash) ->
                     lookup = (Err ErrNoTorrentFound, s1))).
  { unfold lookup, getDownloadByInfoHash, bind, call.
    destruct (getTorrents s) as [[torrents|message] s1] eqn:Et.
    - destruct (firstDownload S selectFileToDownload getTorrent generateDownload
                  torrents infoHash fileID s1) as [out s2] eqn:Ef.
      destruct (firstDownload_cases S selectFileToDownload getTorrent generateDownload
                  torrents infoHash fileID s1 out s2 Ef) as (H1 & H2 & H3).
      repeat split; auto. intros torrents' s1' [= <- <-] Hno.
      destruct (H3 Hno) as [-> ->]. reflexivity.
    - repeat split; try discriminate. }
  destruct Hl as (H1 & H2 & H3). repeat split; auto.
  intros Hn. unfold GetDownloadByInfoHash, GetDownloadByMagnetURI. fold lookup.
  destruct lookup as [[download|e|] s1]; cbn [fst] in *; try reflexivity.
  destruct e; try reflexivity. contradiction.
Qed.

End DownloadFacts.

(** ** The files of the cached torrents *)
Module FilesFacts.
Import debrid.

Section Collect.
Variable rangeMap : forall V : Type, gmap string V -> list (string * V).
Hypothesis rangeMap_perm : forall (V : Type) (m : gmap string V),
  rangeMap V m ≡ₚ map_to_list m.

Abbreviation idsOf l := (map realdebrid.ID l).

(** The entries the loops visit for the hosters of a hash, in order. *)
Abbreviation entriesOf hosters :=
  (concat (map (fun hoster : string * list (gmap string (option realdebrid.File)) =>
                  concat (map (rangeMap _) (snd hoster)))
             (rangeMap _ hosters))).

Lemma fold_addFile_None h entries : fold_left (addFile h) entries None = None.
Proof. induction entries as [|e entries IH]; [reflexivity|exact IH]. Qed.

Lemma fold_addVariant h variants : forall acc,
  fold_left (addVariant rangeMap h) variants acc
  = fold_left (addFile h) (concat (map (rangeMap _) variants)) acc.
Proof.
  induction variants as [|v variants IH]; intros acc; [reflexivity|].
  cbn [fold_left map concat]. rewrite fold_left_app, IH. reflexivity.
Qed.

Lemma fold_addHoster h hosters : forall acc,
  fold_left (addHoster rangeMap h) hosters acc
  = fold_left (addFile h)
      (concat (map (fun hoster : string * list (gmap string (option realdebrid.File)) =>
                      concat (map (rangeMap _) (snd hoster))) hosters)) acc.
Proof.
  induction hosters as [|x hosters IH]; intros acc; [reflexivity|].
  cbn [fold_left map concat]. rewrite IH, fold_left_app. f_equal.
  unfold addHoster. apply fold_addVariant.
Qed.

(** The innermost loop over a list of entries. *)
Lemma fold_addFile h entries : forall files found files' found',
  fold_left (addFile h) entries (Some (files, found)) = Some (files', found') ->
  (forall k, k <> h -> files' !! k = files !! k)
  /\ exists news,
       default [] (files' !! h) = default [] (files !! h) ++ news
       /\ (news = [] -> files' = files)
       /\ (news <> [] -> is_Some (files' !! h))
       /\ NoDup (idsOf news)
       /\ (forall f, f ∈ news ->
             (realdebrid.ID f ∉ found)
             /\ exists f0, (realdebrid.ID f, Some f0) ∈ entries
                           /\ realdebrid.FileName f = realdebrid.FileName f0
                           /\ realdebrid.FileSize f = realdebrid.FileSize f0)
       /\ (forall id, id ∈ entries.*1 -> id ∈ found \/ id ∈ idsOf news).
Proof.
  induction entries as [|[id f] entries IH]; intros files found files' found' Hfold.
  - injection Hfold as <- <-. split; [reflexivity|]. exists [].
    rewrite app_nil_r. split; [reflexivity|]. split; [reflexivity|].
    split; [intros Hc; contradiction|]. split; [constructor|]. split.
    + intros f Hf. apply elem_of_nil in Hf. contradiction.
    + intros id Hid. apply elem_of_nil in Hid. contradiction.
  - cbn [fold_left addFile] in Hfold.
    destruct (bool_decide (id ∈ found)) eqn:Hin.
    + apply bool_decide_eq_true in Hin.
      destruct (IH _ _ _ _ Hfold) as (Hk & news & Hh & Hnil & Hsome & Hnd & Hnew & Hall).
      split; [exact Hk|]. exists news.
      split; [exact Hh|]. split; [exact Hnil|]. split; [exact Hsome|].
      split; [exact Hnd|]. split.
      * intros f1 Hf1. destruct (Hnew f1 Hf1) as (Hnot & f2 & Hf2 & Hn & Hs).
        split; [exact Hnot|]. exists f2. split; [now right|auto].
      * intros id' Hid'. cbn [fmap list_fmap fst] in Hid'.
        apply elem_of_cons in Hid' as [->|Hid']; [left; exact Hin|auto].
    + apply bool_decide_eq_false in Hin.
      destruct f as [f|]; [|rewrite fold_addFile_None in Hfold; discriminate].
      destruct (IH _ _ _ _ Hfold) as (Hk & news & Hh & Hnil & Hsome & Hnd & Hnew & Hall).
      split.
      { intros k Hne. rewrite Hk by exact Hne. apply lookup_insert_ne. congruence. }
      rewrite lookup_insert_eq in Hh.
      change (default [] (Some ?x)) with x in Hh. rewrite <- app_assoc in Hh.
      eexists. split; [exact Hh|].
      assert (Hfresh : id ∉ idsOf news).
      { intros Hc. apply list_elem_of_fmap in Hc as (f1 & Hid1 & Hf1).
        destruct (Hnew f1 Hf1) as (Hnot & _). apply Hnot.
        apply elem_of_union. left. apply elem_of_singleton. congruence. }
      split; [discriminate|]. split.
      { intros _. destruct news as [|n news'].
        - rewrite (Hnil eq_refl). rewrite lookup_insert_eq. eauto.
        - apply Hsome. discriminate. }
      split.
      { cbn [app fmap list_fmap realdebrid.ID]. constructor; assumption. }
      split.
      { intros f1 Hf1. cbn [app] in Hf1. apply elem_of_cons in Hf1 as [->|Hf1].
        - cbn [realdebrid.ID realdebrid.FileName realdebrid.FileSize].
          split; [exact Hin|]. exists f. split; [left|auto].
        - destruct (Hnew f1 Hf1) as (Hnot & f2 & Hf2 & Hn & Hs).
          split; [intros Hc; apply Hnot, elem_of_union; now right|].
          exists f2. split; [now right|auto]. }
      intros id' Hid'. cbn [fmap list_fmap fst] in Hid'.
      apply elem_of_cons in Hid' as [->|Hid'].
      * right. cbn [app fmap list_fmap realdebrid.ID]. left.
      * destruct (Hall id' Hid') as [Hf|Hf].
        -- apply elem_of_union in Hf as [Hf|Hf].
           ++ apply elem_of_singleton in Hf as ->.
              right. cbn [app fmap list_fmap realdebrid.ID]. left.
           ++ left. exact Hf.
        -- right. cbn [app fmap list_fmap realdebrid.ID]. now right.
Qed.

(** What the list of a hash holds, for the hosters of that hash. *)
Abbreviation filesOfHash hosters l :=
  (l%list <> []%list /\ NoDup (idsOf l%list)
   /\ (forall f, f ∈ l%list ->
         exists f0, (realdebrid.ID f, Some f0) ∈ entriesOf hosters
                    /\ realdebrid.FileName f = realdebrid.FileName f0
                    /\ realdebrid.FileSize f = realdebrid.FileSize f0)
   /\ (forall id, id ∈ (entriesOf hosters).*1 -> id ∈ idsOf l%list)).

Lemma addHash_spec (result : availability) files h hosters files' :
  files !! h = None ->
  addHash rangeMap (Some files) (h, hosters) = Some files' ->
  (forall k, k <> h -> files' !! k = files !! k)
  /\ (forall l, files' !! h = Some l -> filesOfHash hosters l)
  /\ (files' !! h = None -> entriesOf hosters = []).
Proof.
  intros Hnone Hadd. unfold addHash in Hadd. cbn [fst snd] in Hadd.
  rewrite fold_addHoster in Hadd.
  destruct (fold_left (addFile h) _ _) as [[files1 found1]|] eqn:Hfold; [|discriminate].
  injection Hadd as <-.
  destruct (fold_addFile h _ _ _ _ _ Hfold)
    as (Hk & news & Hh & Hnil & Hsome & Hnd & Hnew & Hall).
  rewrite Hnone in Hh. cbn [default app] in Hh.
  split; [exact Hk|]. split.
  - intros l Hl. rewrite Hl in Hh. change (default [] (Some l)) with l in Hh. subst l.
    split.
    { intros ->. rewrite (Hnil eq_refl) in Hl. congruence. }
    split; [exact Hnd|]. split.
    + intros f Hf. apply (Hnew f Hf).
    + intros id Hid. destruct (Hall id Hid) as [Hc|Hc]; [|exact Hc].
      apply not_elem_of_empty in Hc. contradiction.
  - intros Hl. destruct news as [|n news'].
    + destruct (entriesOf hosters) as [|[id f] rest] eqn:E; [reflexivity|].
      destruct (Hall id) as [Hc|Hc]; [left| |].
      * apply not_elem_of_empty in Hc. contradiction.
      * apply elem_of_nil in Hc. contradiction.
    + destruct Hsome as [l Hl']; [discriminate|]. congruence.
Qed.

Lemma fold_addHash_None entries :
  fold_left (addHash rangeMap) entries None = None.
Proof. induction entries as [|e entries IH]; [reflexivity|exact IH]. Qed.

Lemma fold_addHash (result : availability) entries : forall files files',
  NoDup entries.*1 ->
  (forall h, h ∈ entries.*1 -> files !! h = None) ->
  fold_left (addHash rangeMap) entries (Some files) = Some files' ->
  forall k,
    (k ∉ entries.*1 -> files' !! k = files !! k)
    /\ (forall hosters, (k, hosters) ∈ entries ->
          (forall l, files' !! k = Some l -> filesOfHash hosters l)
          /\ (files' !! k = None -> entriesOf hosters = [])).
Proof.
  induction entries as [|[h hosters] entries IH]; intros files files' Hnd Hfresh Hfold k.
  - injection Hfold as <-. split; [reflexivity|].
    intros hosters Hin. apply elem_of_nil in Hin. contradiction.
  - cbn [fold_left] in Hfold. cbn [fmap list_fmap fst] in Hnd, Hfresh.
    apply NoDup_cons in Hnd as [Hh Hnd].
    destruct (addHash rangeMap (Some files) (h, hosters)) as [files1|] eqn:Hadd;
      [|rewrite fold_addHash_None in Hfold; discriminate].
    destruct (addHash_spec result files h hosters files1 (Hfresh h (list_elem_of_here _ _)) Hadd)
      as (Hk & Hl & Hn).
    assert (Hfresh1 : forall h', h' ∈ entries.*1 -> files1 !! h' = None).
    { intros h' Hh'. rewrite Hk; [apply Hfresh; now right|]. intros ->. contradiction. }
    specialize (IH files1 files' Hnd Hfresh1 Hfold).
    split.
    + intros Hnot. cbn [fmap list_fmap fst] in Hnot.
      rewrite (proj1 (IH k)); [apply Hk|]; intros Hc; apply Hnot;
        [subst k; left|now right].
    + intros hosters' Hin. apply elem_of_cons in Hin as [[= -> ->]|Hin].
      * rewrite (proj1 (IH h) Hh). split; [exact Hl|exact Hn].
      * apply (proj2 (IH k)), Hin.
Qed.

Lemma elem_of_entriesOf (hosters : gmap string (list (gmap string (option realdebrid.File))))
    id (f : option realdebrid.File) :
  (id, f) ∈ entriesOf hosters
  <-> exists hoster variants variant,
        hosters !! hoster = Some variants /\ variant ∈ variants
        /\ variant !! id = Some f.
Proof.
  rewrite list_elem_of_In, in_concat. split.
  - intros (l & Hl & Hin). apply in_map_iff in Hl as ([hoster variants] & <- & Hh).
    apply in_concat in Hin as (l' & Hl' & Hin).
    apply in_map_iff in Hl' as (variant & <- & Hv).
    exists hoster, variants, variant. split; [|split].
    + apply list_elem_of_In in Hh. rewrite rangeMap_perm in Hh.
      apply elem_of_map_to_list in Hh. exact Hh.
    + apply list_elem_of_In, Hv.
    + apply list_elem_of_In in Hin. rewrite rangeMap_perm in Hin.
      apply elem_of_map_to_list in Hin. exact Hin.
  - intros (hoster & variants & variant & Hh & Hv & Hf).
    exists (concat (map (rangeMap _) variants)). split.
    + apply in_map_iff. exists (hoster, variants). split; [reflexivity|].
      apply list_elem_of_In. rewrite rangeMap_perm. apply elem_of_map_to_list, Hh.
    + apply in_concat. exists (rangeMap _ variant). split.
      * apply in_map_iff. exists variant. split; [reflexivity|apply list_elem_of_In, Hv].
      * apply list_elem_of_In. rewrite rangeMap_perm. apply elem_of_map_to_list, Hf.
Qed.

Lemma collect_spec (result : availability) files :
  collect rangeMap result = Some files ->
  forall h,
    match files !! h with
    | Some l =>
        exists hosters, result !! h = Some hosters /\ filesOfHash hosters l
    | None =>
        forall hosters, result !! h = Some hosters -> entriesOf hosters = []
    end.
Proof.
  intros Hc h. unfold collect in Hc.
  assert (Hnd : NoDup (rangeMap _ result).*1).
  { rewrite rangeMap_perm. apply NoDup_fst_map_to_list. }
  pose proof (fold_addHash result (rangeMap _ result) ∅ files Hnd
                (fun h _ => lookup_empty h) Hc h) as [Hout Hin].
  destruct (result !! h) as [hosters|] eqn:Er.
  - assert (Hh : (h, hosters) ∈ rangeMap _ result).
    { rewrite rangeMap_perm. apply elem_of_map_to_list, Er. }
    destruct (Hin hosters Hh) as [Hl Hn].
    destruct (files !! h) as [l|]; [exists hosters; auto|].
    intros hosters' [= <-]. auto.
  - assert (Hh : h ∉ (rangeMap _ result).*1).
    { rewrite rangeMap_perm. intros Hc'.
      apply list_elem_of_fmap in Hc' as ([h' v] & Hh' & Hv).
      cbn [fst] in Hh'. subst h'.
      apply elem_of_map_to_list in Hv.
      pose proof (eq_trans (eq_sym Er) Hv) as Hno. discriminate Hno. }
    rewrite (Hout Hh), lookup_empty. intros hosters Hc'. discriminate.
Qed.

End Collect.

(** X14. Whatever the order in which the maps of the answer are visited,
    the files [GetFiles] returns for a hash are not an empty list, no two
    of them have the same id, each of them is a file of a variant of a
    hoster of that hash, under the id it has there and with the name and
    the size it has there, and every file id of every variant is the id of
    one of them.  A hash of the answer that has no file in any variant has
    no entry in the result. *)
Theorem GetFiles_files :
  forall (rangeMap : forall V : Type, gmap string V -> list (string * V)),
    (forall (V : Type) (m : gmap string V), rangeMap V m ≡ₚ map_to_list m) ->
    forall (Get : string -> availability + string) infoHashs result files,
      Get ("/torrents/instantAvailability/" +:+ Join infoHashs "/") = inl result ->
      GetFiles rangeMap Get infoHashs = Some (inl files) ->
      forall h,
        match files !! h with
        | Some l =>
            exists hosters,
              result !! h = Some hosters
              /\ l <> []
              /\ NoDup (map realdebrid.ID l)
              /\ (forall f, f ∈ l ->
                    exists hoster variants variant f0,
                      hosters !! hoster = Some variants /\ variant ∈ variants
                      /\ variant !! realdebrid.ID f = Some (Some f0)
                      /\ realdebrid.FileName f = realdebrid.FileName f0
                      /\ realdebrid.FileSize f = realdebrid.FileSize f0)
              /\ (forall hoster variants variant id,
                    hosters !! hoster = Some variants -> variant ∈ variants ->
                    is_Some (variant !! id) ->
                    id ∈ map realdebrid.ID l)
        | None =>
            forall hosters hoster variants variant,
              result !! h = Some hosters ->
              hosters !! hoster = Some variants -> variant ∈ variants ->
              variant = ∅
        end.
Proof.
  intros rangeMap Hperm Get infoHashs result files Hget Hfiles h.
  unfold GetFiles in Hfiles. rewrite Hget in Hfiles.
  destruct (collect rangeMap result) as [files'|] eqn:Hc; [|discriminate].
  injection Hfiles as <-.
  pose proof (collect_spec rangeMap Hperm result files' Hc h) as Hspec.
  destruct (files' !! h) as [l|].
  - destruct Hspec as (hosters & Hr & Hne & Hnd & Hfrom & Hall).
    exists hosters. split; [exact Hr|]. split; [exact Hne|]. split; [exact Hnd|]. split.
    + intros f Hf. destruct (Hfrom f Hf) as (f0 & Hin & Hn & Hs).
      apply (elem_of_entriesOf rangeMap Hperm) in Hin
        as (hoster & variants & variant & Hh & Hv & Hl).
      exists hoster, variants, variant, f0. auto.
    + intros hoster variants variant id Hh Hv [f Hf]. apply Hall.
      apply list_elem_of_fmap. exists (id, f). split; [reflexivity|].
      apply (elem_of_entriesOf rangeMap Hperm). exists hoster, variants, variant. auto.
  - intros hosters hoster variants variant Hr Hh Hv.
    specialize (Hspec hosters Hr).
    apply map_eq. intros id. rewrite lookup_empty.
    destruct (variant !! id) as [f|] eqn:Ef; [|reflexivity]. exfalso.
    pose proof (proj2 (elem_of_entriesOf rangeMap Hperm hosters id f)) as Hin.
    rewrite Hspec in Hin. apply (elem_of_nil (id, f)), Hin.
    exists hoster, variants, variant. auto.
Qed.

End FilesFacts.

(** ** Cached records, from the lookup to the locator *)
Module CachedFacts.
Import addon.

Lemma selectMediaFile_elem `{GoLib} r f :
  selectMediaFile r = inl (Some f) -> f ∈ Files r.
Proof.
  unfold selectMediaFile.
  assert (Hmovie : findMovieMediaFile (Files r) = Some f -> f ∈ Files r).
  { unfold findMovieMediaFile.
    pose proof (MediaFileFacts.fold_larger_None
                  (fun f => negb (hasMediaExtension (realdebrid.FileName f))) (Files r)) as Hf.
    cbv beta in Hf. destruct (fold_left _ (Files r) None) as [f'|]; [|discriminate].
    intros [= <-]. destruct Hf as (l1 & l2 & -> & _).
    apply elem_of_app. right. left. }
  assert (Hep : forall pattern, findEpisodeMediaFile (Files r) pattern = Some f ->
                                f ∈ Files r).
  { intros pattern Hp.
    pose proof (MediaFileFacts.findEpisodeMediaFile_largest (Files r) pattern) as Hf.
    rewrite Hp in Hf. destruct Hf as (l1 & l2 & -> & _).
    apply elem_of_app. right. left. }
  destruct (String.eqb (ContentType r) ContentTypeMovie).
  { intros [= Hm]. auto. }
  destruct (String.eqb (ContentType r) ContentTypeSeries); [|discriminate].
  destruct (findEpisodeMediaFile (Files r) (seasonEpisodePattern _ _)) as [f1|] eqn:E1.
  { intros [= <-]. eauto. }
  destruct (findEpisodeMediaFile (Files r) (separatePattern _ _)) as [f2|] eqn:E2.
  { intros [= <-]. eauto. }
  intros [= Hm]. eauto.
Qed.

(** X15. When the lookup of [enrichWithCachedFiles] is the answer
    [GetFiles] builds, every record it returns after a lookup that
    succeeded carries a file list that is not empty and holds no file id
    twice.  Such a record with a debrid client never gets the descriptor
    made from the torrent: what the locator emits for it has one of these
    cached files as media file, of 100 MB at least and below 30 GB. *)
Theorem cached_records_located :
  forall (lib : GoLib)
         (rangeMap : forall V : Type, gmap string V -> list (string * V)),
    (forall (V : Type) (m : gmap string V), rangeMap V m ≡ₚ map_to_list m) ->
    forall (Get : realdebrid.RealDebrid -> string -> debrid.availability + string)
           (lookup : realdebrid.RealDebrid -> list string
                     -> gmap string (list realdebrid.File) + addon.error),
      (forall client hashes,
         debrid.GetFiles rangeMap (Get client) hashes = Some (lookup client hashes)) ->
      forall first rest client answer,
        RDClient first = Some client ->
        lookup client (infoHashs (first :: rest)) = inl answer ->
        forall r, r ∈ (enrichWithCachedFiles lookup (first :: rest)).1 ->
          Files r <> []
          /\ NoDup (map realdebrid.ID (Files r))
          /\ (RDClient r <> None ->
              forall out, out ∈ (locateMediaFile r).1 ->
                exists f, f ∈ Files r
                          /\ MediaFile out = Some f
                          /\ Frame.sameButMediaFile r out
                          /\ 100 * 2 ^ 20 <= realdebrid.FileSize f < 30 * 2 ^ 30).
Proof.
  intros lib rangeMap Hperm Get lookup Hlookup first rest client answer Hclient Hanswer r Hr.
  unfold enrichWithCachedFiles in Hr. rewrite Hclient, Hanswer in Hr. cbn [fst] in Hr.
  apply list_elem_of_omap in Hr as (r0 & Hr0 & Hfiles).
  destruct (answer !! prowlarr.InfoHash (Torrent r0)) as [files|] eqn:Ea; [|discriminate].
  injection Hfiles as <-.
  pose proof (Hlookup client (infoHashs (first :: rest))) as Hget.
  rewrite Hanswer in Hget.
  destruct (Get client ("/torrents/instantAvailability/"
                        +:+ debrid.Join (infoHashs (first :: rest)) "/")) as [result|e] eqn:Eg.
  2: { unfold debrid.GetFiles in Hget. rewrite Eg in Hget. discriminate. }
  pose proof (FilesFacts.collect_spec rangeMap Hperm result answer) as Hspec.
  assert (Hc : debrid.collect rangeMap result = Some answer).
  { unfold debrid.GetFiles in Hget. rewrite Eg in Hget.
    destruct (debrid.collect rangeMap result); [congruence|discriminate]. }
  specialize (Hspec Hc (prowlarr.InfoHash (Torrent r0))). rewrite Ea in Hspec.
  destruct Hspec as (hosters & _ & Hne & Hnd & _).
  cbn [setFiles Files RDClient]. split; [exact Hne|]. split; [exact Hnd|].
  intros Hrd out Hout. unfold locateMediaFile in Hout.
  cbn [setFiles Files RDClient] in Hout.
  destruct (RDClient r0) as [c|]; [|contradiction].
  destruct files as [|f0 files]; [contradiction|].
  destruct (selectMediaFile (setFiles (f0 :: files) r0)) as [[f|]|e] eqn:Es;
    cbn [fst] in Hout; try (apply elem_of_nil in Hout; contradiction).
  destruct (_ || _) eqn:Eb; cbn [fst] in Hout;
    [apply elem_of_nil in Hout; contradiction|].
  apply list_elem_of_singleton in Hout. subst out.
  apply orb_false_iff in Eb as [E1 E2].
  exists f. split; [|split; [reflexivity|split; [repeat split|]]].
  - apply (selectMediaFile_elem _ _ Es).
  - unfold maxSizeInBytes, minSizeInBytes in E1, E2.
    rewrite Z.shiftl_mul_pow2 in E1, E2 by lia. lia.
Qed.

(** The cached record of the hash [bb], with the files the service has. *)
Lemma cached_records_located_example :
  let r := setFiles [ {| realdebrid.ID := "1";
                         realdebrid.FileName := "Movie.2019.1080p.mkv";
                         realdebrid.FileSize := 4 * 2 ^ 30 |};
                      {| realdebrid.ID := "2"; realdebrid.FileName := "Sample.mkv";
                         realdebrid.FileSize := 20 * 2 ^ 20 |} ] Example.bluray2160 in
  Files r <> []
  /\ NoDup (map realdebrid.ID (Files r))
  /\ (RDClient r <> None ->
      forall out, out ∈ (locateMediaFile (H := Samples.lib) r).1 ->
        exists f, f ∈ Files r
                  /\ MediaFile out = Some f
                  /\ Frame.sameButMediaFile r out
                  /\ 100 * 2 ^ 20 <= realdebrid.FileSize f < 30 * 2 ^ 30).
Proof.
  apply (cached_records_located Samples.lib Samples.ascending (fun V m => reflexivity _)
           (fun _ => Samples.request) (fun _ _ => inl Samples.cachedFiles)
           ltac:(intros client hashes; vm_compute; reflexivity)
           Example.bluray2160 [Example.cachedMovie Example.GB] Example.client
           Samples.cachedFiles eq_refl eq_refl).
  vm_compute. apply list_elem_of_here.
Defined.

(** Two records of the hashes [bb] and [cc]: only [bb] is cached, with
    two files. *)
Lemma GetFiles_example :
  match Samples.cachedFiles !! "bb" with
  | Some l =>
      exists hosters,
        Samples.available !! "bb" = Some hosters
        /\ l <> []
        /\ NoDup (map realdebrid.ID l)
        /\ (forall f, f ∈ l ->
              exists hoster variants variant f0,
                hosters !! hoster = Some variants /\ variant ∈ variants
                /\ variant !! realdebrid.ID f = Some (Some f0)
                /\ realdebrid.FileName f = realdebrid.FileName f0
                /\ realdebrid.FileSize f = realdebrid.FileSize f0)
        /\ (forall hoster variants variant id,
              hosters !! hoster = Some variants -> variant ∈ variants ->
              is_Some (variant !! id) ->
              id ∈ map realdebrid.ID l)
  | None =>
      forall hosters hoster variants variant,
        Samples.available !! "bb" = Some hosters ->
        hosters !! hoster = Some variants -> variant ∈ variants ->
        variant = ∅
  end.
Proof.
  apply (FilesFacts.GetFiles_files Samples.ascending (fun V m => reflexivity _)
           Samples.request ["bb"; "cc"] Samples.available Samples.cachedFiles).
  - reflexivity.
  - vm_compute. reflexivity.
Defined.

End CachedFacts.

(** ** A size as text *)
Module BytesFacts.
Import bytes_convert.

Lemma elem_of_wholes n : forall lo k, lo <= k < lo + Z.of_nat n -> k ∈ wholes lo n.
Proof.
  induction n as [|n IH]; intros lo k Hk; [lia|].
  cbn [wholes]. destruct (Z.eq_dec k lo) as [->|Hne]; [left|].
  right. apply IH. lia.
Qed.

(** A whole number of units below 1024 is printed as that number. *)
Abbreviation printsWhole k :=
  (String.eqb (bytesConvert k) (addon.fmt_d k +:+ " B")
   && String.eqb (bytesConvert (k * KIBIBYTE)) (addon.fmt_d k +:+ " KB")
   && String.eqb (bytesConvert (k * MEBIBYTE)) (addon.fmt_d k +:+ " MB")
   && String.eqb (bytesConvert (k * GIBIBYTE)) (addon.fmt_d k +:+ " GB")).

Lemma printsWhole_all : forallb (fun k => printsWhole k) (wholes 1 1023) = true.
Proof. vm_compute. reflexivity. Qed.

(** X16. [bytesConvert] prints zero as a question mark.  A whole number
    of bytes, of KB, of MB or of GB from 1 to 1023 is printed as that
    number and the unit, without decimals; so the bounds of the locator
    are printed as [100 MB] and [30 GB]. *)
Theorem bytesConvert_whole :
  bytesConvert 0 = "?"
  /\ (forall k, 1 <= k < 1024 ->
        bytesConvert k = addon.fmt_d k +:+ " B"
        /\ bytesConvert (k * 2 ^ 10) = addon.fmt_d k +:+ " KB"
        /\ bytesConvert (k * 2 ^ 20) = addon.fmt_d k +:+ " MB"
        /\ bytesConvert (k * 2 ^ 30) = addon.fmt_d k +:+ " GB")
  /\ bytesConvert addon.minSizeInBytes = "100 MB"
  /\ bytesConvert addon.maxSizeInBytes = "30 GB".
Proof.
  split; [reflexivity|]. split; [|split; vm_compute; reflexivity].
  intros k Hk.
  pose proof printsWhole_all as Hall. rewrite forallb_forall in Hall.
  specialize (Hall k (proj1 (list_elem_of_In _ _) (elem_of_wholes 1023 1 k ltac:(lia)))).
  cbv beta in Hall.
  apply andb_true_iff in Hall as [Hall Hg]. apply andb_true_iff in Hall as [Hall Hm].
  apply andb_true_iff in Hall as [Hb Hkb].
  apply String.eqb_eq in Hb, Hkb, Hm, Hg.
  change (2 ^ 10) with KIBIBYTE. change (2 ^ 20) with MEBIBYTE.
  change (2 ^ 30) with GIBIBYTE. auto.
Qed.

Lemma bytesConvert_whole_example :
  bytesConvert 700 = addon.fmt_d 700 +:+ " B"
  /\ bytesConvert (700 * 2 ^ 10) = addon.fmt_d 700 +:+ " KB"
  /\ bytesConvert (700 * 2 ^ 20) = addon.fmt_d 700 +:+ " MB"
  /\ bytesConvert (700 * 2 ^ 30) = addon.fmt_d 700 +:+ " GB".
Proof. apply (proj1 (proj2 bytesConvert_whole) 700). lia. Defined.

End BytesFacts.

(** ** Facts on strings *)
Module StringFacts.

Lemma length_append (a b : string) :
  String.length (a +:+ b) = (String.length a + String.length b)%nat.
Proof.
  induction a as [|c a IH]; [reflexivity|].
  change (S (String.length (a +:+ b)) = S (String.length a + String.length b)).
  f_equal. exact IH.
Qed.

Lemma length_substring_0 n : forall s,
  String.length (substring 0 n s) = Nat.min n (String.length s).
Proof.
  induction n as [|n IH]; intros [|c s]; try reflexivity.
  cbn [substring String.length]. rewrite IH. reflexivity.
Qed.

Lemma substring_0_all s : substring 0 (String.length s) s = s.
Proof.
  induction s as [|c s IH]; [reflexivity|]. cbn [String.length substring].
  f_equal. exact IH.
Qed.

Lemma substring_append_r (a b : string) :
  substring (String.length a) (String.length b) (a +:+ b) = b.
Proof.
  induction a as [|c a IH]; [apply substring_0_all|].
  change (substring (String.length a) (String.length b) (a +:+ b) = b). exact IH.
Qed.

Lemma HasSuffix_append (a b : string) : HasSuffix (a +:+ b) b = true.
Proof.
  unfold HasSuffix. rewrite length_append.
  replace (String.length a + String.length b - String.length b)%nat
    with (String.length a) by lia.
  rewrite substring_append_r, String.eqb_refl, andb_true_r.
  apply Nat.leb_le. lia.
Qed.

End StringFacts.

(** ** The names of the files of a torrent *)
Module NameFacts.
Import metainfo StringFacts.

Lemma lastDot_suffix s :
  forall found, lastDot s = Some found -> exists before, s = before +:+ found.
Proof.
  induction s as [|c s IH]; intros found; cbn [lastDot]; [discriminate|].
  destruct (lastDot s) as [found'|].
  - intros [= <-]. destruct (IH found' eq_refl) as (before & ->).
    exists (String c before). reflexivity.
  - destruct (Ascii.eqb c "."); [intros [= <-]; exists ""; reflexivity|].
    destruct (Ascii.eqb c "/"); [|discriminate].
    intros [= <-]. exists (String c s).
    clear IH. induction (String c s) as [|x t IHt]; [reflexivity|].
    change (String x t = String x (t +:+ "")). f_equal. exact IHt.
Qed.

(** [path.Ext]: a suffix of the name, empty or from a dot on. *)
Lemma Ext_suffix s :
  (exists before, s = before +:+ Ext s)
  /\ (Ext s = "" \/ exists rest, Ext s = String "." rest).
Proof.
  unfold Ext. destruct (lastDot s) as [found|] eqn:E; cbn [default].
  - split; [apply lastDot_suffix, E|].
    clear -E. revert found E. induction s as [|c s IH]; intros found; cbn [lastDot];
      [discriminate|].
    destruct (lastDot s) as [found'|]; [intros [= <-]; apply (IH found' eq_refl)|].
    destruct (Ascii.eqb_spec c "."); [intros [= <-]; subst c; right; eauto|].
    destruct (Ascii.eqb c "/"); [|discriminate]. intros [= <-]. left. reflexivity.
  - split; [|left; reflexivity]. exists s.
    clear E. induction s as [|x t IHt]; [reflexivity|].
    change (String x t = String x (t +:+ "")). f_equal. exact IHt.
Qed.

Lemma len_slice_0 s k : 0 <= k <= len s -> len (slice s 0 k) = k.
Proof.
  intros Hk. unfold len, slice in *. rewrite Z.sub_0_r. cbn [Z.to_nat].
  rewrite length_substring_0. lia.
Qed.

(** X17. With a bound that is not negative, [trimName] returns a name of
    the length of the name or of the bound, whichever is smaller: the name
    itself when it fits, else a prefix of the name followed by the
    extension of the name when the extension fits in the bound, and the
    first bytes of the name when it does not.  With a negative bound it
    panics. *)
Theorem trimName_length :
  forall s max,
    (max < 0 -> trimName s max = None)
    /\ (0 <= max ->
        exists t,
          trimName s max = Some t
          /\ len t = Z.min (len s) max
          /\ (len s <= max -> t = s)
          /\ (max < len s -> len (Ext s) <= max ->
              t = slice s 0 (max - len (Ext s)) +:+ Ext s
              /\ HasSuffix t (Ext s) = true)
          /\ (max < len s -> max < len (Ext s) -> t = slice s 0 max)).
Proof.
  intros s max. unfold trimName.
  assert (Hs : 0 <= len s) by (unfold len; lia).
  assert (He : 0 <= len (Ext s)) by (unfold len; lia).
  assert (Hes : len (Ext s) <= len s).
  { destruct (Ext_suffix s) as [(before & Hb) _].
    unfold len. rewrite Hb at 2. rewrite length_append. lia. }
  split.
  - intros Hneg. destruct (Z.leb_spec (len s) max); [lia|].
    destruct (Z.ltb_spec max (len (Ext s))); [|lia].
    destruct (Z.ltb_spec max 0); [reflexivity|lia].
  - intros Hmax. destruct (Z.leb_spec (len s) max) as [Hfit|Hlong].
    + exists s. repeat split; try lia. 
    + destruct (Z.ltb_spec max (len (Ext s))) as [Hext|Hext].
      * destruct (Z.ltb_spec max 0); [lia|].
        exists (slice s 0 max). split; [reflexivity|].
        split; [rewrite len_slice_0; lia|]. repeat split; try lia.
      * exists (slice s 0 (max - len (Ext s)) +:+ Ext s). split; [reflexivity|].
        split.
        { unfold len at 1. rewrite length_append.
          pose proof (len_slice_0 s (max - len (Ext s)) ltac:(lia)) as Hl.
          unfold len in Hl at 1. unfold len in *. lia. }
        split; [lia|]. split; [|lia].
        intros _ _. split; [reflexivity|apply HasSuffix_append].
Qed.

Lemma trimName_length_example :
  exists t,
    trimName "a-long-file-name.mkv" 8 = Some t
    /\ len t = Z.min (len "a-long-file-name.mkv") 8
    /\ (len "a-long-file-name.mkv" <= 8 -> t = "a-long-file-name.mkv")
    /\ (8 < len "a-long-file-name.mkv" -> len (Ext "a-long-file-name.mkv") <= 8 ->
        t = slice "a-long-file-name.mkv" 0 (8 - len (Ext "a-long-file-name.mkv"))
            +:+ Ext "a-long-file-name.mkv"
        /\ HasSuffix t (Ext "a-long-file-name.mkv") = true)
    /\ (8 < len "a-long-file-name.mkv" -> 8 < len (Ext "a-long-file-name.mkv") ->
        t = slice "a-long-file-name.mkv" 0 8).
Proof. apply (proj2 (trimName_length "a-long-file-name.mkv" 8)). lia. Defined.

End NameFacts.

(** ** The info dictionary *)
Module InfoFacts.
Import metainfo.

Section Decoding.
Context `{GoLib}.
Variable ToValidUTF8 : string -> string -> string.
Variable Join : list string -> string.

Lemma cleanName_Some s : is_Some (cleanName ToValidUTF8 s).
Proof.
  unfold cleanName, cleanNameN.
  destruct (proj2 (NameFacts.trimName_length (ToValidUTF8 s replacementChar) 255)
              ltac:(lia)) as (t & -> & _).
  eauto.
Qed.

Lemma mapM_cleanName l : is_Some (mapM (cleanName ToValidUTF8) l).
Proof.
  induction l as [|s l [l' IH]]; [eexists; reflexivity|].
  destruct (cleanName_Some s) as [s' Hs]. cbn. rewrite Hs, IH. cbn. eauto.
Qed.

(** The loop over the files never panics; the files it adds have the
    lengths of the files of the dictionary, in their order, and paths that
    differ from one another and from the paths met before. *)
Lemma buildFiles_spec name pad files : forall built uniquePaths,
  match buildFiles ToValidUTF8 Join name pad files built uniquePaths with
  | Value out =>
      exists news,
        out = built ++ news
        /\ map File.Length news = map file.Length files
        /\ NoDup (map File.Path news)
        /\ (forall p, p ∈ map File.Path news -> p ∉ uniquePaths)
  | Error e => True
  | Panics => False
  end.
Proof.
  induction files as [|f rest IH]; intros built uniquePaths; cbn [buildFiles].
  - exists []. rewrite app_nil_r. repeat split; [constructor|].
    intros p Hp. apply elem_of_nil in Hp. contradiction.
  - destruct (cleanName_Some name) as [first ->].
    destruct (mapM_cleanName (file.Path f)) as [others ->].
    destruct (bool_decide _) eqn:Hin; [exact I|].
    apply bool_decide_eq_false in Hin.
    specialize (IH (built ++ [ {| File.Length := file.Length f;
                                  File.Path := Join (first :: others);
                                  File.Padding := if pad then isPadding f else false |} ])
                  ({[Join (first :: others)]} ∪ uniquePaths)).
    destruct (buildFiles _ _ _ _ rest _ _) as [out|e|]; [|exact IH|exact IH].
    destruct IH as (news & -> & Hl & Hnd & Hfresh).
    eexists (_ :: news). rewrite <- app_assoc. split; [reflexivity|].
    split; [cbn [map]; f_equal; exact Hl|]. split.
    + cbn [map File.Path]. constructor; [|exact Hnd].
      intros Hc. apply (Hfresh _ Hc). apply elem_of_union. left.
      apply elem_of_singleton. reflexivity.
    + intros p Hp. cbn [map File.Path] in Hp. apply elem_of_cons in Hp as [->|Hp].
      * exact Hin.
      * intros Hc. apply (Hfresh p Hp). apply elem_of_union. now right.
Qed.

End Decoding.

Lemma to_int64_range x : - 2 ^ 63 <= to_int64 x < 2 ^ 63.
Proof.
  unfold to_int64. pose proof (Z.mod_pos_bound (x + 2 ^ 63) (2 ^ 64) eq_refl). lia.
Qed.

(** [int64(x)] is [x] below [2^63] and [x - 2^64] from there on. *)
Lemma to_int64_cases x :
  - 2 ^ 63 <= x < 2 ^ 64 + 2 ^ 63 ->
  (x < 2 ^ 63 /\ to_int64 x = x) \/ (2 ^ 63 <= x /\ to_int64 x = x - 2 ^ 64).
Proof.
  intros Hx. unfold to_int64.
  destruct (Z.lt_ge_cases x (2 ^ 63)) as [Hlt|Hge]; [left|right]; (split; [lia|]).
  - rewrite Z.mod_small; lia.
  - replace (x + 2 ^ 63) with (x + 2 ^ 63 - 2 ^ 64 + 1 * 2 ^ 64) by lia.
    rewrite Z.mod_add by lia. rewrite Z.mod_small; lia.
Qed.

Lemma totalLength_range files : - 2 ^ 63 <= totalLength files < 2 ^ 63.
Proof.
  unfold totalLength.
  assert (Hgen : forall z0, - 2 ^ 63 <= z0 < 2 ^ 63 ->
            - 2 ^ 63 <= fold_left (fun length f => to_int64 (length + file.Length f))
                          files z0 < 2 ^ 63).
  { induction files as [|f l IH]; intros z0 Hz; [exact Hz|].
    cbn [fold_left]. apply IH, to_int64_range. }
  apply Hgen. lia.
Qed.

Lemma dotDot_None `{GoLib} files :
  dotDot files = None ->
  forall f path, f ∈ files -> path ∈ file.Path f -> TrimSpace path <> "..".
Proof.
  unfold dotDot. intros Hnone f path Hf Hp Hc.
  apply list_elem_of_In in Hf, Hp.
  pose proof (List.find_none _ _ Hnone f Hf) as Hfalse. cbv beta in Hfalse.
  assert (existsb (fun path => String.eqb (TrimSpace path) "..") (file.Path f) = true);
    [|congruence].
  apply existsb_exists. exists path. split; [exact Hp|]. apply String.eqb_eq, Hc.
Qed.

(** [NewInfo] never panics: the names it cleans are trimmed to 255
    bytes, a bound that is not negative. *)
Lemma NewInfo_no_panic `{GoLib}
    (decodeInfo : string -> infoType + string)
    (decodeInt : string -> option Z)
    (decodeString : string -> option string)
    (sha1 : string -> string)
    (ToValidUTF8 : string -> string -> string)
    (Join : list string -> string) b utf8 pad :
  NewInfo decodeInfo decodeInt decodeString sha1 ToValidUTF8 Join b utf8 pad <> Panics.
Proof.
  unfold NewInfo. destruct (decodeInfo b) as [ib|message]; [|discriminate].
  destruct (PieceLength ib =? 0); [discriminate|].
  destruct (negb _); [discriminate|].
  destruct (len (Pieces ib) / sha1_Size =? 0); [discriminate|].
  cbv zeta. destruct (dotDot _) as [bad|]; [discriminate|].
  destruct (_ || _); [discriminate|].
  match goal with
  | |- match (if ?multi then _ else _) with _ => _ end <> _ => destruct multi
  end.
  - match goal with
    | |- context [buildFiles _ _ ?name ?pad ?files [] ∅] =>
        pose proof (buildFiles_spec ToValidUTF8 Join name pad files [] ∅) as Hb;
        destruct (buildFiles ToValidUTF8 Join name pad files [] ∅)
    end; [discriminate|discriminate|contradiction].
  - match goal with
    | |- context [cleanName _ ?name] =>
        destruct (cleanName_Some ToValidUTF8 name) as [path ->]
    end.
    discriminate.
Qed.

(** X18. [NewInfo] never panics.  In an info dictionary it accepts, the
    piece length is not zero and the pieces are a positive number of
    SHA-1 sums; no path element of a file is [..] once trimmed; the name
    is the name of the dictionary or, without one, the hash in
    hexadecimal.  The files it builds are not an empty list and no two of
    them have the same path: for a dictionary with files, one file for
    each, in their order and with their lengths, and the length of the
    torrent is their sum; for a dictionary without files, one file of the
    length of the torrent.  When the number of pieces fits 32 bits and the
    bytes the pieces cover fit 63 bits, the length of the torrent is
    positive and the number of pieces is the length divided by the piece
    length, rounded up. *)
Theorem NewInfo_consistent :
  forall (lib : GoLib)
         (decodeInfo : string -> infoType + string)
         (decodeInt : string -> option Z)
         (decodeString : string -> option string)
         (sha1 : string -> string)
         (ToValidUTF8 : string -> string -> string)
         (Join : list string -> string)
         b utf8 pad,
    NewInfo decodeInfo decodeInt decodeString sha1 ToValidUTF8 Join b utf8 pad <> Panics
    /\ forall ib i,
         decodeInfo b = inl ib ->
         0 <= PieceLength ib < 2 ^ 32 ->
         - 2 ^ 63 <= Length ib < 2 ^ 63 ->
         NewInfo decodeInfo decodeInt decodeString sha1 ToValidUTF8 Join b utf8 pad
         = Value i ->
         let decoded := if utf8 then overrideUTF8Keys ib else ib in
         let numPieces := len (Info.pieces i) / 20 in
         (Info.PieceLength i = PieceLength ib /\ 0 < Info.PieceLength i
          /\ Info.pieces i = Pieces ib /\ Info.Bytes i = b /\ Info.Hash i = sha1 b)
         /\ (len (Info.pieces i) = 20 * numPieces /\ 0 < numPieces
             /\ Info.NumPieces i = numPieces mod 2 ^ 32)
         /\ (forall f path, f ∈ Files decoded -> path ∈ file.Path f ->
               TrimSpace path <> "..")
         /\ Info.Name i = (if String.eqb (Name decoded) ""
                           then EncodeToString (sha1 b) else Name decoded)
         /\ (Info.Files i <> [] /\ NoDup (map File.Path (Info.Files i)))
         /\ (Files decoded <> [] ->
             map File.Length (Info.Files i) = map file.Length (Files decoded)
             /\ Info.Length i = totalLength (Files decoded))
         /\ (Files decoded = [] ->
             Info.Length i = Length ib
             /\ exists path,
                  Info.Files i = [ {| File.Length := Length ib; File.Path := path;
                                      File.Padding := false |} ])
         /\ (numPieces < 2 ^ 32 -> Info.PieceLength i * numPieces < 2 ^ 63 ->
             0 < Info.Length i
             /\ Info.PieceLength i * (Info.NumPieces i - 1) < Info.Length i
                <= Info.PieceLength i * Info.NumPieces i).
Proof.
  intros lib decodeInfo decodeInt decodeString sha1 ToValidUTF8 Join b utf8 pad.
  unfold NewInfo. destruct (decodeInfo b) as [ib|message].
  2: { split; [discriminate|]. intros ib i Hc. discriminate. }
  destruct (Z.eqb_spec (PieceLength ib) 0) as [Hz|Hnz].
  { split; [discriminate|]. intros ib' i _ _ _ Hc. discriminate. }
  destruct (Z.eqb_spec (len (Pieces ib) mod sha1_Size) 0) as [Hmod|Hmod]; cbn [negb].
  2: { split; [discriminate|]. intros ib' i _ _ _ Hc. discriminate. }
  destruct (Z.eqb_spec (len (Pieces ib) / sha1_Size) 0) as [Hnp|Hnp].
  { split; [discriminate|]. intros ib' i _ _ _ Hc. discriminate. }
  cbv zeta.
  set (decoded := if utf8 then overrideUTF8Keys ib else ib).
  assert (Hpl : PieceLength decoded = PieceLength ib)
    by (unfold decoded; destruct utf8; reflexivity).
  assert (Hpieces : Pieces decoded = Pieces ib)
    by (unfold decoded; destruct utf8; reflexivity).
  assert (Hlen : Length decoded = Length ib)
    by (unfold decoded; destruct utf8; reflexivity).
  destruct (dotDot (Files decoded)) as [bad|] eqn:Hdd.
  { split; [discriminate|]. intros ib' i _ _ _ Hc. discriminate. }
  rewrite Hpl, Hlen, Hpieces.
  set (length := if 0 <? Z.of_nat (List.length (Files decoded))
                 then totalLength (Files decoded) else Length ib).
  set (delta := to_int64 (to_int64 (PieceLength ib
                                    * to_uint32 (len (Pieces ib) / sha1_Size)) - length)).
  destruct (Z.leb_spec (PieceLength ib) delta) as [Hd1|Hd1]; cbn [orb].
  { split; [discriminate|]. intros ib' i _ _ _ Hc. discriminate. }
  destruct (Z.ltb_spec delta 0) as [Hd2|Hd2].
  { split; [discriminate|]. intros ib' i _ _ _ Hc. discriminate. }
  set (name := if negb (String.eqb (Name decoded) "") then Name decoded
               else EncodeToString (sha1 b)).
  assert (Hfiles :
    match (if 0 <? Z.of_nat (List.length (Files decoded))
           then buildFiles ToValidUTF8 Join name pad (Files decoded) [] ∅
           else match cleanName ToValidUTF8 name with
                | Some path => Value [ {| File.Length := length; File.Path := path;
                                          File.Padding := false |} ]
                | None => Panics
                end) with
    | Value files =>
        (files <> [] /\ NoDup (map File.Path files))
        /\ (Files decoded <> [] ->
            map File.Length files = map file.Length (Files decoded)
            /\ length = totalLength (Files decoded))
        /\ (Files decoded = [] ->
            length = Length ib
            /\ exists path, files = [ {| File.Length := Length ib; File.Path := path;
                                         File.Padding := false |} ])
    | Error e => True
    | Panics => False
    end).
  { unfold length. destruct (Files decoded) as [|f0 files0] eqn:Ef.
    - cbn [List.length Z.of_nat Z.ltb Z.compare].
      destruct (cleanName_Some ToValidUTF8 name) as [path ->].
      split; [split; [discriminate|]|split; [congruence|]].
      + cbn [map]. repeat constructor. intros Hc. apply elem_of_nil in Hc. exact Hc.
      + intros _. split; [reflexivity|]. exists path. reflexivity.
    - replace (0 <? Z.of_nat (List.length (f0 :: files0))) with true
        by (symmetry; apply Z.ltb_lt; cbn [List.length]; lia).
      pose proof (buildFiles_spec ToValidUTF8 Join name pad (f0 :: files0) [] ∅) as Hb.
      destruct (buildFiles _ _ _ _ _ _ _) as [files|e|]; [|exact I|exact Hb].
      destruct Hb as (news & -> & Hl & Hnd & _). cbn [app].
      split; [split; [|exact Hnd]|split; [intros _; split; [exact Hl|reflexivity]|discriminate]].
      intros ->. discriminate Hl. }
  match type of Hfiles with
  | match ?x with Value _ => _ | Error _ => _ | Panics => _ end =>
      destruct x as [files|e|]
  end; [|split; [discriminate|]|contradiction].
  2: { intros ib' i _ _ _ Hc. discriminate. }
  split; [discriminate|].
  intros ib' i [= <-] Hrange Hlrange [= <-].
  cbn [Info.PieceLength Info.NumPieces Info.Length Info.Hash Info.Bytes Info.Name
       Info.Files Info.pieces].
  fold decoded. unfold sha1_Size in *.
  assert (Hnpos : 0 < len (Pieces ib) / 20).
  { assert (0 <= len (Pieces ib) / 20); [|lia].
    apply Z.div_pos; [unfold len|]; lia. }
  destruct Hfiles as (Hne & Hmulti & Hsingle).
  split; [repeat split; lia|].
  split.
  { split; [|split; [exact Hnpos|reflexivity]].
    pose proof (Z.div_mod (len (Pieces ib)) 20 ltac:(lia)). lia. }
  split; [apply dotDot_None, Hdd|].
  split.
  { unfold name. destruct (String.eqb (Name decoded) ""); reflexivity. }
  split; [exact Hne|]. split; [exact Hmulti|]. split; [exact Hsingle|].
  intros Hnp32 Hprod.
  assert (Hnp' : to_uint32 (len (Pieces ib) / 20) = len (Pieces ib) / 20).
  { unfold to_uint32. apply Z.mod_small. lia. }
  assert (Hlr : - 2 ^ 63 <= length < 2 ^ 63).
  { unfold length. destruct (0 <? _); [apply totalLength_range|exact Hlrange]. }
  fold (to_uint32 (len (Pieces ib) / 20)). rewrite Hnp'.
  unfold delta in Hd1, Hd2. rewrite Hnp' in Hd1, Hd2.
  remember (PieceLength ib * (len (Pieces ib) / 20)) as total eqn:Htotal.
  assert (Htpos : 0 <= total) by (subst total; nia).
  destruct (to_int64_cases total ltac:(lia)) as [[_ Et]|[Hc _]]; [|lia].
  rewrite Et in Hd1, Hd2.
  destruct (to_int64_cases (total - length) ltac:(lia)) as [[_ Ed]|[_ Ed]];
    rewrite Ed in Hd1, Hd2; [|lia].
  nia.
Qed.

(** The torrent of two files: 30000 bytes in two pieces of 16 KiB. *)
Lemma NewInfo_two_files :
  exists i,
    NewInfo (H := Samples.lib) TorrentSamples.decodeTwoFiles (fun _ => None) (fun _ => None)
      TorrentSamples.sum20 TorrentSamples.keep TorrentSamples.joinSlash "d4:infoe" true true = Value i
    /\ Info.Length i = 30000
    /\ Info.NumPieces i = 2
    /\ map File.Path (Info.Files i) = ["pack/a/one.mkv"; "pack/a/two.mkv"]
    /\ (len (Info.pieces i) / 20 < 2 ^ 32 ->
        Info.PieceLength i * (len (Info.pieces i) / 20) < 2 ^ 63 ->
        0 < Info.Length i
        /\ Info.PieceLength i * (Info.NumPieces i - 1) < Info.Length i
           <= Info.PieceLength i * Info.NumPieces i).
Proof.
  eexists. split; [vm_compute; reflexivity|].
  split; [reflexivity|]. split; [reflexivity|]. split; [reflexivity|].
  apply (proj2 (NewInfo_consistent Samples.lib TorrentSamples.decodeTwoFiles
                  (fun _ => None) (fun _ => None) TorrentSamples.sum20 TorrentSamples.keep
                  TorrentSamples.joinSlash "d4:infoe" true true) TorrentSamples.twoFiles);
    [reflexivity|vm_compute; split; [discriminate|reflexivity]
    |vm_compute; split; [discriminate|reflexivity]|vm_compute; reflexivity].
Defined.


(** X19. [parseTorrentFile] never panics.  A torrent file it accepts has
    an info dictionary that is not empty and that [NewInfo] accepts, with
    the UTF-8 keys and the padding files taken into account.  Every tier
    of trackers it returns holds a tracker, and every tracker of a tier
    starts with [http://], [https://] or [udp://]; every web seed starts
    with [http://] or [https://].  Without an announce list there is at
    most one tier, of the one tracker of the file; without a list of web
    seeds there is none. *)
Theorem parseTorrentFile_supported :
  forall (lib : GoLib)
         (decodeInfo : string -> infoType + string)
         (decodeInt : string -> option Z)
         (decodeString : string -> option string)
         (sha1 : string -> string)
         (ToValidUTF8 : string -> string -> string)
         (Join : list string -> string)
         (decodeTorrent : string -> torrentType + string)
         (decodeTiers : string -> option (list (list string)))
         (decodeList : string -> option (list string))
         r,
    let parsed :=
      parseTorrentFile decodeInfo decodeInt decodeString sha1 ToValidUTF8 Join
        decodeTorrent decodeTiers decodeList r in
    parsed <> Panics
    /\ forall mi, parsed = Value mi ->
         exists t,
           decodeTorrent r = inl t
           /\ rawInfo t <> ""
           /\ NewInfo decodeInfo decodeInt decodeString sha1 ToValidUTF8 Join
                (rawInfo t) true true = Value (info mi)
           /\ (forall tier, tier ∈ AnnounceList mi ->
                 tier <> []
                 /\ forall s, s ∈ tier ->
                      gostrings.HasPrefix s "http://" = true
                      \/ gostrings.HasPrefix s "https://" = true
                      \/ gostrings.HasPrefix s "udp://" = true)
           /\ (forall s, s ∈ URLList mi ->
                 gostrings.HasPrefix s "http://" = true
                 \/ gostrings.HasPrefix s "https://" = true)
           /\ (rawAnnounceList t = "" ->
               AnnounceList mi = []
               \/ exists s, decodeString (rawAnnounce t) = Some s
                            /\ AnnounceList mi = [[s]])
           /\ (rawURLList t = "" -> URLList mi = []).
Proof.
  intros lib decodeInfo decodeInt decodeString sha1 ToValidUTF8 Join
    decodeTorrent decodeTiers decodeList r parsed.
  unfold parsed, parseTorrentFile.
  destruct (decodeTorrent r) as [t|message].
  2: { split; [discriminate|]. intros mi Hc. discriminate. }
  destruct (Z.eqb_spec (len (rawInfo t)) 0) as [Hz|Hnz].
  { split; [discriminate|]. intros mi Hc. discriminate. }
  pose proof (NewInfo_no_panic decodeInfo decodeInt decodeString sha1
                ToValidUTF8 Join (rawInfo t) true true) as Hnp.
  destruct (NewInfo _ _ _ _ _ _ (rawInfo t) true true) as [i|e|] eqn:En.
  2: { split; [discriminate|]. intros mi Hc. discriminate. }
  2: { contradiction. }
  split; [discriminate|]. intros mi [= <-].
  exists t. cbn [info AnnounceList URLList].
  split; [reflexivity|]. split.
  { intros E. apply Hnz. rewrite E. reflexivity. }
  split; [exact En|].
  assert (Htracker : forall s, isTrackerSupported s = true ->
            gostrings.HasPrefix s "http://" = true
            \/ gostrings.HasPrefix s "https://" = true
            \/ gostrings.HasPrefix s "udp://" = true).
  { intros s Hs. unfold isTrackerSupported in Hs.
    apply orb_true_iff in Hs as [Hs|Hs]; [|auto].
    apply orb_true_iff in Hs as [Hs|Hs]; auto. }
  assert (Hseed : forall s, isWebseedSupported s = true ->
            gostrings.HasPrefix s "http://" = true
            \/ gostrings.HasPrefix s "https://" = true).
  { intros s Hs. unfold isWebseedSupported in Hs.
    apply orb_true_iff in Hs as [Hs|Hs]; auto. }
  split; [|split; [|split]].
  - intros tier Htier.
    destruct (0 <? len (rawAnnounceList t)).
    + destruct (decodeTiers (rawAnnounceList t)) as [ll|];
        [|apply elem_of_nil in Htier; contradiction].
      unfold supportedTiers in Htier.
      apply list_elem_of_In, filter_In in Htier as [Hin Hlen].
      apply in_map_iff in Hin as (tier0 & <- & _).
      split.
      * intros E. rewrite E in Hlen. discriminate.
      * intros s Hs. apply list_elem_of_In, filter_In in Hs as [_ Hs].
        apply Htracker, Hs.
    + destruct (decodeString (rawAnnounce t)) as [s0|];
        [|apply elem_of_nil in Htier; contradiction].
      destruct (isTrackerSupported s0) eqn:Es;
        [|apply elem_of_nil in Htier; contradiction].
      apply list_elem_of_singleton in Htier as ->.
      split; [discriminate|].
      intros s Hs. apply list_elem_of_singleton in Hs as ->. apply Htracker, Es.
  - intros s Hs.
    destruct (0 <? len (rawURLList t)); [|apply elem_of_nil in Hs; contradiction].
    assert (Hlist : s ∈ match decodeList (rawURLList t) with
                        | Some l => List.filter isWebseedSupported l
                        | None => []
                        end -> isWebseedSupported s = true).
    { destruct (decodeList (rawURLList t)) as [l|]; intros Hin;
        [|apply elem_of_nil in Hin; contradiction].
      apply list_elem_of_In, filter_In in Hin as [_ Hin]. exact Hin. }
    assert (Hone : s ∈ match decodeString (rawURLList t) with
                       | Some s0 => if isWebseedSupported s0 then [s0] else []
                       | None => []
                       end -> isWebseedSupported s = true).
    { destruct (decodeString (rawURLList t)) as [s0|]; intros Hin;
        [|apply elem_of_nil in Hin; contradiction].
      destruct (isWebseedSupported s0) eqn:Es;
        [|apply elem_of_nil in Hin; contradiction].
      apply list_elem_of_singleton in Hin as ->. exact Es. }
    apply Hseed.
    destruct (rawURLList t) as [|c rest]; [auto|].
    destruct c as [[] [] [] [] [] [] [] []]; auto.
  - intros E. rewrite E. cbn [len String.length Z.of_nat Z.ltb Z.compare].
    destruct (decodeString (rawAnnounce t)) as [s0|]; [|left; reflexivity].
    destruct (isTrackerSupported s0); [right; eauto|left; reflexivity].
  - intros E. rewrite E. reflexivity.
Qed.

End InfoFacts.
